(** * QuizGenie: the quiz lifecycle store and the question-generation pipeline

    A shallow embedding of [quiz_store.py], [quiz_generator.py],
    [objective.py] and [subjective.py].

    - Python dictionaries are finite maps ([gmap]), the used-answer set is a
      [gset], lists are lists.
    - A method that mutates [self] takes the store and returns the new store;
      a raised exception is a value of [exn], and the store is returned
      together with it because the mutations made before the [raise] stay.
    - Clock readings ([datetime.now()], [time.time()]) are arguments of
      each operation, in microseconds. [create_quiz], whose readings set
      both ends of the life of a quiz, takes each of its readings
      separately ([Clock]); the other operations take one reading [now].
    - The [random] module draws from a tape of natural numbers; a tape that
      is used up stands for a run that never comes back. *)

From Stdlib Require Import ZArith QArith Lia Lqa Ascii.
From stdpp Require Import gmap strings list fin_maps.
Close Scope Q_scope.

(** ** Python values shared by the modules *)

(** The exceptions the modelled code raises, with their messages. *)
Inductive exn : Type :=
  | ValueError (msg : string)
  | KeyError (key : string)
  | IndexError (msg : string)
  | ZeroDivisionError
  | Exception (msg : string).

(** A question dictionary. The generator and the callers of the store do not
    write the same keys, so a key that may be missing is an [option]. *)
Record Question : Type := mkQuestion {
  q_question : string;
  q_type : string;
  q_options : option (list string);
  q_correct : option nat;
  q_correct_answer : option string
}.

(** ** Strings: the [str] methods the code calls (ASCII) *)

Module PyStr.

Definition is_upper (c : ascii) : bool :=
  let n := nat_of_ascii c in (65 <=? n) && (n <=? 90).
Definition is_lower (c : ascii) : bool :=
  let n := nat_of_ascii c in (97 <=? n) && (n <=? 122).
Definition is_digit (c : ascii) : bool :=
  let n := nat_of_ascii c in (48 <=? n) && (n <=? 57).

Definition lower_char (c : ascii) : ascii :=
  if is_upper c then ascii_of_nat (nat_of_ascii c + 32) else c.
Definition upper_char (c : ascii) : ascii :=
  if is_lower c then ascii_of_nat (nat_of_ascii c - 32) else c.

(** [s.lower()] *)
Fixpoint lower (s : string) : string :=
  match s with
  | EmptyString => EmptyString
  | String c s' => String (lower_char c) (lower s')
  end.

(** [s.capitalize()] *)
Definition capitalize (s : string) : string :=
  match s with
  | EmptyString => EmptyString
  | String c s' => String (upper_char c) (lower s')
  end.

Fixpoint all_chars (p : ascii -> bool) (s : string) : bool :=
  match s with
  | EmptyString => true
  | String c s' => p c && all_chars p s'
  end.

(** [s.isalnum()]: false on the empty string. *)
Definition isalnum (s : string) : bool :=
  match s with
  | EmptyString => false
  | _ => all_chars (fun c => is_upper c || is_lower c || is_digit c) s
  end.

(** [s.startswith(p)] *)
Definition startswith (s p : string) : bool := String.prefix p s.

(** [s[n:]] *)
Fixpoint drop_chars (n : nat) (s : string) : string :=
  match n, s with
  | O, _ => s
  | S k, EmptyString => EmptyString
  | S k, String _ s' => drop_chars k s'
  end.

(** [s[:n]] *)
Fixpoint take_chars (n : nat) (s : string) : string :=
  match n, s with
  | O, _ => EmptyString
  | S k, EmptyString => EmptyString
  | S k, String c s' => String c (take_chars k s')
  end.

(** [sub in s] *)
Fixpoint contains (sub s : string) : bool :=
  String.prefix sub s ||
  match s with
  | EmptyString => false
  | String _ s' => contains sub s'
  end.

(** [s.replace(old, new, 1)]: the leftmost occurrence only. *)
Fixpoint replace_first (old new s : string) : string :=
  if String.prefix old s then new +:+ drop_chars (String.length old) s
  else match s with
       | EmptyString => EmptyString
       | String c s' => String c (replace_first old new s')
       end.

(** [s.replace(old, new)]: every occurrence, left to right, without
    overlap. [skip] counts the characters of a matched occurrence still to
    be passed over. An empty [old] matches before every character and at
    the end. *)
Fixpoint replace_go (old new s : string) (skip : nat) : string :=
  match s with
  | EmptyString =>
      match old with EmptyString => new | _ => EmptyString end
  | String c s' =>
      match skip with
      | S k => replace_go old new s' k
      | O =>
          match old with
          | EmptyString => new +:+ String c (replace_go old new s' 0)
          | _ =>
              if String.prefix old s
              then new +:+ replace_go old new s' (String.length old - 1)
              else String c (replace_go old new s' 0)
          end
      end
  end.
Definition replace (old new s : string) : string := replace_go old new s 0.

(** [s.split()]: the maximal runs of characters that are not white space. *)
Fixpoint split_go (cur : string) (s : string) : list string :=
  match s with
  | EmptyString =>
      match cur with EmptyString => [] | _ => [String.rev cur] end
  | String c s' =>
      if Ascii.is_space c
      then match cur with
           | EmptyString => split_go EmptyString s'
           | _ => String.rev cur :: split_go EmptyString s'
           end
      else split_go (String c cur) s'
  end.
Definition split (s : string) : list string := split_go EmptyString s.

(** [s.strip()] *)
Fixpoint lstrip (s : string) : string :=
  match s with
  | EmptyString => EmptyString
  | String c s' => if Ascii.is_space c then lstrip s' else s
  end.
Definition strip (s : string) : string :=
  String.rev (lstrip (String.rev (lstrip s))).

(** [sep.join(l)] *)
Fixpoint join (sep : string) (l : list string) : string :=
  match l with
  | [] => EmptyString
  | [x] => x
  | x :: l' => x +:+ sep +:+ join sep l'
  end.

End PyStr.

(** ** The [random] module, driven by a tape of draws *)

Module PyRandom.

Definition Tape : Type := list nat.

(** What running a computation on a tape gives: a value and the rest of
    the tape, an exception and the rest of the tape, or nothing because the
    draws ran out. *)
Inductive outcome (A : Type) : Type :=
  | Ret (a : A) (t : Tape)
  | Raise (e : exn) (t : Tape)
  | Starved.
Arguments Ret {A} a t.
Arguments Raise {A} e t.
Arguments Starved {A}.

Definition M (A : Type) : Type := Tape -> outcome A.

Definition ret {A} (a : A) : M A := fun t => Ret a t.
Definition raise {A} (e : exn) : M A := fun t => Raise e t.
Definition starve {A} : M A := fun _ => Starved.
Definition bind {A B} (m : M A) (k : A -> M B) : M B :=
  fun t => match m t with
           | Ret a t' => k a t'
           | Raise e t' => Raise e t'
           | Starved => Starved
           end.

(** [try: m except Exception as e: handler e] *)
Definition try_except {A} (m : M A) (handler : exn -> M A) : M A :=
  fun t => match m t with
           | Raise e t' => handler e t'
           | r => r
           end.

(** The number of draws left on the tape: the bound given to a [while]
    loop, which cannot go round more often than it can draw. *)
Definition remaining : M nat := fun t => Ret (length t) t.

(** A uniform draw in [0, n). *)
Definition randbelow (n : nat) : M nat :=
  fun t => match t with
           | [] => Starved
           | d :: t' => Ret (d mod n) t'
           end.

(** [random.choice(seq)] *)
Definition choice {A} (seq : list A) : M A :=
  match seq with
  | [] => raise (IndexError "Cannot choose from an empty sequence")
  | x :: _ => bind (randbelow (length seq)) (fun j => ret (nth j seq x))
  end.

(** [x[i], x[j] = x[j], x[i]] *)
Definition swap {A} (x : list A) (i j : nat) : list A :=
  match x !! i, x !! j with
  | Some a, Some b => <[j:=a]> (<[i:=b]> x)
  | _, _ => x
  end.

(** [random.shuffle(x)]: for [i] from [len(x) - 1] down to [1], swap
    [x[i]] with [x[randbelow(i + 1)]]. *)
Fixpoint shuffle_go {A} (i : nat) (x : list A) : M (list A) :=
  match i with
  | O => ret x
  | S i' => bind (randbelow (S i)) (fun j => shuffle_go i' (swap x i j))
  end.
Definition shuffle {A} (x : list A) : M (list A) :=
  shuffle_go (length x - 1) x.

(** [random.sample(population, k)], selection from a pool: draw a position
    of the pool, take its element, and move the last element of the pool
    into the hole. (For a population of more than 21 entries CPython draws
    positions of the population again until it finds a new one; both ways
    give [k] entries at distinct positions.) *)
Fixpoint sample_go {A} (k : nat) (pool : list A) : M (list A) :=
  match k with
  | O => ret []
  | S k' =>
      bind (randbelow (length pool)) (fun j =>
        match pool !! j, last pool with
        | Some a, Some z =>
            bind (sample_go k' (take (length pool - 1) (<[j:=z]> pool)))
                 (fun rest => ret (a :: rest))
        | _, _ => raise (IndexError "list index out of range")
        end)
  end.
Definition sample {A} (population : list A) (k : Z) : M (list A) :=
  if bool_decide (0 <= k <= Z.of_nat (length population))%Z
  then sample_go (Z.to_nat k) population
  else raise (ValueError "Sample larger than population or is negative").

(** [ensures m P]: on no tape does [m] raise, and what it returns
    satisfies [P]. *)
Definition ensures {A} (m : M A) (P : A -> Prop) : Prop :=
  forall t, match m t with
            | Ret a _ => P a
            | Raise _ _ => False
            | Starved => True
            end.

(** [can_return m P]: there are draws on which [m] returns a value that
    satisfies [P], whatever is drawn after them. *)
Definition can_return {A} (m : M A) (P : A -> Prop) : Prop :=
  exists (t : Tape) (a : A), P a /\ forall t', m (t ++ t') = Ret a t'.

(** [random.randint(a, b)] for [a <= b], as naturals. *)
Definition randint (a b : nat) : M nat :=
  bind (randbelow (b - a + 1)) (fun j => ret (a + j)).

(** [random.choices(population, k=k)]: [k] draws with replacement. *)
Fixpoint choices {A} (population : list A) (k : nat) : M (list A) :=
  match k with
  | O => ret []
  | S k' =>
      bind (choice population) (fun a =>
        bind (choices population k') (fun rest => ret (a :: rest)))
  end.

(** The value and the tape an outcome holds. *)
Definition value_of {A} (d : A) (o : outcome A) : A :=
  match o with
  | Ret a _ => a
  | _ => d
  end.
Definition tape_of {A} (o : outcome A) : Tape :=
  match o with
  | Ret _ t => t
  | Raise _ t => t
  | Starved => []
  end.

Global Arguments choice : simpl never.
Global Arguments shuffle : simpl never.
Global Arguments sample : simpl never.
Global Arguments randint : simpl never.
Global Arguments remaining : simpl never.

End PyRandom.

Declare Scope rand_scope.
Delimit Scope rand_scope with rand.
Notation "'let*' x ':=' m 'in' k" := (PyRandom.bind m (fun x => k))
  (at level 10, x name, m at level 100, k at level 200) : rand_scope.
Notation "'let*' ' pat ':=' m 'in' k" :=
  (PyRandom.bind m (fun x => match x with pat => k end))
  (at level 10, pat pattern, m at level 100, k at level 200) : rand_scope.

(** ** quiz_store.py *)

Module QuizStore.

Record Submission : Type := mkSubmission {
  sub_student_name : string;
  sub_answers : list string;
  sub_timestamp : Z
}.

Record Quiz : Type := mkQuiz {
  questions : list Question;
  quiz_type : string;
  created_by : string;
  submissions : list Submission;
  created_at : Z;
  expires_at : Z;
  total_attempts : Z;
  average_score : Q
}.

(** One entry of the [feedback] list of a response. *)
Record Feedback : Type := mkFeedback {
  fb_question_num : nat;
  fb_correct : bool;
  fb_student_answer : string;
  fb_correct_answer : string
}.

Record Response : Type := mkResponse {
  r_student_name : string;
  r_submission_time : Z;
  r_score : nat;
  r_score_percentage : Q;
  r_total_questions : nat;
  r_answers : list string;
  r_feedback : list Feedback
}.

(** The attributes of a [QuizStore] object. [expired_quizzes] can hold
    [None] as a value, which [dict.get] does not tell apart from a missing
    key. *)
Record t : Type := mkStore {
  quizzes : gmap string Quiz;
  store_submissions : gmap string (list Submission);
  expired_quizzes : gmap string (option Quiz);
  expiry_time : Z;
  last_cleanup : Z;
  cleanup_interval : Z
}.

Definition microseconds_per_hour : Z := 3600 * 1000000.

(** [QuizStore.__init__], at clock reading [now]. *)
Definition init (now : Z) : t :=
  {| quizzes := ∅;
     store_submissions := ∅;
     expired_quizzes := ∅;
     expiry_time := 24 * microseconds_per_hour;
     last_cleanup := now;
     cleanup_interval := 3600 * 1000000 |}.

(** The body of the loop of [cleanup_expired_quizzes], for one code. *)
Definition cleanup_code (s : t) (code : string) : t :=
  let quizzes1 := delete code (quizzes s) in
  let submissions1 := delete code (store_submissions s) in
  {| quizzes := quizzes1;
     store_submissions := submissions1;
     expired_quizzes := <[code := quizzes1 !! code]> (expired_quizzes s);
     expiry_time := expiry_time s;
     last_cleanup := last_cleanup s;
     cleanup_interval := cleanup_interval s |}.

Definition expired_codes (s : t) (current_time : Z) : list string :=
  (filter (fun cq => bool_decide (expires_at cq.2 <= current_time)%Z)
          (map_to_list (quizzes s))).*1.

Definition cleanup_expired_quizzes (s : t) (now : Z) : t :=
  let s1 := foldl cleanup_code s (expired_codes s now) in
  {| quizzes := quizzes s1;
     store_submissions := store_submissions s1;
     expired_quizzes := expired_quizzes s1;
     expiry_time := expiry_time s1;
     last_cleanup := now;
     cleanup_interval := cleanup_interval s1 |}.

(** The clock readings of one [create_quiz] call, in the order the call
    takes them: [time.time()] on entry, [datetime.now()] inside the sweep
    (taken only when the sweep runs), then the two [datetime.now()] of the
    quiz record, the first for [created_at] and the second for
    [expires_at]. *)
Record Clock : Type := mkClock {
  time_time : Z;
  sweep_now : Z;
  created_now : Z;
  expires_now : Z
}.

(** Readings so close together that the clock shows the same value for
    all of them. *)
Definition instant (now : Z) : Clock :=
  {| time_time := now; sweep_now := now;
     created_now := now; expires_now := now |}.

(** [create_quiz]; [quiz_code] is the code drawn from [uuid.uuid4()]. *)
Definition create_quiz (s : t) (clock : Clock) (quiz_code : string)
    (qs : list Question) (qtype : string) (by_ : string) : t * string :=
  let current_time := time_time clock in
  let s1 :=
    if bool_decide (current_time - last_cleanup s > cleanup_interval s)%Z
    then let s' := cleanup_expired_quizzes s (sweep_now clock) in
         {| quizzes := quizzes s';
            store_submissions := store_submissions s';
            expired_quizzes := expired_quizzes s';
            expiry_time := expiry_time s';
            last_cleanup := current_time;
            cleanup_interval := cleanup_interval s' |}
    else s in
  let quiz :=
    {| questions := qs;
       quiz_type := qtype;
       created_by := by_;
       submissions := [];
       created_at := created_now clock;
       expires_at := expires_now clock + expiry_time s1;
       total_attempts := 0;
       average_score := 0%Q |} in
  ({| quizzes := <[quiz_code := quiz]> (quizzes s1);
      store_submissions := store_submissions s1;
      expired_quizzes := expired_quizzes s1;
      expiry_time := expiry_time s1;
      last_cleanup := last_cleanup s1;
      cleanup_interval := cleanup_interval s1 |}, quiz_code).

Definition get_quiz (s : t) (now : Z) (quiz_code : string) : option Quiz :=
  match quizzes s !! quiz_code with
  | Some quiz =>
      if bool_decide (now < expires_at quiz)%Z then Some quiz else None
  | None => None
  end.

(** What the specification says of the quiz under [quiz_code]: [get_quiz]
    returns it at every instant before [created_at + 24h] and finds nothing
    from that instant on. *)
Definition expires_24h_after_creation (s : t) (quiz_code : string) : Prop :=
  ∃ quiz,
    quizzes s !! quiz_code = Some quiz ∧
    ∀ now : Z,
      ((now < created_at quiz + 24 * microseconds_per_hour)%Z →
         get_quiz s now quiz_code = Some quiz) ∧
      ((created_at quiz + 24 * microseconds_per_hour <= now)%Z →
         get_quiz s now quiz_code = None).

Definition get_expired_quiz (s : t) (quiz_code : string) : option Quiz :=
  match expired_quizzes s !! quiz_code with
  | Some stored => stored
  | None => None
  end.

(** [q['correct_answer']] for every question paired with an answer by
    [zip]; the first question without the key raises [KeyError]. *)
Fixpoint correct_answers (qs : list Question) (answers : list string)
    : exn + list (string * string) :=
  match qs, answers with
  | q :: qs', a :: answers' =>
      match q_correct_answer q with
      | None => inl (KeyError "correct_answer")
      | Some c =>
          match correct_answers qs' answers' with
          | inl e => inl e
          | inr rest => inr ((c, a) :: rest)
          end
      end
  | _, _ => inr []
  end.

Definition is_correct (ca : string * string) : bool :=
  bool_decide (PyStr.lower ca.2 = PyStr.lower ca.1).

Definition feedback_of (i : nat) (ca : string * string) : Feedback :=
  {| fb_question_num := i + 1;
     fb_correct := is_correct ca;
     fb_student_answer := ca.2;
     fb_correct_answer := ca.1 |}.

Definition score_percentage_of (correct_count n : nat) : Q :=
  ((inject_Z (Z.of_nat correct_count) / inject_Z (Z.of_nat n)) * 100)%Q.

Definition AnswerCountMismatchError : exn :=
  ValueError "Number of answers does not match number of questions".
Definition QuizNotFoundError : exn := ValueError "Quiz not found".

Definition record_submission (s : t) (quiz_code : string) (quiz : Quiz)
    (submission : Submission) : t * Quiz :=
  let quiz1 :=
    {| questions := questions quiz;
       quiz_type := quiz_type quiz;
       created_by := created_by quiz;
       submissions := submissions quiz ++ [submission];
       created_at := created_at quiz;
       expires_at := expires_at quiz;
       total_attempts := total_attempts quiz;
       average_score := average_score quiz |} in
  ({| quizzes := <[quiz_code := quiz1]> (quizzes s);
      store_submissions :=
        <[quiz_code :=
            default [] (store_submissions s !! quiz_code) ++ [submission]]>
          (store_submissions s);
      expired_quizzes := expired_quizzes s;
      expiry_time := expiry_time s;
      last_cleanup := last_cleanup s;
      cleanup_interval := cleanup_interval s |}, quiz1).

Definition update_statistics (s : t) (quiz_code : string) (quiz : Quiz)
    (score_percentage : Q) : t :=
  let attempts := (total_attempts quiz + 1)%Z in
  let quiz2 :=
    {| questions := questions quiz;
       quiz_type := quiz_type quiz;
       created_by := created_by quiz;
       submissions := submissions quiz;
       created_at := created_at quiz;
       expires_at := expires_at quiz;
       total_attempts := attempts;
       average_score :=
         ((average_score quiz * inject_Z (attempts - 1) + score_percentage)
          / inject_Z attempts)%Q |} in
  {| quizzes := <[quiz_code := quiz2]> (quizzes s);
     store_submissions := store_submissions s;
     expired_quizzes := expired_quizzes s;
     expiry_time := expiry_time s;
     last_cleanup := last_cleanup s;
     cleanup_interval := cleanup_interval s |}.

(** [submit_quiz]: the store after the call, and the exception raised or
    the response returned. *)
Definition submit_quiz (s : t) (now : Z) (quiz_code student_name : string)
    (answers : list string) : t * (exn + Response) :=
  match get_quiz s now quiz_code with
  | None => (s, inl QuizNotFoundError)
  | Some quiz =>
      let submission :=
        {| sub_student_name := student_name;
           sub_answers := answers;
           sub_timestamp := now |} in
      let '(s1, quiz1) := record_submission s quiz_code quiz submission in
      let qs := questions quiz1 in
      if negb (bool_decide (length answers = length qs))
      then (s1, inl AnswerCountMismatchError)
      else
        match correct_answers qs answers with
        | inl e => (s1, inl e)
        | inr pairs =>
            let correct_count := length (filter (fun ca => is_correct ca) pairs) in
            match qs with
            | [] => (s1, inl ZeroDivisionError)
            | _ =>
                let score_percentage :=
                  score_percentage_of correct_count (length qs) in
                let response :=
                  {| r_student_name := student_name;
                     r_submission_time := sub_timestamp submission;
                     r_score := correct_count;
                     r_score_percentage := score_percentage;
                     r_total_questions := length qs;
                     r_answers := answers;
                     r_feedback := imap feedback_of pairs |} in
                (update_statistics s1 quiz_code quiz1 score_percentage,
                 inr response)
            end
        end
  end.

(** [get_quiz_responses] *)
Definition get_quiz_responses (s : t) (quiz_code : string)
    : list Submission :=
  default [] (store_submissions s !! quiz_code).

(** A run of [submit_quiz] calls on one code, each at its own clock
    reading, that stops at the first call that raises. *)
Fixpoint submit_all (s : t) (quiz_code : string)
    (calls : list (Z * string * list string)) : option (t * list Response) :=
  match calls with
  | [] => Some (s, [])
  | (now, student_name, answers) :: calls' =>
      match submit_quiz s now quiz_code student_name answers with
      | (s', inr r) =>
          match submit_all s' quiz_code calls' with
          | Some (s'', rs) => Some (s'', r :: rs)
          | None => None
          end
      | (_, inl _) => None
      end
  end.

(** The mean of a list of score percentages, in exact arithmetic. *)
Definition sum_Q (l : list Q) : Q := foldr Qplus 0%Q l.
Definition mean (l : list Q) : Q :=
  (sum_Q l / inject_Z (Z.of_nat (length l)))%Q.

(** *** [get_quiz_stats] *)

(** One entry of the [submissions] list of the statistics. *)
Record DetailedSubmission : Type := mkDetailedSubmission {
  ds_student_name : string;
  ds_score : nat;
  ds_total : nat;
  ds_percentage : Q;
  ds_timestamp : Z
}.

Record Stats : Type := mkStats {
  st_total_attempts : nat;
  st_average_score : Q;
  st_highest_score : Q;
  st_lowest_score : Q;
  st_submissions : list DetailedSubmission
}.

(** [sum(scores)]: from [0], left to right. *)
Definition py_sum (l : list Q) : Q := foldl Qplus 0%Q l.

(** [max(scores)] and [min(scores)]: the first of the greatest, of the
    least. *)
Definition py_max (l : list Q) : Q :=
  match l with
  | [] => 0%Q
  | x :: l' => foldl (fun m y => if Qle_bool y m then m else y) x l'
  end.
Definition py_min (l : list Q) : Q :=
  match l with
  | [] => 0%Q
  | x :: l' => foldl (fun m y => if Qle_bool m y then m else y) x l'
  end.

(** The loop over the stored submissions: the number of right answers and
    the percentage of each, or the first exception. *)
Fixpoint score_submissions (qs : list Question) (subs : list Submission)
    : exn + list (Submission * nat * Q) :=
  match subs with
  | [] => inr []
  | submission :: rest =>
      match correct_answers qs (sub_answers submission) with
      | inl e => inl e
      | inr pairs =>
          let correct := length (filter (fun ca => is_correct ca) pairs) in
          match qs with
          | [] => inl ZeroDivisionError
          | _ =>
              match score_submissions qs rest with
              | inl e => inl e
              | inr more =>
                  inr ((submission, correct,
                        score_percentage_of correct (length qs)) :: more)
              end
          end
      end
  end.

Definition detailed (round1 : Q -> Q) (total : nat)
    (scored : Submission * nat * Q) : DetailedSubmission :=
  {| ds_student_name := sub_student_name scored.1.1;
     ds_score := scored.1.2;
     ds_total := total;
     ds_percentage := round1 scored.2;
     ds_timestamp := sub_timestamp scored.1.1 |}.

(** [get_quiz_stats]. [round1] stands for [round(x, 1)], which Python
    computes on floating-point numbers. *)
Definition get_quiz_stats (round1 : Q -> Q) (s : t) (now : Z)
    (quiz_code : string) : exn + option Stats :=
  match get_quiz s now quiz_code with
  | None => inr None
  | Some quiz =>
      let subs := default [] (store_submissions s !! quiz_code) in
      match subs with
      | [] =>
          inr (Some {| st_total_attempts := 0;
                       st_average_score := 0%Q;
                       st_highest_score := 0%Q;
                       st_lowest_score := 0%Q;
                       st_submissions := [] |})
      | _ =>
          match score_submissions (questions quiz) subs with
          | inl e => inl e
          | inr scored =>
              let scores := scored.*2 in
              inr (Some
                {| st_total_attempts := length subs;
                   st_average_score :=
                     round1 (py_sum scores
                             / inject_Z (Z.of_nat (length scores)))%Q;
                   st_highest_score := round1 (py_max scores);
                   st_lowest_score := round1 (py_min scores);
                   st_submissions :=
                     detailed round1 (length (questions quiz)) <$> scored |})
          end
      end
  end.

(** *** [generate_unique_code] *)

(** [self.code_prefix], set by [__init__] and assigned nowhere else. *)
Definition code_prefix : string := "QZ".

Definition ascii_uppercase : list ascii :=
  (fun n => ascii_of_nat (65 + n)) <$> seq 0 26.
Definition digits : list ascii :=
  (fun n => ascii_of_nat (48 + n)) <$> seq 0 10.

(** [''.join(chars)] *)
Definition string_of_chars (chars : list ascii) : string :=
  foldr String EmptyString chars.

(** [f"{n:02d}"] for [0 <= n < 100]. *)
Definition two_digits (n : nat) : string :=
  String (ascii_of_nat (48 + n / 10))
    (String (ascii_of_nat (48 + n mod 10)) EmptyString).

(** The [while code in self.quizzes] loop: the last character gives way to
    a random upper-case letter. *)
Fixpoint respin (fuel : nat) (s : t) (code : string) : PyRandom.M string :=
  match quizzes s !! code with
  | None => PyRandom.ret code
  | Some _ =>
      match fuel with
      | O => PyRandom.starve
      | S fuel' =>
          PyRandom.bind (PyRandom.choice ascii_uppercase) (fun c =>
            respin fuel' s
              (PyStr.take_chars (String.length code - 1) code
                 +:+ String c EmptyString))
      end
  end.

(** [generate_unique_code], at clock reading [now] (in microseconds). *)
Definition generate_unique_code (s : t) (now : Z) : PyRandom.M string :=
  let timestamp := (now / 1000)%Z in
  PyRandom.bind (PyRandom.choices (digits ++ ascii_uppercase) 4)
    (fun random_part =>
       let code :=
         code_prefix +:+ string_of_chars random_part
           +:+ two_digits (Z.to_nat (timestamp mod 100)) in
       PyRandom.bind PyRandom.remaining (fun fuel => respin fuel s code)).

End QuizStore.

(** ** Lists: the list operations the code calls *)

Module PyList.

(** [l[:k]] for an integer [k]: a negative [k] counts from the end. *)
Definition slice_to {A} (k : Z) (l : list A) : list A :=
  take (Z.to_nat (if bool_decide (k < 0)%Z then Z.of_nat (length l) + k else k)) l.

(** [list(dict.fromkeys(l))]: the first occurrence of each entry, in
    order; [seen] holds the entries met so far. *)
Fixpoint fromkeys_go (seen : list string) (l : list string) : list string :=
  match l with
  | [] => []
  | x :: l' =>
      if bool_decide (x ∈ seen) then fromkeys_go seen l'
      else x :: fromkeys_go (x :: seen) l'
  end.
Definition fromkeys (l : list string) : list string := fromkeys_go [] l.

(** [l.index(x)]: the first position of [x], [None] for [ValueError]. *)
Fixpoint index (x : string) (l : list string) : option nat :=
  match l with
  | [] => None
  | y :: l' => if bool_decide (y = x) then Some 0 else S <$> index x l'
  end.

(** [enumerate(l)] *)
Definition enumerate {A} (l : list A) : list (nat * A) := imap pair l.

End PyList.

(** ** quiz_generator.py *)

Module QuizGenerator.
Import PyRandom PyList.
Local Open Scope rand_scope.

(** The services the module calls and does not define: the NLTK
    tokenizers, tagger and stop-word list, [os.path.splitext], and the
    PyPDF2 and python-docx readers (which raise or give the text). The NLTK
    services are functions: an installation without its corpora, where they
    raise, is not modelled. *)
Record Env : Type := mkEnv {
  sent_tokenize : string -> list string;
  word_tokenize : string -> list string;
  pos_tag : list string -> list (string * string);
  stopwords_english : list string;
  splitext_ext : string -> string;
  extract_text_from_pdf : string -> exn + string;
  extract_text_from_docx : string -> exn + string
}.

Definition blank : string := "_____".

Section WithEnv.
Context (env : Env).

Definition extract_text (file_path : string) : exn + string :=
  let file_extension := PyStr.lower (splitext_ext env file_path) in
  if bool_decide (file_extension = ".pdf")
  then extract_text_from_pdf env file_path
  else if bool_decide (file_extension ∈ [".docx"; ".doc"])
  then extract_text_from_docx env file_path
  else inl (ValueError ("Unsupported file type: " +:+ file_extension)).

(** The condition of the [important_words] comprehensions. *)
Definition important (used_answers : gset string) (word tag : string)
    : bool :=
  (PyStr.startswith tag "NN" || PyStr.startswith tag "VB"
   || PyStr.startswith tag "JJ")
  && negb (bool_decide (PyStr.lower word ∈ stopwords_english env))
  && negb (bool_decide (PyStr.lower word ∈ used_answers))
  && bool_decide (3 < String.length word).

Definition generic_options (tag_prefix : string) : list string :=
  if bool_decide (tag_prefix = "NN")
  then ["object"; "item"; "thing"; "element"; "part"; "system"; "component"]
  else if bool_decide (tag_prefix = "VB")
  then ["make"; "take"; "give"; "find"; "show"; "create"; "perform"]
  else if bool_decide (tag_prefix = "JJ")
  then ["good"; "new"; "first"; "last"; "long"; "important"; "different"]
  else ["object"; "item"; "thing"; "element"; "part"; "system"; "component"].

(** [while len(options) < 4:] draw a generic option and append it when it
    is not among the options yet. *)
Fixpoint add_generic (fuel : nat) (tag_prefix : string)
    (options : list string) : M (list string) :=
  if bool_decide (length options < 4) then
    match fuel with
    | O => starve
    | S fuel' =>
        let* generic := choice (generic_options tag_prefix) in
        if bool_decide (generic ∈ options)
        then add_generic fuel' tag_prefix options
        else add_generic fuel' tag_prefix (options ++ [generic])
    end
  else ret options.

Definition similar_words (tagged : list (string * string))
    (word_to_replace tag : string) : list string :=
  (filter (fun wt => bool_decide (wt.2 = tag ∧ wt.1 ≠ word_to_replace))
          tagged).*1.

(** The options start with the answer, then up to two words of the
    sentence with the same tag. *)
Definition initial_options (tagged : list (string * string))
    (word_to_replace tag : string) : M (list string) :=
  let options := [word_to_replace] in
  let similar := similar_words tagged word_to_replace tag in
  match similar with
  | [] => ret options
  | _ =>
      let* picked := sample similar (Z.of_nat (2 `min` length similar)) in
      ret (options ++ picked)
  end.

(** The body of the MCQ branch of [generate_quiz] once the word is
    chosen: the question for [sentence] with [word_to_replace] as the
    answer. *)
Definition mcq_question (sentence : string)
    (tagged : list (string * string)) (word_to_replace tag : string)
    : M Question :=
  let question_text :=
    "What is the correct word in: '"
      +:+ PyStr.replace word_to_replace blank sentence +:+ "'" in
  let* options := initial_options tagged word_to_replace tag in
  let tag_prefix := PyStr.take_chars 2 tag in
  let* fuel := remaining in
  let* options := add_generic fuel tag_prefix options in
  let options := take 4 (fromkeys options) in
  let* fuel := remaining in
  let* options := add_generic fuel tag_prefix options in
  let correct_answer := word_to_replace in
  let* options := shuffle options in
  match index correct_answer options with
  | None => raise (ValueError (correct_answer +:+ " is not in list"))
  | Some correct_index =>
      ret {| q_question := question_text;
             q_type := "mcq";
             q_options := Some options;
             q_correct := Some correct_index;
             q_correct_answer := None |}
  end.

(** The [for sentence in sentences[:num_questions * 2]] loop. *)
Fixpoint mcq_loop (num_questions : Z) (sentences : list string)
    (questions : list Question) (used_answers : gset string)
    : M (list Question) :=
  match sentences with
  | [] => ret questions
  | sentence :: rest =>
      let words := word_tokenize env sentence in
      let tagged := pos_tag env words in
      let important_words :=
        filter (fun wt => important used_answers wt.1 wt.2) tagged in
      match important_words with
      | [] => mcq_loop num_questions rest questions used_answers
      | _ =>
          let* '(word_to_replace, tag) := choice important_words in
          if bool_decide (PyStr.lower word_to_replace ∈ used_answers)
          then mcq_loop num_questions rest questions used_answers
          else
            let* q := mcq_question sentence tagged word_to_replace tag in
            let used_answers' :=
              {[PyStr.lower word_to_replace]} ∪ used_answers in
            let questions' := questions ++ [q] in
            if bool_decide (num_questions <= Z.of_nat (length questions'))%Z
            then ret questions'
            else mcq_loop num_questions rest questions' used_answers'
      end
  end.

(** The [for sentence in sentences] loop of the true/false branch. *)
Fixpoint true_false_loop (sentences : list string)
    (questions : list Question) : M (list Question) :=
  match sentences with
  | [] => ret questions
  | sentence :: rest =>
      let* correct := choice [true; false] in
      let* sentence' :=
        (if negb correct then
           let words := PyStr.split sentence in
           if bool_decide (3 < length words) then
             let* pos := randint 0 (length words - 1) in
             let* w := choice ["not"; "never"; "rarely"; "hardly"] in
             ret (PyStr.join " " (<[pos:=w]> words))
           else ret sentence
         else ret sentence) in
      true_false_loop rest
        (questions ++
           [{| q_question := sentence';
               q_type := "true_false";
               q_options := None;
               q_correct := Some (if correct then 0 else 1);
               q_correct_answer := None |}])
  end.

(** The words a fill-in-blank answer is drawn from, with their
    positions. *)
Definition fill_blanks_important (tagged : list (string * string))
    (used_answers : gset string) : list (string * nat) :=
  (fun iwt => (iwt.2.1, iwt.1)) <$>
    filter (fun iwt : nat * (string * string) =>
              important used_answers iwt.2.1 iwt.2.2)
           (enumerate tagged).

(** The body of the loop of [generate_fill_blanks] for one sentence. *)
Definition fill_blanks_body (sentence : string)
    (questions : list Question) (used_answers : gset string)
    : M (list Question * gset string) :=
  let words := word_tokenize env sentence in
  let tagged := pos_tag env words in
  let important_words := fill_blanks_important tagged used_answers in
  match important_words with
  | [] => ret (questions, used_answers)
  | _ =>
      let* '(word, _) := choice important_words in
      if bool_decide (PyStr.lower word ∈ used_answers)
      then ret (questions, used_answers)
      else
        let blank_sentence := PyStr.replace_first word blank sentence in
        ret (questions ++
               [{| q_question := blank_sentence;
                   q_type := "fill_blanks";
                   q_options := Some [word];
                   q_correct := Some 0;
                   q_correct_answer := None |}],
             {[PyStr.lower word]} ∪ used_answers)
  end.

Fixpoint fill_blanks_loop (num_questions : Z) (sentences : list string)
    (questions : list Question) (used_answers : gset string)
    : M (list Question) :=
  match sentences with
  | [] => ret questions
  | sentence :: rest =>
      if bool_decide (num_questions <= Z.of_nat (length questions))%Z
      then ret questions
      else
        let* '(questions', used_answers') :=
          fill_blanks_body sentence questions used_answers in
        fill_blanks_loop num_questions rest questions' used_answers'
  end.

Definition generate_fill_blanks (text : string) (num_questions : Z)
    : M (list Question) :=
  fill_blanks_loop num_questions (sent_tokenize env text) [] ∅.

Definition generate_quiz (file_path : string) (num_questions : Z)
    (quiz_type : string) : M (list Question) :=
  match extract_text file_path with
  | inl e => raise e
  | inr text =>
      if bool_decide (quiz_type = "mcq") then
        mcq_loop num_questions
          (slice_to (num_questions * 2) (sent_tokenize env text)) [] ∅
      else if bool_decide (quiz_type = "true_false") then
        true_false_loop (slice_to num_questions (sent_tokenize env text)) []
      else if bool_decide (quiz_type = "fill_blanks") then
        generate_fill_blanks text num_questions
      else raise (ValueError ("Unsupported quiz type: " +:+ quiz_type))
  end.

(** The [while len(options) < 4:] loop of [process_sentence]: append a
    generic word for the tag, then drop the duplicates. *)
Fixpoint pad_options (fuel : nat) (tag : string) (options : list string)
    : M (list string) :=
  if bool_decide (length options < 4) then
    match fuel with
    | O => starve
    | S fuel' =>
        let* options1 :=
          (if PyStr.startswith tag "NN" then
             let* g := choice ["object"; "item"; "thing"; "element"; "part"] in
             ret (options ++ [g])
           else if PyStr.startswith tag "VB" then
             let* g := choice ["make"; "take"; "give"; "find"; "show"] in
             ret (options ++ [g])
           else if PyStr.startswith tag "JJ" then
             let* g := choice ["good"; "new"; "first"; "last"; "long"] in
             ret (options ++ [g])
           else ret options) in
        pad_options fuel' tag (fromkeys options1)
    end
  else ret options.

Definition process_sentence (sentence : string) (used_words : gset string)
    : M (option Question) :=
  let words := word_tokenize env sentence in
  let tagged := pos_tag env words in
  let important_words :=
    filter (fun wt => important used_words wt.1 wt.2) tagged in
  match important_words with
  | [] => ret None
  | _ =>
      let* '(word_to_replace, tag) := choice important_words in
      let question_text :=
        "What is the correct word in: '"
          +:+ PyStr.replace word_to_replace blank sentence +:+ "'" in
      let* options := initial_options tagged word_to_replace tag in
      let* fuel := remaining in
      let* options := pad_options fuel tag options in
      let* options := shuffle options in
      match index word_to_replace options with
      | None => raise (ValueError (word_to_replace +:+ " is not in list"))
      | Some correct_index =>
          ret (Some {| q_question := question_text;
                       q_type := "mcq";
                       q_options := Some (take 4 options);
                       q_correct := Some correct_index;
                       q_correct_answer := Some word_to_replace |})
      end
  end.

End WithEnv.

(** *** What the properties below say about a question *)

(** The word the [correct] index of a question points at. *)
Definition correct_word (q : Question) : option string :=
  match q_options q, q_correct q with
  | Some options, Some i => options !! i
  | _, _ => None
  end.

(** [q] asks for [word], taken out of [sentence], among four distinct
    options. *)
Definition is_mcq_question (sentence word : string) (q : Question) : Prop :=
  q_question q =
    "What is the correct word in: '"
      +:+ PyStr.replace word blank sentence +:+ "'" ∧
  q_type q = "mcq" ∧
  ∃ options correct,
    q_options q = Some options ∧
    q_correct q = Some correct ∧
    length options = 4 ∧
    NoDup options ∧
    correct < 4 ∧
    options !! correct = Some word.

(** [q] is an MCQ question for a word that the tagger found in one of the
    sentences [all]. *)
Definition mcq_from (env : Env) (all : list string) (q : Question)
    (word : string) : Prop :=
  ∃ sentence tag,
    sentence ∈ all ∧
    (word, tag) ∈ pos_tag env (word_tokenize env sentence) ∧
    is_mcq_question sentence word q.

(** The fill-in-blank question for [word] in [sentence]. *)
Definition fill_blank_question (sentence word : string) : Question :=
  {| q_question := PyStr.replace_first word blank sentence;
     q_type := "fill_blanks";
     q_options := Some [word];
     q_correct := Some 0;
     q_correct_answer := None |}.

Definition fill_blank_from (env : Env) (all : list string) (q : Question)
    (word : string) : Prop :=
  ∃ sentence tag,
    sentence ∈ all ∧
    (word, tag) ∈ pos_tag env (word_tokenize env sentence) ∧
    q = fill_blank_question sentence word.

(** The eligible words of a sentence, in the order of the sentence. *)
Definition eligible (env : Env) (sentence : string)
    (used_answers : gset string) : list (string * nat) :=
  fill_blanks_important env (pos_tag env (word_tokenize env sentence))
    used_answers.

Definition first_eligible (env : Env) (sentence : string)
    (used_answers : gset string) : option string :=
  fst <$> head (eligible env sentence used_answers).

(** The reading of the fill-in-blank strategy under which the first eligible
    word of the sentence is the one taken, at one input. *)
Definition selects_first_eligible (env : Env) (sentence : string)
    (questions : list Question) (used_answers : gset string) (t : Tape)
    : Prop :=
  ∀ word,
    first_eligible env sentence used_answers = Some word →
    ∃ t',
      fill_blanks_body env sentence questions used_answers t =
      Ret (questions ++ [fill_blank_question sentence word],
           {[PyStr.lower word]} ∪ used_answers) t'.

(** The reading of the failure policy under which [generate_quiz] raises when
    the text has fewer sentences than questions are asked for, at one input. *)
Definition fails_on_short_text (env : Env) (file_path : string)
    (num_questions : Z) (quiz_type : string) (t : Tape) : Prop :=
  ∀ text,
    extract_text env file_path = inr text →
    (Z.of_nat (length (sent_tokenize env text)) < num_questions)%Z →
    ∃ e t', generate_quiz env file_path num_questions quiz_type t = Raise e t'.

(** [word] has an occurrence in [sentence] after [pre], and none that
    starts earlier. *)
Definition leftmost_occurrence (word pre post sentence : string) : Prop :=
  sentence = pre +:+ word +:+ post ∧
  ∀ k, k < String.length pre →
       String.prefix word (PyStr.drop_chars k sentence) = false.

(** *** [clean_text] and [generate_true_false_questions] *)

Fixpoint filter_chars (p : ascii -> bool) (s : string) : string :=
  match s with
  | EmptyString => EmptyString
  | String c s' =>
      if p c then String c (filter_chars p s') else filter_chars p s'
  end.

(** [char.isalnum() or char.isspace() or char in '.,!?'] *)
Definition kept_char (c : ascii) : bool :=
  PyStr.is_upper c || PyStr.is_lower c || PyStr.is_digit c
  || Ascii.is_space c
  || bool_decide (c ∈ ["."%char; ","%char; "!"%char; "?"%char]).

Definition clean_text (text : string) : string :=
  let text := PyStr.join " " (PyStr.split text) in
  filter_chars kept_char text.

(** The characters on which the character classes above are those of
    Python's [str]: printable ASCII and the white space [\t\n\v\f\r]. *)
Definition plain_char (c : ascii) : bool :=
  let n := nat_of_ascii c in
  ((32 <=? n) && (n <=? 126)) || Ascii.is_space c.

(** What [clean_text] lets through. *)
Definition clean_char (c : ascii) : bool :=
  PyStr.is_upper c || PyStr.is_lower c || PyStr.is_digit c
  || bool_decide (c = " "%char)
  || bool_decide (c ∈ ["."%char; ","%char; "!"%char; "?"%char]).

Definition antonyms : list (string * string) :=
  [("good", "bad"); ("bad", "good");
   ("high", "low"); ("low", "high");
   ("large", "small"); ("small", "large");
   ("fast", "slow"); ("slow", "fast");
   ("early", "late"); ("late", "early");
   ("hot", "cold"); ("cold", "hot");
   ("new", "old"); ("old", "new");
   ("right", "wrong"); ("wrong", "right")].

(** [antonyms[key]], [None] when the key is missing. *)
Fixpoint antonym_of (key : string) (table : list (string * string))
    : option string :=
  match table with
  | [] => None
  | (k, v) :: table' =>
      if bool_decide (k = key) then Some v else antonym_of key table'
  end.

(** The [for i, (word, tag) in enumerate(tagged)] loop: the first adjective,
    adverb or verb that has an antonym is replaced, wherever it occurs. *)
Fixpoint falsify (tagged : list (string * string)) (modified : string)
    : string :=
  match tagged with
  | [] => modified
  | (word, tag) :: rest =>
      if PyStr.startswith tag "JJ" || PyStr.startswith tag "RB"
         || PyStr.startswith tag "VB"
      then match antonym_of (PyStr.lower word) antonyms with
           | Some antonym => PyStr.replace word antonym modified
           | None => falsify rest modified
           end
      else falsify rest modified
  end.

Section TrueFalse.
Context (env : Env).
Local Open Scope rand_scope.

Fixpoint true_false_questions_loop (num_questions : Z)
    (sentences : list string) (questions : list Question)
    : M (list Question) :=
  match sentences with
  | [] => ret questions
  | sentence :: rest =>
      let words := word_tokenize env sentence in
      let tagged := pos_tag env words in
      let* correct_answer := choice [true; false] in
      let modified :=
        if negb correct_answer then falsify tagged sentence else sentence in
      let questions :=
        questions ++
          [{| q_question := modified;
              q_type := "true_false";
              q_options := None;
              q_correct := Some (if correct_answer then 0 else 1);
              q_correct_answer := None |}] in
      if bool_decide (num_questions <= Z.of_nat (length questions))%Z
      then ret questions
      else true_false_questions_loop num_questions rest questions
  end.

Definition generate_true_false_questions (text : string) (num_questions : Z)
    : M (list Question) :=
  true_false_questions_loop num_questions
    (slice_to num_questions (sent_tokenize env text)) [].

End TrueFalse.

(** What a true/false question of [generate_quiz] is for its sentence: the
    sentence itself when labelled true (index 0) or when it has at most
    three words; otherwise the sentence with one word replaced by a
    negation. *)
Definition true_false_of (sentence : string) (q : Question) : Prop :=
  q_type q = "true_false" ∧ q_options q = None ∧ q_correct_answer q = None ∧
  ((q_correct q = Some 0 ∧ q_question q = sentence) ∨
   (q_correct q = Some 1 ∧
    (length (PyStr.split sentence) ≤ 3 → q_question q = sentence) ∧
    (3 < length (PyStr.split sentence) →
     ∃ pos w,
       pos < length (PyStr.split sentence) ∧
       w ∈ ["not"; "never"; "rarely"; "hardly"] ∧
       q_question q = PyStr.join " " (<[pos:=w]> (PyStr.split sentence))))).

(** What a question of [generate_true_false_questions] is for its sentence:
    the sentence itself when labelled true, the sentence after [falsify]
    when labelled false. *)
Definition antonym_question_of (env : Env) (sentence : string)
    (q : Question) : Prop :=
  q_type q = "true_false" ∧ q_options q = None ∧ q_correct_answer q = None ∧
  ((q_correct q = Some 0 ∧ q_question q = sentence) ∨
   (q_correct q = Some 1 ∧
    q_question q =
      falsify (pos_tag env (word_tokenize env sentence)) sentence)).

(** A word that [falsify] would replace. *)
Definition has_antonym (wt : string * string) : bool :=
  (PyStr.startswith wt.2 "JJ" || PyStr.startswith wt.2 "RB"
   || PyStr.startswith wt.2 "VB")
  && bool_decide (is_Some (antonym_of (PyStr.lower wt.1) antonyms)).

End QuizGenerator.

(** [str(e)] for the exceptions of the model. *)
Definition exn_str (e : exn) : string :=
  match e with
  | ValueError msg => msg
  | KeyError key => "'" +:+ key +:+ "'"
  | IndexError msg => msg
  | ZeroDivisionError => "division by zero"
  | Exception msg => msg
  end.

Definition not_enough_content : string :=
  "Not enough content to generate requested number of questions".

(** ** objective.py *)

Module ObjectiveTest.
Import PyRandom PyList.
Local Open Scope rand_scope.

(** The NLTK services and the two [transformers] pipelines: the
    text-to-text generator gives the generated text for a prompt, the
    question-answering pipeline the answer for a question and a context. *)
Record Env : Type := mkEnv {
  sent_tokenize : string -> list string;
  word_tokenize : string -> list string;
  stopwords_english : list string;
  generator : string -> string;
  qa_pipeline : string -> string -> string
}.

Section WithEnv.
Context (env : Env).

Definition meaningful (sent : string) : bool :=
  let words := word_tokenize env (PyStr.lower sent) in
  let words := filter (fun w => PyStr.isalnum w) words in
  if bool_decide (8 < length words) then
    let content_words :=
      filter (fun w => negb (bool_decide (w ∈ stopwords_english env))) words in
    bool_decide (5 < length content_words)
  else false.

Definition preprocess_text (text : string) : list string :=
  filter (fun sent => meaningful sent) (sent_tokenize env text).

Definition fallback_distractors (answer : string) : list string :=
  ["Not " +:+ answer; "None of the above"; "All of the above"].

(** [generate_distractors]. The iteration order of the [set] is not
    fixed by Python; the model lists the words in order of first
    occurrence before they are sampled. *)
Definition generate_distractors (answer context : string)
    : M (list string) :=
  try_except
    (let words := word_tokenize env (PyStr.lower context) in
     let words :=
       filter (fun w => PyStr.isalnum w
                        && negb (bool_decide (w ∈ stopwords_english env)))
              words in
     let distractors :=
       fromkeys
         (PyStr.capitalize <$>
            filter (fun w => negb (PyStr.contains w (PyStr.lower answer))
                             && bool_decide (3 < String.length w))
                   words) in
     if bool_decide (3 <= length distractors)
     then sample distractors 3
     else ret (fallback_distractors answer))
    (fun _ => ret (fallback_distractors answer)).

(** [chr(65 + i)] *)
Definition option_letter (i : nat) : string :=
  String (ascii_of_nat (65 + i)) EmptyString.

Definition format_question (question : string) (options : list string)
    : string :=
  foldl (fun acc io => acc +:+ option_letter io.1 +:+ ") " +:+ io.2
                           +:+ String "010"%char EmptyString)
        (question +:+ String "010"%char EmptyString)
        (enumerate options).

(** One round of the loop of [generate_test]. *)
Definition question_for (context : string) : M (string * string) :=
  let prompt := "Generate a factual question about this text: " +:+ context in
  let question := generator env prompt in
  let correct_answer := qa_pipeline env question context in
  let* distractors := generate_distractors correct_answer context in
  let options := correct_answer :: distractors in
  let* options := shuffle options in
  match index correct_answer options with
  | None => raise (ValueError (correct_answer +:+ " is not in list"))
  | Some i =>
      ret (PyStr.strip (format_question question options), option_letter i)
  end.

Fixpoint questions_for (contexts : list string)
    : M (list string * list string) :=
  match contexts with
  | [] => ret ([], [])
  | context :: rest =>
      let* qa := question_for context in
      let* qas := questions_for rest in
      ret (qa.1 :: qas.1, qa.2 :: qas.2)
  end.

Definition generate_test (text : string) (num_questions : Z)
    : M (list string * list string) :=
  try_except
    (let meaningful_sentences := preprocess_text text in
     if bool_decide (Z.of_nat (length meaningful_sentences) < num_questions)%Z
     then raise (ValueError not_enough_content)
     else
       let* selected_sentences := sample meaningful_sentences num_questions in
       questions_for selected_sentences)
    (fun e => raise (Exception ("Error generating questions: " +:+ exn_str e))).

End WithEnv.

(** The failure the specification calls [InsufficientContentError]. *)
Definition InsufficientContentError : exn :=
  Exception ("Error generating questions: " +:+ not_enough_content).

(** What [generate_test] raises for a negative number of questions: the
    [ValueError] of [random.sample], wrapped. *)
Definition NegativeSampleError : exn :=
  Exception ("Error generating questions: "
               +:+ "Sample larger than population or is negative").

(** The letters an answer of [generate_test] can be. *)
Definition option_letters : list string := ["A"; "B"; "C"; "D"].

End ObjectiveTest.

(** ** subjective.py *)

Module SubjectiveTest.
Import PyRandom PyList.
Local Open Scope rand_scope.

Record Env : Type := mkEnv {
  sent_tokenize : string -> list string;
  generator : string -> string
}.

Section WithEnv.
Context (env : Env).

(** The grouping loop of [preprocess_text]: a paragraph is closed as soon
    as it holds three sentences. *)
Fixpoint group_sentences (sentences : list string)
    (paragraphs : list string) (current_para : list string)
    : list string * list string :=
  match sentences with
  | [] => (paragraphs, current_para)
  | sent :: rest =>
      let current_para := current_para ++ [sent] in
      if bool_decide (3 <= length current_para)
      then group_sentences rest (paragraphs ++ [PyStr.join " " current_para]) []
      else group_sentences rest paragraphs current_para
  end.

Definition preprocess_text (text : string) : list string :=
  let '(paragraphs, current_para) :=
    group_sentences (sent_tokenize env text) [] [] in
  match current_para with
  | [] => paragraphs
  | _ => paragraphs ++ [PyStr.join " " current_para]
  end.

Definition generate_question_types : list string :=
  ["Explain how"; "Describe why"; "Analyze the"; "Compare and contrast";
   "What are the implications of"; "Evaluate the importance of";
   "Discuss the relationship between";
   "What conclusions can be drawn about"; "How would you interpret";
   "What evidence supports"].

Fixpoint questions_for (num_questions : Z) (contexts : list string)
    (questions answers : list string) : M (list string * list string) :=
  match contexts with
  | [] => ret (questions, answers)
  | context :: rest =>
      let prompt :=
        "Generate a thought-provoking question about this text: " +:+ context in
      let question := generator env prompt in
      let* question_type := choice generate_question_types in
      let transformed_question :=
        question_type +:+ " " +:+ PyStr.lower question in
      let sample_answer := "Sample Answer: " +:+ context in
      let questions := questions ++ [transformed_question] in
      let answers := answers ++ [sample_answer] in
      if bool_decide (num_questions <= Z.of_nat (length questions))%Z
      then ret (questions, answers)
      else questions_for num_questions rest questions answers
  end.

Definition generate_test (text : string) (num_questions : Z)
    : M (list string * list string) :=
  try_except
    (let paragraphs := preprocess_text text in
     if bool_decide (Z.of_nat (length paragraphs) < num_questions)%Z
     then raise (ValueError not_enough_content)
     else
       let* selected_paragraphs := sample paragraphs num_questions in
       questions_for num_questions selected_paragraphs [] [])
    (fun e =>
       raise (Exception ("Error generating subjective questions: "
                           +:+ exn_str e))).

End WithEnv.

Definition InsufficientContentError : exn :=
  Exception ("Error generating subjective questions: " +:+ not_enough_content).

Definition NegativeSampleError : exn :=
  Exception ("Error generating subjective questions: "
               +:+ "Sample larger than population or is negative").

(** A question and its sample answer as [generate_test] builds them from
    one of the paragraphs: a question starter, a blank and the generated
    question in lower case; the paragraph after ["Sample Answer: "]. *)
Definition question_about (env : Env) (paragraphs : list string)
    (question answer : string) : Prop :=
  ∃ question_type paragraph,
    question_type ∈ generate_question_types ∧ paragraph ∈ paragraphs ∧
    question
    = question_type +:+ " "
      +:+ PyStr.lower
            (generator env
               ("Generate a thought-provoking question about this text: "
                  +:+ paragraph)) ∧
    answer = "Sample Answer: " +:+ paragraph.

End SubjectiveTest.

(** ** A small stand-in for the language services, for the examples *)

Module Sample.

Definition is_terminator (c : ascii) : bool :=
  match c with
  | "."%char | "!"%char | "?"%char => true
  | _ => false
  end.

(** Cuts the text after every [.], [!] or [?]; white space between
    sentences is dropped. *)
Fixpoint sentences_go (cur : string) (s : string) : list string :=
  match s with
  | EmptyString =>
      match cur with EmptyString => [] | _ => [String.rev cur] end
  | String c s' =>
      if is_terminator c then String.rev (String c cur) :: sentences_go EmptyString s'
      else match cur with
           | EmptyString =>
               if Ascii.is_space c then sentences_go EmptyString s'
               else sentences_go (String c EmptyString) s'
           | _ => sentences_go (String c cur) s'
           end
  end.
Definition sent_tokenize (text : string) : list string :=
  sentences_go EmptyString text.

(** Splits at white space and sets a final terminator apart. *)
Definition split_terminator (w : string) : list string :=
  match String.rev w with
  | String c (String d r) =>
      if is_terminator c
      then [String.rev (String d r); String c EmptyString]
      else [w]
  | _ => [w]
  end.
Definition word_tokenize (s : string) : list string :=
  PyStr.split s ≫= split_terminator.

Definition lexicon : list (string * string) :=
  [("the", "DT"); ("a", "DT"); ("an", "DT"); ("this", "DT");
   ("is", "VBZ"); ("are", "VBP"); ("was", "VBD");
   ("on", "IN"); ("in", "IN"); ("of", "IN"); ("over", "IN");
   ("and", "CC");
   ("quick", "JJ"); ("brown", "JJ"); ("lazy", "JJ"); ("large", "JJ");
   ("jumps", "VBZ"); ("chases", "VBZ"); ("sleeps", "VBZ");
   ("quickly", "RB")].

Fixpoint lookup_tag (w : string) (lex : list (string * string)) : option string :=
  match lex with
  | [] => None
  | (k, tg) :: lex' => if bool_decide (k = w) then Some tg else lookup_tag w lex'
  end.

Definition tag_of (w : string) : string :=
  match lookup_tag (PyStr.lower w) lexicon with
  | Some tg => tg
  | None => if PyStr.isalnum w then "NN" else "."
  end.

Definition pos_tag (words : list string) : list (string * string) :=
  (fun w => (w, tag_of w)) <$> words.

Definition stopwords_english : list string :=
  ["the"; "a"; "an"; "this"; "is"; "are"; "was"; "on"; "in"; "of"; "over";
   "and"].

(** The extension: what follows the last dot, with the dot. *)
Fixpoint ext_go (s : string) (acc : option string) : string :=
  match s with
  | EmptyString => default EmptyString acc
  | String c s' =>
      if bool_decide (c = "."%char) then ext_go s' (Some (String c s'))
      else ext_go s' acc
  end.
Definition splitext_ext (path : string) : string := ext_go path None.

(** A reader for which the document at a path holds the path's own
    characters up to the extension. *)
Definition read_document (path : string) : exn + string :=
  inr (PyStr.take_chars
         (String.length path - String.length (splitext_ext path)) path).

Definition generator_env : QuizGenerator.Env :=
  {| QuizGenerator.sent_tokenize := sent_tokenize;
     QuizGenerator.word_tokenize := word_tokenize;
     QuizGenerator.pos_tag := pos_tag;
     QuizGenerator.stopwords_english := stopwords_english;
     QuizGenerator.splitext_ext := splitext_ext;
     QuizGenerator.extract_text_from_pdf := read_document;
     QuizGenerator.extract_text_from_docx := read_document |}.

(** A generator that asks about the last word of its prompt, and an
    answerer that gives the last token of the context. *)
Definition ask (prompt : string) : string :=
  "What about " +:+ default EmptyString (last (PyStr.split prompt)) +:+ "?".
Definition answer (question context : string) : string :=
  default EmptyString (last (word_tokenize context)).

Definition objective_env : ObjectiveTest.Env :=
  {| ObjectiveTest.sent_tokenize := sent_tokenize;
     ObjectiveTest.word_tokenize := word_tokenize;
     ObjectiveTest.stopwords_english := stopwords_english;
     ObjectiveTest.generator := ask;
     ObjectiveTest.qa_pipeline := answer |}.

Definition subjective_env : SubjectiveTest.Env :=
  {| SubjectiveTest.sent_tokenize := sent_tokenize;
     SubjectiveTest.generator := ask |}.

(** A quiz of two questions, created at instant [0] in a new store. *)
Definition two_questions : list Question :=
  [ {| q_question := "The capital of France is _____.";
       q_type := "fill_blanks";
       q_options := Some ["Paris"];
       q_correct := Some 0;
       q_correct_answer := Some "Paris" |};
    {| q_question := "The _____ fox jumps.";
       q_type := "fill_blanks";
       q_options := Some ["quick"];
       q_correct := Some 0;
       q_correct_answer := Some "quick" |} ].

Definition store : QuizStore.t :=
  (QuizStore.create_quiz (QuizStore.init 0) (QuizStore.instant 0)
     "AB12CD34" two_questions "fill_blanks" "teacher").1.

Definition day : Z := 24 * QuizStore.microseconds_per_hour.
Definition minute : Z := 60 * 1000000.

(** The readings of a call one minute later, and of one three minutes
    later, a few microseconds apart. *)
Definition later : QuizStore.Clock :=
  {| QuizStore.time_time := minute;
     QuizStore.sweep_now := minute + 1;
     QuizStore.created_now := minute + 2;
     QuizStore.expires_now := minute + 5 |}.
Definition much_later : QuizStore.Clock :=
  {| QuizStore.time_time := 3 * minute;
     QuizStore.sweep_now := 3 * minute + 1;
     QuizStore.created_now := 3 * minute + 2;
     QuizStore.expires_now := 3 * minute + 5 |}.

(** A store whose quiz was created with the second reading of the clock
    three microseconds after the first. *)
Definition first_readings : QuizStore.Clock :=
  {| QuizStore.time_time := 0;
     QuizStore.sweep_now := 0;
     QuizStore.created_now := 2;
     QuizStore.expires_now := 5 |}.
Definition slow_store : QuizStore.t :=
  (QuizStore.create_quiz (QuizStore.init 0) first_readings
     "AB12CD34" two_questions "fill_blanks" "teacher").1.

(** Two submissions to it: both answers right, then one of two. *)
Definition calls : list (Z * string * list string) :=
  [ (minute, "Ann", ["paris"; "Quick"]);
    (2 * minute, "Bob", ["Paris"; "slow"]) ]%Z.

Definition sentence : string := "The quick fox jumps over the lazy dog.".

(** A document of three sentences and its path. *)
Definition text : string :=
  "The quick fox jumps over the lazy dog. A brown bear chases the large river salmon! Cats sleep".
Definition path : string := text +:+ ".pdf".

(** The path of a document of one sentence. *)
Definition short_path : string := "Cats sleep.pdf".

Definition tape : PyRandom.Tape :=
  [0; 1; 2; 3; 4; 5; 6; 7; 1; 2; 3; 4; 5; 6; 7; 8; 9; 10; 11; 12].

(** The record of that quiz. *)
Definition quiz : QuizStore.Quiz :=
  {| QuizStore.questions := two_questions;
     QuizStore.quiz_type := "fill_blanks";
     QuizStore.created_by := "teacher";
     QuizStore.submissions := [];
     QuizStore.created_at := 0;
     QuizStore.expires_at := day;
     QuizStore.total_attempts := 0;
     QuizStore.average_score := 0%Q |}.


(** The sample store after the two submissions, and its quiz. *)
Definition busy_store : QuizStore.t :=
  (default (store, []) (QuizStore.submit_all store "AB12CD34" calls)).1.
Definition busy_quiz : QuizStore.Quiz :=
  default quiz (QuizStore.quizzes busy_store !! "AB12CD34").

Definition busy_responses : list QuizStore.Response :=
  (default (store, []) (QuizStore.submit_all store "AB12CD34" calls)).2.


(** A quiz made of the questions an MCQ run gives for the sample document,
    and a store that holds it. *)
Definition generated_questions : list Question :=
  PyRandom.value_of []
    (QuizGenerator.generate_quiz generator_env path 2 "mcq" tape).
Definition generated_store : QuizStore.t :=
  (QuizStore.create_quiz (QuizStore.init 0) (QuizStore.instant 0)
     "GE00NE11" generated_questions "mcq" "teacher").1.

End Sample.

(** * Properties *)

(** ** The store *)

Section StoreFacts.
Import QuizStore.

Lemma elem_of_expired_codes (s : t) (now : Z) (code : string) :
  code ∈ expired_codes s now ↔
  ∃ quiz, quizzes s !! code = Some quiz ∧ (expires_at quiz <= now)%Z.
Proof.
  unfold expired_codes. rewrite list_elem_of_fmap. split.
  - intros [[c q] [-> Hin]].
    apply list_elem_of_filter in Hin as [Hexp Hin].
    apply elem_of_map_to_list in Hin.
    apply bool_decide_unpack in Hexp. eauto.
  - intros (q & Hq & Hexp). exists (code, q). split; [done|].
    apply list_elem_of_filter. split.
    + by apply bool_decide_pack.
    + by apply elem_of_map_to_list.
Qed.

Lemma bool_decide_elem_of_snoc (code c : string) (codes : list string) :
  bool_decide (code ∈ codes ++ [c]) =
  bool_decide (code ∈ codes) || bool_decide (code = c).
Proof.
  apply eq_true_iff_eq.
  rewrite orb_true_iff, !bool_decide_eq_true, elem_of_app.
  by rewrite list_elem_of_singleton.
Qed.

(** What the loop of the sweep leaves behind, code by code. *)
Lemma cleanup_codes_quizzes (codes : list string) (s : t) (code : string) :
  quizzes (foldl cleanup_code s codes) !! code =
  if bool_decide (code ∈ codes) then None else quizzes s !! code.
Proof.
  induction codes as [|c codes IH] using rev_ind.
  - by rewrite bool_decide_eq_false_2 by apply not_elem_of_nil.
  - rewrite foldl_app. simpl. rewrite lookup_delete, IH.
    rewrite bool_decide_elem_of_snoc.
    destruct (decide (c = code)) as [->|Hne].
    + by rewrite (bool_decide_eq_true_2 (code = code)), orb_true_r.
    + by rewrite (bool_decide_eq_false_2 (code = c)), orb_false_r.
Qed.

Lemma cleanup_codes_expired (codes : list string) (s : t) (code : string) :
  expired_quizzes (foldl cleanup_code s codes) !! code =
  if bool_decide (code ∈ codes) then Some None
  else expired_quizzes s !! code.
Proof.
  induction codes as [|c codes IH] using rev_ind.
  - by rewrite bool_decide_eq_false_2 by apply not_elem_of_nil.
  - rewrite foldl_app. simpl. rewrite lookup_insert, lookup_delete_eq, IH.
    rewrite bool_decide_elem_of_snoc.
    destruct (decide (c = code)) as [->|Hne].
    + by rewrite (bool_decide_eq_true_2 (code = code)), orb_true_r.
    + by rewrite (bool_decide_eq_false_2 (code = c)), orb_false_r.
Qed.

Lemma cleanup_codes_submissions (codes : list string) (s : t) (code : string) :
  store_submissions (foldl cleanup_code s codes) !! code =
  if bool_decide (code ∈ codes) then None else store_submissions s !! code.
Proof.
  induction codes as [|c codes IH] using rev_ind.
  - by rewrite bool_decide_eq_false_2 by apply not_elem_of_nil.
  - rewrite foldl_app. simpl. rewrite lookup_delete, IH.
    rewrite bool_decide_elem_of_snoc.
    destruct (decide (c = code)) as [->|Hne].
    + by rewrite (bool_decide_eq_true_2 (code = code)), orb_true_r.
    + by rewrite (bool_decide_eq_false_2 (code = c)), orb_false_r.
Qed.

Lemma cleanup_codes_constants (codes : list string) (s : t) :
  expiry_time (foldl cleanup_code s codes) = expiry_time s ∧
  cleanup_interval (foldl cleanup_code s codes) = cleanup_interval s.
Proof.
  induction codes as [|c codes IH] using rev_ind; [done|].
  by rewrite foldl_app.
Qed.

(** No operation changes the expiry time that [__init__] has set. *)
Lemma expiry_time_kept (s : t) (now : Z) (clock : Clock)
    (code name by_ qtype : string)
    (qs : list Question) (answers : list string) :
  expiry_time (cleanup_expired_quizzes s now) = expiry_time s ∧
  expiry_time (create_quiz s clock code qs qtype by_).1 = expiry_time s ∧
  expiry_time (submit_quiz s now code name answers).1 = expiry_time s.
Proof.
  pose proof (cleanup_codes_constants (expired_codes s now) s) as [Hexp _].
  split; [done|]. split.
  - unfold create_quiz. case_bool_decide; [|done]. simpl.
    by destruct (cleanup_codes_constants
                   (expired_codes s (sweep_now clock)) s) as [-> _].
  - unfold submit_quiz. destruct (get_quiz s now code) as [quiz|]; [|done].
    simpl. case_bool_decide; [|done]. simpl.
    destruct (correct_answers _ _); [done|].
    by destruct (questions quiz).
Qed.

(** The quiz under [code] right after [create_quiz]. *)
Lemma create_quiz_lookup (s : t) (clock : Clock) (code : string)
    (qs : list Question) (qtype by_ : string) :
  quizzes (create_quiz s clock code qs qtype by_).1 !! code =
  Some {| questions := qs; quiz_type := qtype; created_by := by_;
          submissions := []; created_at := created_now clock;
          expires_at := expires_now clock + expiry_time s;
          total_attempts := 0; average_score := 0%Q |}.
Proof.
  unfold create_quiz. simpl. rewrite lookup_insert_eq.
  case_bool_decide; [|done]. simpl.
  by destruct (cleanup_codes_constants
                 (expired_codes s (sweep_now clock)) s) as [-> _].
Qed.

(** A call with the wrong number of answers stops right after the
    submission is recorded. *)
Lemma submit_quiz_mismatch (s : t) (now : Z) (code name : string)
    (answers : list string) (quiz : Quiz) :
  get_quiz s now code = Some quiz →
  length answers ≠ length (questions quiz) →
  submit_quiz s now code name answers =
  ((record_submission s code quiz
      {| sub_student_name := name; sub_answers := answers;
         sub_timestamp := now |}).1,
   inl AnswerCountMismatchError).
Proof.
  intros Hget Hlen. unfold submit_quiz. rewrite Hget. simpl.
  by rewrite bool_decide_eq_false_2.
Qed.

Lemma record_submission_lookup (s : t) (code : string) (quiz : Quiz)
    (sub : Submission) :
  let '(s1, quiz1) := record_submission s code quiz sub in
  quizzes s1 !! code = Some quiz1 ∧
  store_submissions s1 !! code = Some (get_quiz_responses s code ++ [sub]) ∧
  submissions quiz1 = submissions quiz ++ [sub] ∧
  questions quiz1 = questions quiz ∧
  expires_at quiz1 = expires_at quiz ∧
  total_attempts quiz1 = total_attempts quiz ∧
  average_score quiz1 = average_score quiz.
Proof. simpl. by rewrite !lookup_insert_eq. Qed.

(** C1 (as the code has it). The sweep takes every quiz whose [expires_at]
    has passed out of the active map, but what it files in the archive
    under the code is [None]: the record is read back from the active map
    after it was popped. [get_expired_quiz] then gives nothing, and the
    questions and metadata are gone. *)
Theorem cleanup_expired_quizzes_archives_none (s : t) (now : Z)
    (code : string) (quiz : Quiz) :
  quizzes s !! code = Some quiz →
  (expires_at quiz <= now)%Z →
  let s' := cleanup_expired_quizzes s now in
  quizzes s' !! code = None ∧
  expired_quizzes s' !! code = Some None ∧
  get_expired_quiz s' code = None.
Proof.
  intros Hq Hexp s'.
  assert (code ∈ expired_codes s now) as Hin
    by (apply elem_of_expired_codes; eauto).
  unfold s', get_expired_quiz, cleanup_expired_quizzes. simpl.
  rewrite cleanup_codes_quizzes, cleanup_codes_expired.
  by rewrite !bool_decide_eq_true_2.
Qed.

Lemma cleanup_expired_quizzes_archives_none_witness :
  let s' := cleanup_expired_quizzes Sample.store (Sample.day + Sample.minute) in
  quizzes s' !! "AB12CD34" = None ∧
  expired_quizzes s' !! "AB12CD34" = Some None ∧
  get_expired_quiz s' "AB12CD34" = None.
Proof.
  apply (cleanup_expired_quizzes_archives_none Sample.store
           (Sample.day + Sample.minute) "AB12CD34" Sample.quiz).
  - apply create_quiz_lookup.
  - vm_compute. discriminate.
Defined.

(** C3. On an active quiz, a call of [submit_quiz] whose answers are not
    as many as the questions raises the answer-count error, and the quiz
    keeps the [total_attempts] it had. *)
Theorem submit_quiz_count_mismatch (s : t) (now : Z) (code name : string)
    (answers : list string) (quiz : Quiz) :
  get_quiz s now code = Some quiz →
  length answers ≠ length (questions quiz) →
  ∃ s' quiz',
    submit_quiz s now code name answers = (s', inl AnswerCountMismatchError) ∧
    quizzes s' !! code = Some quiz' ∧
    total_attempts quiz' = total_attempts quiz.
Proof.
  intros Hget Hlen.
  pose proof (record_submission_lookup s code quiz
    {| sub_student_name := name; sub_answers := answers;
       sub_timestamp := now |}) as Hrec.
  rewrite (submit_quiz_mismatch s now code name answers quiz Hget Hlen).
  destruct (record_submission _ _ _ _) as [s1 quiz1].
  exists s1, quiz1. by destruct Hrec as (? & _ & _ & _ & _ & ? & _).
Qed.

Lemma submit_quiz_count_mismatch_witness :
  ∃ s' quiz',
    submit_quiz Sample.store Sample.minute "AB12CD34" "Bob" ["Paris"] =
      (s', inl AnswerCountMismatchError) ∧
    quizzes s' !! "AB12CD34" = Some quiz' ∧
    total_attempts quiz' = 0%Z.
Proof.
  apply (submit_quiz_count_mismatch Sample.store Sample.minute "AB12CD34"
           "Bob" ["Paris"] Sample.quiz).
  - unfold get_quiz, Sample.store. rewrite create_quiz_lookup. reflexivity.
  - simpl. lia.
Defined.

(** C10. The failing call of C3 has by then appended its submission to the
    store's list for the code and to the quiz's own list, and both keep
    it; only [total_attempts] and [average_score] are as before. *)
Theorem submit_quiz_mismatch_keeps_submission (s : t) (now : Z)
    (code name : string) (answers : list string) (quiz : Quiz) :
  get_quiz s now code = Some quiz →
  length answers ≠ length (questions quiz) →
  let sub := {| sub_student_name := name; sub_answers := answers;
                sub_timestamp := now |} in
  ∃ s' quiz',
    submit_quiz s now code name answers = (s', inl AnswerCountMismatchError) ∧
    get_quiz_responses s' code = get_quiz_responses s code ++ [sub] ∧
    quizzes s' !! code = Some quiz' ∧
    submissions quiz' = submissions quiz ++ [sub] ∧
    total_attempts quiz' = total_attempts quiz ∧
    average_score quiz' = average_score quiz.
Proof.
  intros Hget Hlen sub.
  pose proof (record_submission_lookup s code quiz sub) as Hrec.
  rewrite (submit_quiz_mismatch s now code name answers quiz Hget Hlen).
  fold sub. destruct (record_submission _ _ _ _) as [s1 quiz1].
  exists s1, quiz1. unfold get_quiz_responses at 1.
  destruct Hrec as (? & -> & ? & ? & ? & ? & ?). done.
Qed.

Lemma submit_quiz_mismatch_keeps_submission_witness :
  let sub := {| sub_student_name := "Bob"; sub_answers := ["Paris"];
                sub_timestamp := Sample.minute |} in
  ∃ s' quiz',
    submit_quiz Sample.store Sample.minute "AB12CD34" "Bob" ["Paris"] =
      (s', inl AnswerCountMismatchError) ∧
    get_quiz_responses s' "AB12CD34" = [sub] ∧
    quizzes s' !! "AB12CD34" = Some quiz' ∧
    submissions quiz' = [sub] ∧
    total_attempts quiz' = 0%Z ∧
    average_score quiz' = 0%Q.
Proof.
  apply (submit_quiz_mismatch_keeps_submission Sample.store Sample.minute
           "AB12CD34" "Bob" ["Paris"] Sample.quiz).
  - unfold get_quiz, Sample.store. rewrite create_quiz_lookup. reflexivity.
  - simpl. lia.
Defined.

(** C4 (as the code has it). [create_quiz] reads the clock once for
    [created_at] and once more for [expires_at], which is the second
    reading plus the expiry time. In a store whose expiry time is 24 hours
    the quiz is returned by [get_quiz] at every instant before
    [created_at + 24h], and still between [created_at + 24h] and
    [expires_at]; from [expires_at] on [get_quiz] gives nothing although
    the record is still in the active map. When the second reading is at
    most [d] after the first, that is the case from [created_at + 24h + d]
    on. *)
Theorem get_quiz_until_expiry (s : t) (clock : Clock) (code : string)
    (qs : list Question) (qtype by_ : string) (now : Z) :
  expiry_time s = (24 * microseconds_per_hour)%Z →
  (created_now clock <= expires_now clock)%Z →
  let s' := (create_quiz s clock code qs qtype by_).1 in
  ∃ quiz,
    quizzes s' !! code = Some quiz ∧
    questions quiz = qs ∧
    created_at quiz = created_now clock ∧
    expires_at quiz = (expires_now clock + 24 * microseconds_per_hour)%Z ∧
    (created_at quiz + 24 * microseconds_per_hour <= expires_at quiz)%Z ∧
    ((now < created_at quiz + 24 * microseconds_per_hour)%Z →
       get_quiz s' now code = Some quiz) ∧
    ((created_at quiz + 24 * microseconds_per_hour <= now < expires_at quiz)%Z
     → get_quiz s' now code = Some quiz) ∧
    ((expires_at quiz <= now)%Z → get_quiz s' now code = None) ∧
    (∀ d : Z,
       (expires_now clock <= created_now clock + d)%Z →
       (created_at quiz + 24 * microseconds_per_hour + d <= now)%Z →
       get_quiz s' now code = None).
Proof.
  intros Hexp Horder s'. eexists. split; [apply create_quiz_lookup|].
  unfold get_quiz, s'. rewrite create_quiz_lookup. simpl.
  rewrite Hexp. repeat split.
  - lia.
  - intros Hlt. rewrite bool_decide_eq_true_2; [done|lia].
  - intros Hlt. rewrite bool_decide_eq_true_2; [done|lia].
  - intros Hge. rewrite bool_decide_eq_false_2; [done|lia].
  - intros d Hd Hge. rewrite bool_decide_eq_false_2; [done|lia].
Qed.

Lemma get_quiz_until_expiry_witness :
  ∃ quiz,
    quizzes Sample.slow_store !! "AB12CD34" = Some quiz ∧
    get_quiz Sample.slow_store (Sample.day - Sample.minute) "AB12CD34"
      = Some quiz ∧
    get_quiz Sample.slow_store (Sample.day + 3) "AB12CD34" = Some quiz ∧
    get_quiz Sample.slow_store (Sample.day + Sample.minute) "AB12CD34" = None.
Proof.
  destruct (get_quiz_until_expiry (init 0) Sample.first_readings "AB12CD34"
              Sample.two_questions "fill_blanks" "teacher"
              (Sample.day - Sample.minute) eq_refl)
    as (quiz & Hquiz & _ & _ & _ & _ & Hbefore & _ & _ & _);
    [vm_compute; discriminate|].
  destruct (get_quiz_until_expiry (init 0) Sample.first_readings "AB12CD34"
              Sample.two_questions "fill_blanks" "teacher"
              (Sample.day + 3) eq_refl)
    as (quiz2 & Hquiz2 & _ & _ & _ & _ & _ & Hbetween & _ & _);
    [vm_compute; discriminate|].
  destruct (get_quiz_until_expiry (init 0) Sample.first_readings "AB12CD34"
              Sample.two_questions "fill_blanks" "teacher"
              (Sample.day + Sample.minute) eq_refl)
    as (quiz3 & Hquiz3 & _ & _ & _ & _ & _ & _ & _ & Hafter);
    [vm_compute; discriminate|].
  rewrite Hquiz in Hquiz2, Hquiz3.
  injection Hquiz2 as <-. injection Hquiz3 as <-.
  exists quiz. split; [exact Hquiz|]. split; [|split].
  - apply Hbefore. rewrite create_quiz_lookup in Hquiz.
    injection Hquiz as <-. vm_compute. reflexivity.
  - apply Hbetween. rewrite create_quiz_lookup in Hquiz.
    injection Hquiz as <-. vm_compute. split; [discriminate|reflexivity].
  - apply (Hafter 3%Z); [vm_compute; discriminate|].
    rewrite create_quiz_lookup in Hquiz.
    injection Hquiz as <-. vm_compute. discriminate.
Defined.

(** C4 as stated fails: with the second reading of the clock three
    microseconds after the first, the quiz created at instant 2 is still
    returned at instant 2 + 24h, where the specification has it expired. *)
Lemma get_quiz_past_24h :
  (∃ quiz,
     quizzes Sample.slow_store !! "AB12CD34" = Some quiz ∧
     created_at quiz = 2%Z ∧
     get_quiz Sample.slow_store (2 + Sample.day) "AB12CD34" = Some quiz) ∧
  ¬ expires_24h_after_creation Sample.slow_store "AB12CD34".
Proof.
  assert (get_quiz Sample.slow_store (2 + Sample.day) "AB12CD34"
          = quizzes Sample.slow_store !! "AB12CD34") as Hcode.
  { unfold get_quiz, Sample.slow_store. rewrite create_quiz_lookup.
    reflexivity. }
  split.
  - eexists. split; [unfold Sample.slow_store; apply create_quiz_lookup|].
    split; [reflexivity|]. rewrite Hcode.
    unfold Sample.slow_store. apply create_quiz_lookup.
  - intros (quiz & Hquiz & Hclaim).
    destruct (Hclaim (2 + Sample.day)%Z) as [_ Hgone].
    rewrite Hcode, Hquiz in Hgone.
    unfold Sample.slow_store in Hquiz. rewrite create_quiz_lookup in Hquiz.
    injection Hquiz as <-. discriminate Hgone. vm_compute. discriminate.
Qed.

(** What a call of [submit_quiz] that returns has done to the quiz. *)
Lemma submit_quiz_success (s : t) (now : Z) (code name : string)
    (answers : list string) (s' : t) (r : Response) :
  submit_quiz s now code name answers = (s', inr r) →
  ∃ quiz quiz',
    get_quiz s now code = Some quiz ∧
    quizzes s' !! code = Some quiz' ∧
    total_attempts quiz' = (total_attempts quiz + 1)%Z ∧
    average_score quiz' =
      ((average_score quiz * inject_Z (total_attempts quiz' - 1)
        + r_score_percentage r) / inject_Z (total_attempts quiz'))%Q.
Proof.
  unfold submit_quiz. destruct (get_quiz s now code) as [quiz|]; [|done].
  simpl. case_bool_decide; simpl; [|done].
  destruct (correct_answers _ _) as [e|pairs]; [done|].
  destruct (questions quiz) eqn:Hqs; [done|].
  intros [= <- <-]. eexists quiz, _. split; [done|].
  simpl. rewrite lookup_insert_eq. done.
Qed.

Lemma get_quiz_Some (s : t) (now : Z) (code : string) (quiz : Quiz) :
  get_quiz s now code = Some quiz → quizzes s !! code = Some quiz.
Proof.
  unfold get_quiz. destruct (quizzes s !! code); [|done].
  by case_bool_decide.
Qed.

Lemma inject_Z_succ_nonzero (n : Z) :
  (0 <= n)%Z → ¬ (inject_Z (n + 1) == 0)%Q.
Proof. intros Hn. unfold Qeq. simpl. lia. Qed.

(** Along a run of calls that all return, the average times the number of
    attempts is the sum of the percentages. *)
Lemma submit_all_sum (code : string) (calls : list (Z * string * list string)) :
  ∀ (s s' : t) (rs : list Response) (quiz : Quiz),
    quizzes s !! code = Some quiz →
    (0 <= total_attempts quiz)%Z →
    submit_all s code calls = Some (s', rs) →
    ∃ quiz',
      quizzes s' !! code = Some quiz' ∧
      total_attempts quiz' = (total_attempts quiz + Z.of_nat (length rs))%Z ∧
      (average_score quiz' * inject_Z (total_attempts quiz')
       == average_score quiz * inject_Z (total_attempts quiz)
          + sum_Q (r_score_percentage <$> rs))%Q.
Proof.
  induction calls as [|[[now name] answers] calls IH];
    intros s s' rs quiz Hquiz Hpos Hrun; simpl in Hrun.
  - injection Hrun as <- <-. exists quiz. split; [done|].
    split; [simpl; lia|]. simpl. ring.
  - destruct (submit_quiz s now code name answers) as [s1 [e|r]] eqn:Hsub;
      [done|].
    destruct (submit_all s1 code calls) as [[s2 rs']|] eqn:Hrest; [|done].
    injection Hrun as <- <-.
    apply submit_quiz_success in Hsub
      as (quiz0 & quiz1 & Hget & Hquiz1 & Hatt & Havg).
    apply get_quiz_Some in Hget. rewrite Hquiz in Hget.
    injection Hget as <-.
    destruct (IH s1 s2 rs' quiz1 Hquiz1 ltac:(lia) Hrest)
      as (quiz2 & Hquiz2 & Hatt2 & Havg2).
    exists quiz2. split; [done|]. split; [simpl; lia|].
    rewrite fmap_cons.
    change (sum_Q (r_score_percentage r :: (r_score_percentage <$> rs')))
      with (r_score_percentage r + sum_Q (r_score_percentage <$> rs'))%Q.
    rewrite Havg2, Havg, Hatt.
    replace (total_attempts quiz + 1 - 1)%Z with (total_attempts quiz) by lia.
    field. by apply inject_Z_succ_nonzero.
Qed.

(** C5. A call of [submit_quiz] that returns has raised [total_attempts]
    by one and set [average_score] to
    [(old_average * (attempts - 1) + percentage) / attempts]; and after a
    run of such calls on a quiz that had no attempt, [total_attempts] is
    their number and [average_score] is, in exact arithmetic, the mean of
    their percentages. *)
Theorem submit_quiz_running_mean :
  (∀ (s : t) (now : Z) (code name : string) (answers : list string)
     (s' : t) (r : Response),
     submit_quiz s now code name answers = (s', inr r) →
     ∃ quiz quiz',
       get_quiz s now code = Some quiz ∧
       quizzes s' !! code = Some quiz' ∧
       total_attempts quiz' = (total_attempts quiz + 1)%Z ∧
       average_score quiz' =
         ((average_score quiz * inject_Z (total_attempts quiz' - 1)
           + r_score_percentage r) / inject_Z (total_attempts quiz'))%Q) ∧
  (∀ (s : t) (code : string) (calls : list (Z * string * list string))
     (s' : t) (rs : list Response) (quiz : Quiz),
     quizzes s !! code = Some quiz →
     total_attempts quiz = 0%Z →
     submit_all s code calls = Some (s', rs) →
     rs ≠ [] →
     ∃ quiz',
       quizzes s' !! code = Some quiz' ∧
       total_attempts quiz' = Z.of_nat (length rs) ∧
       (average_score quiz' == mean (r_score_percentage <$> rs))%Q).
Proof.
  split; [apply submit_quiz_success|].
  intros s code calls s' rs quiz Hquiz Hzero Hrun Hrs.
  destruct (submit_all_sum code calls s s' rs quiz Hquiz ltac:(lia) Hrun)
    as (quiz' & Hquiz' & Hatt & Havg).
  exists quiz'. split; [done|]. split; [lia|].
  unfold mean. rewrite length_fmap.
  rewrite Hzero in Havg, Hatt. simpl in Hatt. rewrite Hatt in Havg.
  assert (¬ (inject_Z (Z.of_nat (length rs)) == 0)%Q) as Hne.
  { destruct rs; [done|]. unfold Qeq. simpl. lia. }
  apply (Qmult_inj_r _ _ _ Hne). rewrite Havg. field. done.
Qed.

Lemma submit_quiz_running_mean_witness :
  ∃ s' rs quiz',
    submit_all Sample.store "AB12CD34" Sample.calls = Some (s', rs) ∧
    quizzes s' !! "AB12CD34" = Some quiz' ∧
    total_attempts quiz' = 2%Z ∧
    (average_score quiz' == 75)%Q.
Proof.
  pose (run := default (Sample.store, [])
                 (submit_all Sample.store "AB12CD34" Sample.calls)).
  assert (submit_all Sample.store "AB12CD34" Sample.calls
          = Some (run.1, run.2)) as Hrun by (vm_compute; reflexivity).
  destruct (proj2 submit_quiz_running_mean Sample.store "AB12CD34"
              Sample.calls run.1 run.2 Sample.quiz)
    as (quiz' & Hquiz' & Hatt & Havg).
  - apply create_quiz_lookup.
  - reflexivity.
  - exact Hrun.
  - vm_compute. discriminate.
  - exists run.1, run.2, quiz'. split; [exact Hrun|]. split; [exact Hquiz'|].
    split; [exact Hatt|]. rewrite Havg. vm_compute. reflexivity.
Defined.

End StoreFacts.

(** ** The random module *)

Section RandomFacts.
Import PyRandom.
Local Open Scope rand_scope.

Lemma ensures_ret {A} (a : A) (P : A → Prop) : P a → ensures (ret a) P.
Proof. intros HP t. exact HP. Qed.

Lemma ensures_starve {A} (P : A → Prop) : ensures starve P.
Proof. intros t. exact I. Qed.

Lemma ensures_bind {A B} (m : M A) (k : A → M B) (Q : A → Prop)
    (P : B → Prop) :
  ensures m Q → (∀ a, Q a → ensures (k a) P) → ensures (bind m k) P.
Proof.
  intros Hm Hk t. unfold bind. specialize (Hm t).
  destruct (m t) as [a t'| |]; [|done..]. by apply Hk.
Qed.

Lemma ensures_weaken {A} (m : M A) (Q P : A → Prop) :
  ensures m Q → (∀ a, Q a → P a) → ensures m P.
Proof.
  intros Hm HQP t. specialize (Hm t). destruct (m t); auto.
Qed.

Lemma ensures_Ret {A} (m : M A) (P : A → Prop) (t t' : Tape) (a : A) :
  ensures m P → m t = Ret a t' → P a.
Proof. intros Hm Heq. specialize (Hm t). by rewrite Heq in Hm. Qed.

Lemma ensures_remaining (P : nat → Prop) :
  (∀ n, P n) → ensures remaining P.
Proof. intros HP t. apply HP. Qed.

Lemma ensures_randbelow (n : nat) :
  0 < n → ensures (randbelow n) (λ j, j < n).
Proof.
  intros Hn [|d t]; simpl; [done|]. apply Nat.mod_upper_bound. lia.
Qed.

Lemma ensures_choice {A} (seq : list A) :
  seq ≠ [] → ensures (choice seq) (λ a, a ∈ seq).
Proof.
  destruct seq as [|x seq]; [done|]. intros _. unfold choice.
  eapply ensures_bind; [apply ensures_randbelow; simpl; lia|].
  intros j Hj. apply ensures_ret.
  apply list_elem_of_In, nth_In. exact Hj.
Qed.

(** Exchanging two entries permutes the list. *)
Lemma swap_Permutation {A} (x : list A) (i j : nat) : swap x i j ≡ₚ x.
Proof.
  unfold swap.
  destruct (x !! i) as [a|] eqn:Hi; [|done].
  destruct (x !! j) as [b|] eqn:Hj; [|done].
  pose proof (lookup_lt_Some _ _ _ Hi) as Hil.
  pose proof (lookup_lt_Some _ _ _ Hj) as Hjl.
  apply Permutation_inj. split; [by rewrite !length_insert|].
  exists (λ k, if decide (k = i) then j else if decide (k = j) then i else k).
  split.
  - intros k1 k2. repeat case_decide; congruence.
  - intros k. destruct (decide (k = j)) as [->|Hkj].
    + rewrite list_lookup_insert_eq by (by rewrite length_insert).
      case_decide; congruence.
    + rewrite list_lookup_insert_ne by done.
      destruct (decide (k = i)) as [->|Hki].
      * by rewrite list_lookup_insert_eq.
      * by rewrite list_lookup_insert_ne.
Qed.

Lemma ensures_shuffle_go {A} (i : nat) (x : list A) :
  ensures (shuffle_go i x) (λ y, y ≡ₚ x).
Proof.
  revert x. induction i as [|i IH]; intros x; simpl.
  - by apply ensures_ret.
  - eapply ensures_bind; [apply ensures_randbelow; lia|].
    intros j _. eapply ensures_weaken; [apply IH|].
    intros y Hy. by rewrite Hy, swap_Permutation.
Qed.

Lemma ensures_shuffle {A} (x : list A) :
  ensures (shuffle x) (λ y, y ≡ₚ x).
Proof. apply ensures_shuffle_go. Qed.

Lemma ensures_sample_go {A} (k : nat) (pool : list A) :
  k ≤ length pool →
  ensures (sample_go k pool) (λ l, length l = k ∧ l ⊆ pool).
Proof.
  revert pool. induction k as [|k IH]; intros pool Hk; simpl.
  - apply ensures_ret. split; [done|]. apply list_subseteq_nil.
  - eapply ensures_bind; [apply ensures_randbelow; lia|].
    intros j Hj. simpl in Hj.
    destruct (lookup_lt_is_Some_2 pool j Hj) as [a Ha]. rewrite Ha.
    destruct (last pool) as [z|] eqn:Hz.
    2:{ apply last_None in Hz. subst pool. simpl in Hk. lia. }
    eapply ensures_bind.
    + apply IH. rewrite length_take, length_insert. lia.
    + intros rest [Hlen Hsub]. apply ensures_ret. split; [simpl; lia|].
      intros y Hy. apply elem_of_cons in Hy as [->|Hy].
      * by eapply list_elem_of_lookup_2.
      * apply Hsub in Hy. apply elem_of_take in Hy as (i & Hy & _).
        destruct (decide (i = j)) as [->|Hne].
        -- rewrite list_lookup_insert_eq in Hy by done.
           injection Hy as <-. apply last_Some in Hz as [l' ->].
           apply elem_of_app. right. by apply list_elem_of_singleton.
        -- rewrite list_lookup_insert_ne in Hy by done.
           by eapply list_elem_of_lookup_2.
Qed.

Lemma ensures_sample {A} (population : list A) (k : nat) :
  k ≤ length population →
  ensures (sample population (Z.of_nat k))
          (λ l, length l = k ∧ l ⊆ population).
Proof.
  intros Hk. unfold sample. rewrite bool_decide_eq_true_2 by lia.
  rewrite Nat2Z.id. by apply ensures_sample_go.
Qed.

End RandomFacts.

(** ** Lists and strings *)

Section ListFacts.
Import PyList.

Lemma elem_of_fromkeys_go (seen l : list string) (x : string) :
  x ∈ fromkeys_go seen l ↔ x ∈ l ∧ x ∉ seen.
Proof.
  revert seen. induction l as [|y l IH]; intros seen; simpl.
  - split; [by intros ?%not_elem_of_nil|]. by intros [?%not_elem_of_nil _].
  - case_bool_decide as Hy.
    + rewrite IH, elem_of_cons. split; [tauto|].
      intros [[->|?] ?]; tauto.
    + rewrite elem_of_cons, IH, !elem_of_cons. split.
      * intros [->|[? ?]]; tauto.
      * intros [[->|?] ?]; [tauto|].
        destruct (decide (x = y)); tauto.
Qed.

Lemma NoDup_fromkeys_go (seen l : list string) : NoDup (fromkeys_go seen l).
Proof.
  revert seen. induction l as [|y l IH]; intros seen; simpl.
  - constructor.
  - case_bool_decide; [apply IH|]. constructor; [|apply IH].
    rewrite elem_of_fromkeys_go, elem_of_cons. tauto.
Qed.

Lemma length_fromkeys_go (seen l : list string) :
  length (fromkeys_go seen l) ≤ length l.
Proof.
  revert seen. induction l as [|y l IH]; intros seen; simpl; [done|].
  case_bool_decide; simpl; [specialize (IH seen)|specialize (IH (y :: seen))];
    lia.
Qed.

Lemma NoDup_fromkeys (l : list string) : NoDup (fromkeys l).
Proof. apply NoDup_fromkeys_go. Qed.

Lemma length_fromkeys (l : list string) : length (fromkeys l) ≤ length l.
Proof. apply length_fromkeys_go. Qed.

Lemma head_fromkeys (l : list string) : head (fromkeys l) = head l.
Proof.
  destruct l as [|x l]; [done|]. unfold fromkeys. cbn [fromkeys_go].
  rewrite bool_decide_eq_false_2; [done|apply not_elem_of_nil].
Qed.

Lemma index_Some (x : string) (l : list string) (i : nat) :
  index x l = Some i → l !! i = Some x.
Proof.
  revert i. induction l as [|y l IH]; intros i; simpl; [done|].
  case_bool_decide as Hy.
  - intros [= <-]. by rewrite Hy.
  - destruct (index x l) as [k|]; [|done]. intros [= <-]. by apply IH.
Qed.

Lemma index_elem_of (x : string) (l : list string) :
  x ∈ l → is_Some (index x l).
Proof.
  induction l as [|y l IH]; [by intros ?%not_elem_of_nil|]. simpl.
  case_bool_decide as Hy; [by eexists|].
  intros [->|Hin]%elem_of_cons; [done|].
  destruct (IH Hin) as [k ->]. by eexists.
Qed.

Lemma head_elem_of {A} (l : list A) (x : A) : head l = Some x → x ∈ l.
Proof. destruct l; [done|]. intros [= ->]. apply elem_of_cons. by left. Qed.

(** ** [str.replace(old, new, 1)] replaces the leftmost occurrence *)

Lemma prefix_app (s u : string) : String.prefix s (s +:+ u) = true.
Proof.
  induction s as [|c s IH]; simpl; [by destruct u|].
  destruct (Ascii.ascii_dec c c); [exact IH|done].
Qed.

Lemma drop_chars_app (s u : string) :
  PyStr.drop_chars (String.length s) (s +:+ u) = u.
Proof. induction s as [|c s IH]; simpl; [by destruct u|exact IH]. Qed.

Lemma replace_first_unfold (old new s : string) :
  PyStr.replace_first old new s =
  if String.prefix old s
  then new +:+ PyStr.drop_chars (String.length old) s
  else match s with
       | EmptyString => EmptyString
       | String c s' => String c (PyStr.replace_first old new s')
       end.
Proof. by destruct s. Qed.

Lemma replace_first_leftmost (old new pre post : string) :
  (∀ k, k < String.length pre →
        String.prefix old (PyStr.drop_chars k (pre +:+ old +:+ post)) = false) →
  PyStr.replace_first old new (pre +:+ old +:+ post) = pre +:+ new +:+ post.
Proof.
  induction pre as [|c pre IH]; intros Hfirst.
  - change (EmptyString +:+ old +:+ post) with (old +:+ post).
    change (EmptyString +:+ new +:+ post) with (new +:+ post).
    rewrite replace_first_unfold, prefix_app. by rewrite drop_chars_app.
  - assert (String.prefix old (String c pre +:+ old +:+ post) = false) as H0
      by exact (Hfirst 0 ltac:(simpl; lia)).
    rewrite replace_first_unfold, H0.
    change (String c pre +:+ old +:+ post)
      with (String c (pre +:+ old +:+ post)).
    change (String c pre +:+ new +:+ post)
      with (String c (pre +:+ new +:+ post)).
    f_equal. apply IH. intros k Hk.
    apply (Hfirst (S k)). simpl. lia.
Qed.

End ListFacts.

(** ** The question strategies *)

Section GeneratorFacts.
Import PyRandom PyList QuizGenerator.
Local Open Scope rand_scope.
Context (env : Env).

Lemma generic_options_nonempty (tag_prefix : string) :
  generic_options tag_prefix ≠ [].
Proof. unfold generic_options. by repeat case_bool_decide. Qed.

Lemma head_snoc {A} (l : list A) (x w : A) :
  head l = Some w → head (l ++ [x]) = Some w.
Proof. by destruct l. Qed.

Lemma NoDup_snoc_2 {A} (l : list A) (x : A) :
  x ∉ l → NoDup l → NoDup (l ++ [x]).
Proof.
  intros Hx Hl. apply NoDup_app. split; [done|]. split.
  - intros y Hy ->%list_elem_of_singleton. done.
  - apply NoDup_singleton.
Qed.

(** The first [while] loop: the answer stays in front, the options end up
    four when they were not more, and no duplicate is added. *)
Lemma ensures_add_generic (fuel : nat) (tag_prefix : string)
    (options : list string) :
  ensures (add_generic fuel tag_prefix options)
    (λ options',
       (length options ≤ 4 → length options' = 4) ∧
       (NoDup options → NoDup options') ∧
       (∀ w, head options = Some w → head options' = Some w)).
Proof.
  revert options. induction fuel as [|fuel IH]; intros options; simpl.
  - case_bool_decide as Hlen; [apply ensures_starve|].
    apply ensures_ret. repeat split; [lia|done..].
  - case_bool_decide as Hlen.
    + eapply ensures_bind;
        [apply ensures_choice, generic_options_nonempty|].
      intros generic _. case_bool_decide as Hin.
      * apply IH.
      * eapply ensures_weaken; [apply IH|].
        intros options' (Hfour & Hnodup & Hhead). repeat split.
        -- intros _. apply Hfour. rewrite length_app. simpl. lia.
        -- intros Hnd. by apply Hnodup, NoDup_snoc_2.
        -- intros w Hw. by apply Hhead, head_snoc.
    + apply ensures_ret. repeat split; [lia|done..].
Qed.

Lemma ensures_initial_options (tagged : list (string * string))
    (word tag : string) :
  ensures (initial_options tagged word tag)
    (λ options, head options = Some word ∧ length options ≤ 3).
Proof.
  unfold initial_options.
  destruct (similar_words tagged word tag) as [|x similar] eqn:Hsim.
  - apply ensures_ret. simpl. split; [done|lia].
  - eapply ensures_bind; [apply ensures_sample; lia|].
    intros picked [Hlen _]. apply ensures_ret. split; [done|].
    simpl. lia.
Qed.

(** Four distinct options with the answer among them, once shuffled and
    searched for the answer, make a well-formed question. *)
Lemma ensures_shuffle_index (sentence word : string)
    (options : list string) (mk : list string → nat → Question) :
  length options = 4 → NoDup options → word ∈ options →
  (∀ options' i,
     length options' = 4 →
     q_question (mk options' i) =
       "What is the correct word in: '"
         +:+ PyStr.replace word blank sentence +:+ "'" ∧
     q_type (mk options' i) = "mcq" ∧
     q_options (mk options' i) = Some options' ∧
     q_correct (mk options' i) = Some i) →
  ensures
    (let* options' := shuffle options in
     match index word options' with
     | None => raise (ValueError (word +:+ " is not in list"))
     | Some i => ret (mk options' i)
     end)
    (is_mcq_question sentence word).
Proof.
  intros Hlen Hnodup Hin Hmk.
  eapply ensures_bind; [apply ensures_shuffle|].
  intros options' Hperm.
  assert (length options' = 4) as Hlen' by (by rewrite Hperm).
  destruct (index_elem_of word options') as [i Hi]; [by rewrite Hperm|].
  rewrite Hi. apply ensures_ret.
  destruct (Hmk options' i Hlen') as (Htext & Htype & Hopts & Hcorrect).
  apply index_Some in Hi. pose proof (lookup_lt_Some _ _ _ Hi) as Hlt.
  split; [done|]. split; [done|]. exists options', i.
  repeat split; [done|done|done| |lia|done]. by rewrite Hperm.
Qed.

(** The question built for a chosen word is well-formed (on every tape on
    which the loops come to an end). *)
Lemma ensures_mcq_question (sentence : string)
    (tagged : list (string * string)) (word tag : string) :
  ensures (mcq_question sentence tagged word tag)
          (is_mcq_question sentence word).
Proof.
  unfold mcq_question.
  eapply ensures_bind; [apply ensures_initial_options|].
  intros options0 [Hhead0 Hlen0].
  eapply (ensures_bind _ _ (λ _, True)); [by apply ensures_remaining|].
  intros fuel1 _.
  eapply ensures_bind; [apply ensures_add_generic|].
  intros options1 (Hfour1 & _ & Hhead1).
  eapply (ensures_bind _ _ (λ _, True)); [by apply ensures_remaining|].
  intros fuel2 _.
  eapply ensures_bind; [apply ensures_add_generic|].
  intros options2 (Hfour2 & Hnodup2 & Hhead2).
  apply (ensures_shuffle_index sentence word options2
           (λ options' i, {| q_question := _; q_type := "mcq";
                             q_options := Some options';
                             q_correct := Some i;
                             q_correct_answer := None |})).
  - apply Hfour2. rewrite length_take. lia.
  - apply Hnodup2.
    eapply sublist_NoDup; [apply NoDup_fromkeys|apply sublist_take].
  - apply head_elem_of, Hhead2.
    specialize (Hhead1 word Hhead0).
    specialize (Hfour1 ltac:(lia)).
    rewrite <- head_fromkeys in Hhead1.
    destruct (fromkeys options1); [done|]. exact Hhead1.
  - done.
Qed.

Lemma ensures_append_choice (options generics : list string) :
  generics ≠ [] →
  ensures (let* g := choice generics in ret (options ++ [g]))
    (λ options1, length options1 ≤ S (length options) ∧
                 ∀ w, head options = Some w → head options1 = Some w).
Proof.
  intros Hne. eapply ensures_bind; [by apply ensures_choice|].
  intros g _. apply ensures_ret. split.
  - rewrite length_app. simpl. lia.
  - intros w Hw. by apply head_snoc.
Qed.

(** The loop of [process_sentence]: from at most three options with the
    answer in front to four distinct ones with the answer in front. *)
Lemma ensures_pad_options (fuel : nat) (tag : string)
    (options : list string) :
  ensures (pad_options fuel tag options)
    (λ options',
       (length options ≤ 3 ∨ length options ≤ 4 ∧ NoDup options) →
       length options' = 4 ∧ NoDup options' ∧
       (∀ w, head options = Some w → head options' = Some w)).
Proof.
  revert options. induction fuel as [|fuel IH]; intros options; simpl.
  - case_bool_decide as Hlen; [apply ensures_starve|].
    apply ensures_ret. cbv beta. intros [?|[? ?]]; [lia|].
    repeat split; [lia|done..].
  - case_bool_decide as Hlen.
    + eapply (ensures_bind _ _
                (λ options1, length options1 ≤ S (length options) ∧
                             ∀ w, head options = Some w →
                                  head options1 = Some w)).
      * repeat case_match; try by apply ensures_append_choice.
        apply ensures_ret. split; [lia|done].
      * intros options1 [Hlen1 Hhead1].
        eapply ensures_weaken; [apply IH|].
        intros options' Hpost _.
        pose proof (length_fromkeys options1).
        destruct Hpost as (Hfour & Hnodup & Hhead).
        { right. split; [lia|apply NoDup_fromkeys]. }
        repeat split; [done..|].
        intros w Hw. apply Hhead. rewrite head_fromkeys. by apply Hhead1.
    + apply ensures_ret. cbv beta. intros [?|[? ?]]; [lia|].
      repeat split; [lia|done..].
Qed.

Lemma elem_of_important_words (used : gset string)
    (tagged : list (string * string)) (word tag : string) :
  (word, tag) ∈ filter (λ wt, important env used wt.1 wt.2) tagged →
  (word, tag) ∈ tagged ∧ PyStr.lower word ∉ used.
Proof.
  intros [Himp Hin]%list_elem_of_filter. split; [done|].
  unfold important in Himp. simpl in Himp.
  apply Is_true_true in Himp.
  rewrite !andb_true_iff, !negb_true_iff in Himp.
  destruct Himp as [[[_ _] Hused] _].
  by apply bool_decide_eq_false in Hused.
Qed.

Lemma ensures_process_sentence (sentence : string) (used : gset string) :
  ensures (process_sentence env sentence used)
    (λ r, ∀ q, r = Some q →
       ∃ word tag,
         (word, tag) ∈ pos_tag env (word_tokenize env sentence) ∧
         (PyStr.lower word ∉ used) ∧
         is_mcq_question sentence word q ∧
         q_correct_answer q = Some word).
Proof.
  unfold process_sentence.
  destruct (filter _ _) as [|wt0 rest] eqn:Himp.
  { by apply ensures_ret. }
  eapply ensures_bind; [by apply ensures_choice|].
  intros [word tag] Hin. rewrite <- Himp in Hin.
  apply elem_of_important_words in Hin as [Hin Hused].
  eapply ensures_bind; [apply ensures_initial_options|].
  intros options0 [Hhead0 Hlen0].
  eapply (ensures_bind _ _ (λ _, True)); [by apply ensures_remaining|].
  intros fuel _.
  eapply ensures_bind; [apply ensures_pad_options|].
  intros options1 Hpad.
  destruct Hpad as (Hfour & Hnodup & Hhead); [by left|].
  eapply ensures_bind; [apply ensures_shuffle|].
  intros options' Hperm.
  assert (length options' = 4) as Hlen' by (by rewrite Hperm).
  destruct (index_elem_of word options') as [i Hi].
  { rewrite Hperm. by apply head_elem_of, Hhead. }
  rewrite Hi. apply ensures_ret. intros q [= <-].
  apply index_Some in Hi. pose proof (lookup_lt_Some _ _ _ Hi) as Hlt.
  exists word, tag. split; [done|]. split; [done|]. split; [|done].
  split; [done|]. split; [done|].
  exists options', i. simpl. rewrite take_ge by lia.
  repeat split; [done| |lia|done]. by rewrite Hperm.
Qed.

(** Appending a question whose answer is new keeps the answers of the
    questions distinct without regard to case. *)
Lemma answers_snoc {R : Question → string → Prop}
    (questions : list Question) (words : list string)
    (used : gset string) (q : Question) (word : string) :
  Forall2 R questions words →
  NoDup (PyStr.lower <$> words) →
  (∀ w, w ∈ words → PyStr.lower w ∈ used) →
  PyStr.lower word ∉ used →
  R q word →
  Forall2 R (questions ++ [q]) (words ++ [word]) ∧
  NoDup (PyStr.lower <$> (words ++ [word])) ∧
  (∀ w, w ∈ words ++ [word] →
        PyStr.lower w ∈ ({[PyStr.lower word]} ∪ used : gset string)).
Proof.
  intros HR Hnodup Hused Hnew Hq. repeat split.
  - apply Forall2_app; [done|]. by repeat constructor.
  - rewrite fmap_app. apply NoDup_snoc_2; [|done].
    intros (w & Hw & Hin)%list_elem_of_fmap. apply Hnew.
    rewrite Hw. by apply Hused.
  - intros w [Hw| ->%list_elem_of_singleton]%elem_of_app.
    + apply elem_of_union. right. by apply Hused.
    + apply elem_of_union. left. by apply elem_of_singleton.
Qed.

Lemma ensures_mcq_loop (num_questions : Z) (all sentences : list string) :
  ∀ (questions : list Question) (used : gset string) (words : list string),
    sentences ⊆ all →
    Forall2 (mcq_from env all) questions words →
    NoDup (PyStr.lower <$> words) →
    (∀ w, w ∈ words → PyStr.lower w ∈ used) →
    ensures (mcq_loop env num_questions sentences questions used)
      (λ qs, ∃ words',
         Forall2 (mcq_from env all) qs words' ∧
         NoDup (PyStr.lower <$> words')).
Proof.
  induction sentences as [|sentence rest IH];
    intros questions used words Hsub HR Hnodup Hused; cbn [mcq_loop].
  { apply ensures_ret. eauto. }
  assert (sentence ∈ all) as Hsent by (apply Hsub, elem_of_cons; by left).
  assert (rest ⊆ all) as Hrest
    by (intros x Hx; apply Hsub, elem_of_cons; by right).
  destruct (filter _ _) as [|wt0 more] eqn:Himp; [by eapply IH|].
  eapply ensures_bind; [by apply ensures_choice|].
  intros [word tag] Hin. rewrite <- Himp in Hin.
  apply elem_of_important_words in Hin as [Hin Hnew].
  rewrite bool_decide_eq_false_2 by done.
  eapply ensures_bind; [apply ensures_mcq_question|].
  intros q Hq.
  destruct (answers_snoc (R := mcq_from env all) questions words used q word)
    as (HR' & Hnodup' & Hused'); [done..| |].
  { by exists sentence, tag. }
  case_bool_decide; [apply ensures_ret; eauto|]. by eapply IH.
Qed.

(** *** Fill in the blanks *)

Lemma elem_of_fill_blanks_important (tagged : list (string * string))
    (used : gset string) (word : string) (i : nat) :
  (word, i) ∈ fill_blanks_important env tagged used ↔
  ∃ tag, tagged !! i = Some (word, tag) ∧ important env used word tag = true.
Proof.
  unfold fill_blanks_important, enumerate.
  rewrite list_elem_of_fmap. split.
  - intros ([k [w tag]] & Heq & [Himp Hin]%list_elem_of_filter).
    apply elem_of_lookup_imap in Hin as (j & wt & Hpair & Hj).
    simplify_eq/=. exists tag. split; [done|]. by apply Is_true_true.
  - intros (tag & Hi & Himp). exists (i, (word, tag)). split; [done|].
    apply list_elem_of_filter. split; [by apply Is_true_true|].
    apply elem_of_lookup_imap. by exists i, (word, tag).
Qed.

Lemma important_not_used (used : gset string) (word tag : string) :
  important env used word tag = true → PyStr.lower word ∉ used.
Proof.
  unfold important. rewrite !andb_true_iff, !negb_true_iff.
  intros [[[_ _] Hused] _]. by apply bool_decide_eq_false in Hused.
Qed.

(** What one round of the loop of [generate_fill_blanks] does: nothing,
    or one more question for an eligible word that was not used. *)
Lemma ensures_fill_blanks_body (sentence : string)
    (questions : list Question) (used : gset string) :
  ensures (fill_blanks_body env sentence questions used)
    (λ r, r = (questions, used) ∨
          ∃ word tag,
            (word, tag) ∈ pos_tag env (word_tokenize env sentence) ∧
            (PyStr.lower word ∉ used) ∧
            r = (questions ++ [fill_blank_question sentence word],
                 {[PyStr.lower word]} ∪ used)).
Proof.
  unfold fill_blanks_body.
  destruct (fill_blanks_important _ _ _) as [|wi0 more] eqn:Himp.
  { apply ensures_ret. by left. }
  eapply ensures_bind; [by apply ensures_choice|].
  intros [word i] Hin. rewrite <- Himp in Hin.
  apply elem_of_fill_blanks_important in Hin as (tag & Hi & Heligible).
  apply important_not_used in Heligible.
  rewrite bool_decide_eq_false_2 by done.
  apply ensures_ret. right. exists word, tag.
  split; [by eapply list_elem_of_lookup_2|]. done.
Qed.

Lemma ensures_fill_blanks_loop (num_questions : Z)
    (all sentences : list string) :
  ∀ (questions : list Question) (used : gset string) (words : list string),
    sentences ⊆ all →
    Forall2 (fill_blank_from env all) questions words →
    NoDup (PyStr.lower <$> words) →
    (∀ w, w ∈ words → PyStr.lower w ∈ used) →
    ensures (fill_blanks_loop env num_questions sentences questions used)
      (λ qs, ∃ words',
         Forall2 (fill_blank_from env all) qs words' ∧
         NoDup (PyStr.lower <$> words')).
Proof.
  induction sentences as [|sentence rest IH];
    intros questions used words Hsub HR Hnodup Hused; cbn [fill_blanks_loop].
  { apply ensures_ret. eauto. }
  assert (sentence ∈ all) as Hsent by (apply Hsub, elem_of_cons; by left).
  assert (rest ⊆ all) as Hrest
    by (intros x Hx; apply Hsub, elem_of_cons; by right).
  case_bool_decide; [apply ensures_ret; eauto|].
  eapply ensures_bind; [apply ensures_fill_blanks_body|].
  intros [questions' used'] [[= -> ->]|(word & tag & Hin & Hnew & [= -> ->])].
  - by eapply IH.
  - destruct (answers_snoc (R := fill_blank_from env all) questions words
                used (fill_blank_question sentence word) word)
      as (HR' & Hnodup' & Hused'); [done..| |].
    { by exists sentence, tag. }
    by eapply IH.
Qed.

Lemma slice_to_subseteq {A} (k : Z) (l : list A) : slice_to k l ⊆ l.
Proof.
  intros x Hx. unfold slice_to in Hx.
  apply elem_of_take in Hx as (i & Hx & _). by eapply list_elem_of_lookup_2.
Qed.

Lemma mcq_from_correct_word (all : list string) (q : Question)
    (word : string) :
  mcq_from env all q word → correct_word q = Some word.
Proof.
  intros (sentence & tag & _ & _ & _ & _ & options & i & Ho & Hi & _ & _ & _ & Hw).
  unfold correct_word. by rewrite Ho, Hi.
Qed.

Lemma fill_blank_from_correct_word (all : list string) (q : Question)
    (word : string) :
  fill_blank_from env all q word → correct_word q = Some word.
Proof. by intros (sentence & tag & _ & _ & ->). Qed.

(** The questions of an MCQ run and of a fill-in-blank run, with the words
    they ask for. *)
Lemma ensures_generate_mcq (num_questions : Z) (text : string) :
  ensures
    (mcq_loop env num_questions
       (slice_to (num_questions * 2) (sent_tokenize env text)) [] ∅)
    (λ qs, ∃ words,
       Forall2 (mcq_from env (sent_tokenize env text)) qs words ∧
       NoDup (PyStr.lower <$> words)).
Proof.
  apply (ensures_mcq_loop num_questions _ _ [] ∅ []).
  - apply slice_to_subseteq.
  - constructor.
  - constructor.
  - by intros w ?%not_elem_of_nil.
Qed.

Lemma ensures_generate_fill_blanks (num_questions : Z) (text : string) :
  ensures (generate_fill_blanks env text num_questions)
    (λ qs, ∃ words,
       Forall2 (fill_blank_from env (sent_tokenize env text)) qs words ∧
       NoDup (PyStr.lower <$> words)).
Proof.
  apply (ensures_fill_blanks_loop num_questions _ _ [] ∅ []).
  - done.
  - constructor.
  - constructor.
  - by intros w ?%not_elem_of_nil.
Qed.

Lemma ensures_true_false_loop (sentences : list string) :
  ∀ questions : list Question,
    ensures (true_false_loop sentences questions)
      (λ qs, length qs = length questions + length sentences).
Proof.
  induction sentences as [|sentence rest IH]; intros questions;
    cbn [true_false_loop].
  { apply ensures_ret. simpl. lia. }
  eapply ensures_bind; [by apply ensures_choice|]. intros correct _.
  eapply (ensures_bind _ _ (λ _, True)).
  - destruct correct; simpl; [by apply ensures_ret|].
    case_bool_decide; [|by apply ensures_ret].
    eapply (ensures_bind _ _ (λ _, True)).
    + unfold randint. eapply ensures_bind; [apply ensures_randbelow; lia|].
      intros j _. by apply ensures_ret.
    + intros pos _. eapply ensures_bind; [by apply ensures_choice|].
      intros w _. by apply ensures_ret.
  - intros sentence' _. eapply ensures_weaken; [apply IH|].
    intros qs ->. rewrite length_app. simpl. lia.
Qed.

(** With three draws for each sentence the true/false loop comes to an end. *)
Lemma true_false_loop_returns (sentences : list string) :
  ∀ (questions : list Question) (t : Tape),
    3 * length sentences ≤ length t →
    ∃ qs t', true_false_loop sentences questions t = Ret qs t'.
Proof.
  induction sentences as [|sentence rest IH]; intros questions t Hlen;
    cbn [true_false_loop].
  { by exists questions, t. }
  simpl in Hlen.
  destruct t as [|d1 [|d2 [|d3 t]]]; simpl in Hlen; try lia.
  unfold bind at 1. unfold choice at 1, bind at 1, randbelow at 1, ret at 1.
  destruct (nth (d1 mod length [true; false]) [true; false] true).
  - unfold bind at 1, ret at 1. simpl negb. cbv iota.
    apply IH. simpl. lia.
  - unfold bind at 1. simpl negb. cbv iota.
    case_bool_decide.
    + unfold bind at 1, randint at 1, bind at 1, randbelow at 1, ret at 1.
      unfold bind at 1, choice at 1, bind at 1, randbelow at 1, ret at 1.
      unfold ret at 1. apply IH. lia.
    + unfold ret at 1. apply IH. simpl. lia.
Qed.

(** On a text that could be extracted and a supported type, [generate_quiz]
    raises nothing; a true/false quiz has one question for each of the
    sentences it was given. *)
Lemma ensures_generate_quiz (file_path text : string) (num_questions : Z)
    (quiz_type : string) :
  extract_text env file_path = inr text →
  quiz_type ∈ ["mcq"; "true_false"; "fill_blanks"] →
  ensures (generate_quiz env file_path num_questions quiz_type)
    (λ qs, quiz_type = "true_false" →
           length qs = length (slice_to num_questions (sent_tokenize env text))).
Proof.
  intros Htext Htype. unfold generate_quiz. rewrite Htext.
  repeat case_bool_decide.
  - eapply ensures_weaken; [apply ensures_generate_mcq|]. by intros qs _ ->.
  - eapply ensures_weaken; [apply ensures_true_false_loop|]. by intros qs -> _.
  - eapply ensures_weaken; [apply ensures_generate_fill_blanks|].
    by intros qs _ ->.
  - apply elem_of_cons in Htype as [->|Htype]; [done|].
    apply elem_of_cons in Htype as [->|Htype]; [done|].
    apply list_elem_of_singleton in Htype. done.
Qed.

Lemma length_slice_to {A} (k : Z) (l : list A) :
  (0 <= k)%Z →
  Z.of_nat (length (slice_to k l)) = Z.min k (Z.of_nat (length l)).
Proof.
  intros Hk. unfold slice_to. rewrite bool_decide_eq_false_2 by lia.
  rewrite length_take. lia.
Qed.

Lemma length_slice_to_le {A} (k : Z) (l : list A) :
  length (slice_to k l) ≤ length l.
Proof. unfold slice_to. rewrite length_take. lia. Qed.

(** *** Runs that come to an end *)

Lemma can_return_ret {A} (a : A) (P : A → Prop) :
  P a → can_return (ret a) P.
Proof. intros HP. exists [], a. by split. Qed.

Lemma can_return_weaken {A} (m : M A) (Q P : A → Prop) :
  can_return m Q → (∀ a, Q a → P a) → can_return m P.
Proof. intros (t & a & Ha & Hm) HQP. exists t, a. split; auto. Qed.

(** What a run that comes to an end returns is what every run returns. *)
Lemma can_return_ensures {A} (m : M A) (Q P : A → Prop) :
  can_return m Q → ensures m P → can_return m P.
Proof.
  intros (t & a & _ & Hm) Hens. exists t, a. split; [|done].
  specialize (Hens (t ++ [])). by rewrite Hm in Hens.
Qed.

Lemma can_return_bind {A B} (m : M A) (k : A → M B) (Q : A → Prop)
    (P : B → Prop) :
  can_return m Q → (∀ a, Q a → can_return (k a) P) →
  can_return (bind m k) P.
Proof.
  intros (t1 & a & Ha & Hm) Hk.
  destruct (Hk a Ha) as (t2 & b & Hb & Hka).
  exists (t1 ++ t2), b. split; [done|]. intros t'.
  unfold bind. by rewrite <- app_assoc, Hm.
Qed.

(** A loop that is given the number of draws left as its bound comes to
    an end when it does so on a bound that covers its own draws. *)
Lemma can_return_remaining {A} (loop : nat → M A) (P : A → Prop) :
  (∃ t a, P a ∧
     ∀ t' fuel, length t ≤ fuel → loop fuel (t ++ t') = Ret a t') →
  can_return (bind remaining loop) P.
Proof.
  intros (t & a & Ha & Hloop). exists t, a. split; [done|]. intros t'.
  unfold bind, remaining. apply Hloop. rewrite length_app. lia.
Qed.

Lemma can_return_randbelow (n j : nat) :
  j < n → can_return (randbelow n) (λ a, a = j).
Proof.
  intros Hj. exists [j], j. split; [done|]. intros t'.
  simpl. by rewrite Nat.mod_small.
Qed.

Lemma choice_run {A} (seq : list A) (j : nat) (x : A) (t : Tape) :
  seq !! j = Some x → choice seq (j :: t) = Ret x t.
Proof.
  intros Hj. pose proof (lookup_lt_Some _ _ _ Hj) as Hlt.
  destruct seq as [|y seq]; [done|].
  unfold choice, bind, randbelow, ret.
  rewrite Nat.mod_small by done. f_equal. by apply nth_lookup_Some.
Qed.

Lemma can_return_choice {A} (seq : list A) (x : A) :
  x ∈ seq → can_return (choice seq) (λ a, a = x).
Proof.
  intros [j Hj]%list_elem_of_lookup_1. exists [j], x. split; [done|].
  intros t'. by apply choice_run.
Qed.

Lemma can_return_sample_go {A} (k : nat) :
  ∀ pool : list A,
    k ≤ length pool → can_return (sample_go k pool) (λ _, True).
Proof.
  induction k as [|k IH]; intros pool Hk; simpl.
  { by apply can_return_ret. }
  destruct pool as [|a pool]; [simpl in Hk; lia|].
  apply (can_return_bind _ _ (λ j, j = 0)).
  { apply can_return_randbelow. simpl. lia. }
  intros j ->. cbn [lookup list_lookup].
  destruct (last (a :: pool)) as [z|] eqn:Hz;
    [|by apply last_None in Hz].
  apply (can_return_bind _ _ (λ _, True)).
  - apply IH. rewrite length_take, length_insert. simpl in *. lia.
  - intros rest _. by apply can_return_ret.
Qed.

Lemma can_return_sample {A} (population : list A) (k : nat) :
  k ≤ length population →
  can_return (sample population (Z.of_nat k)) (λ _, True).
Proof.
  intros Hk. unfold sample. rewrite bool_decide_eq_true_2 by lia.
  rewrite Nat2Z.id. by apply can_return_sample_go.
Qed.

Lemma can_return_shuffle_go {A} (i : nat) :
  ∀ x : list A, can_return (shuffle_go i x) (λ _, True).
Proof.
  induction i as [|i IH]; intros x; simpl.
  { by apply can_return_ret. }
  apply (can_return_bind _ _ (λ j, j = 0)).
  - apply can_return_randbelow. lia.
  - intros j ->. apply IH.
Qed.

Lemma can_return_shuffle {A} (x : list A) :
  can_return (shuffle x) (λ _, True).
Proof. apply can_return_shuffle_go. Qed.

(** Among more distinct words than there are options, one is not an
    option yet. *)
Lemma exists_fresh (l k : list string) :
  NoDup l → length k < length l →
  ∃ j g, l !! j = Some g ∧ g ∉ k.
Proof.
  intros Hnd Hlen.
  destruct (decide (Forall (λ g, g ∈ k) l)) as [Hall|Hsome].
  - exfalso. rewrite Forall_forall in Hall.
    pose proof (submseteq_length _ _ (NoDup_submseteq _ _ Hnd Hall)). lia.
  - apply not_Forall_Exists in Hsome; [|apply _].
    apply Exists_exists in Hsome as (g & Hg & Hfresh).
    apply list_elem_of_lookup_1 in Hg as [j Hj]. by exists j, g.
Qed.

Lemma generic_options_distinct (tag_prefix : string) :
  NoDup (generic_options tag_prefix) ∧ length (generic_options tag_prefix) = 7.
Proof.
  unfold generic_options.
  repeat case_bool_decide; (split; [|done]);
    by apply (bool_decide_unpack _).
Qed.

(** The padding loop comes to an end on draws that pick, each time, a
    generic word that is not among the options yet. *)
Lemma add_generic_can_return (tag_prefix : string) (n : nat) :
  ∀ options : list string,
    4 - length options ≤ n →
    ∃ t a,
      ∀ t' fuel,
        length t ≤ fuel →
        add_generic fuel tag_prefix options (t ++ t') = Ret a t'.
Proof.
  induction n as [|n IH]; intros options Hn.
  - exists [], options. intros t' fuel _.
    destruct fuel; simpl; by rewrite bool_decide_eq_false_2 by lia.
  - destruct (decide (length options < 4)) as [Hshort|Hfull].
    2:{ exists [], options. intros t' fuel _.
        destruct fuel; simpl; by rewrite bool_decide_eq_false_2 by lia. }
    destruct (generic_options_distinct tag_prefix) as [Hnd Hseven].
    destruct (exists_fresh (generic_options tag_prefix) options Hnd)
      as (j & g & Hj & Hfresh); [lia|].
    destruct (IH (options ++ [g])) as (t & a & Hrun).
    { rewrite length_app. simpl. lia. }
    exists (j :: t), a. intros t' fuel Hfuel.
    destruct fuel as [|fuel]; [simpl in Hfuel; lia|].
    cbn [add_generic]. rewrite bool_decide_eq_true_2 by done.
    unfold bind at 1. cbn [app]. rewrite (choice_run _ _ _ _ Hj).
    rewrite bool_decide_eq_false_2 by done.
    apply Hrun. simpl in Hfuel. lia.
Qed.

Lemma can_return_add_generic (tag_prefix : string) (options : list string) :
  can_return
    (let* fuel := remaining in add_generic fuel tag_prefix options)
    (λ options',
       (length options ≤ 4 → length options' = 4) ∧
       (NoDup options → NoDup options') ∧
       (∀ w, head options = Some w → head options' = Some w)).
Proof.
  eapply can_return_ensures.
  - apply (can_return_remaining _ (λ _, True)).
    destruct (add_generic_can_return tag_prefix (4 - length options) options)
      as (t & a & Hrun); [done|].
    by exists t, a.
  - eapply (ensures_bind _ _ (λ _, True)); [by apply ensures_remaining|].
    intros fuel _. apply ensures_add_generic.
Qed.

Lemma can_return_initial_options (tagged : list (string * string))
    (word tag : string) :
  can_return (initial_options tagged word tag)
    (λ options, head options = Some word ∧ length options ≤ 3).
Proof.
  eapply can_return_ensures; [|apply ensures_initial_options].
  unfold initial_options.
  destruct (similar_words tagged word tag) as [|x similar] eqn:Hsim.
  - by apply (can_return_ret _ (λ _, True)).
  - apply (can_return_bind _ _ (λ _, True)).
    + apply can_return_sample. lia.
    + intros picked _. by apply can_return_ret.
Qed.

(** There are draws on which the question for a chosen word gets built. *)
Lemma can_return_mcq_question (sentence : string)
    (tagged : list (string * string)) (word tag : string) :
  can_return (mcq_question sentence tagged word tag) (λ _, True).
Proof.
  unfold mcq_question.
  eapply can_return_bind; [apply can_return_initial_options|].
  cbv beta. intros options0 [Hhead0 Hlen0].
  change (can_return
    (let* options := (let* fuel := remaining in
                      add_generic fuel (PyStr.take_chars 2 tag) options0) in
     let* options := (let* fuel := remaining in
                      add_generic fuel (PyStr.take_chars 2 tag)
                        (take 4 (fromkeys options))) in
     let* options := shuffle options in
     match index word options with
     | None => raise (ValueError (word +:+ " is not in list"))
     | Some correct_index =>
         ret {| q_question :=
                  "What is the correct word in: '"
                    +:+ PyStr.replace word blank sentence +:+ "'";
                q_type := "mcq";
                q_options := Some options;
                q_correct := Some correct_index;
                q_correct_answer := None |}
     end) (λ _, True)).
  eapply can_return_bind; [apply can_return_add_generic|].
  cbv beta. intros options1 (Hfour1 & _ & Hhead1).
  eapply can_return_bind; [apply can_return_add_generic|].
  cbv beta. intros options2 (_ & _ & Hhead2).
  eapply can_return_bind;
    [eapply can_return_ensures; [apply can_return_shuffle
                                |apply ensures_shuffle]|].
  cbv beta. intros options3 Hperm.
  destruct (index_elem_of word options3) as [i Hi].
  { rewrite Hperm. apply head_elem_of, Hhead2.
    specialize (Hhead1 word Hhead0). specialize (Hfour1 ltac:(lia)).
    rewrite <- head_fromkeys in Hhead1.
    destruct (fromkeys options1); [done|]. exact Hhead1. }
  rewrite Hi. by apply can_return_ret.
Qed.

(** There are draws on which the MCQ loop comes to an end. *)
Lemma can_return_mcq_loop (num_questions : Z) (sentences : list string) :
  ∀ (questions : list Question) (used : gset string),
    can_return (mcq_loop env num_questions sentences questions used)
      (λ _, True).
Proof.
  induction sentences as [|sentence rest IH]; intros questions used;
    cbn [mcq_loop].
  { by apply can_return_ret. }
  destruct (filter _ _) as [|[word tag] more] eqn:Himp; [apply IH|].
  eapply can_return_bind.
  { apply (can_return_choice _ (word, tag)), list_elem_of_here. }
  cbv beta. intros wt ->.
  case_bool_decide; [apply IH|].
  eapply can_return_bind; [apply can_return_mcq_question|].
  cbv beta. intros q _.
  case_bool_decide; [by apply can_return_ret|apply IH].
Qed.

(** For every document that can be read there are draws on which the MCQ
    branch of [generate_quiz] returns. *)
Lemma generate_quiz_mcq_can_return (file_path text : string)
    (num_questions : Z) :
  extract_text env file_path = inr text →
  ∃ t qs, ∀ t',
    generate_quiz env file_path num_questions "mcq" (t ++ t') = Ret qs t'.
Proof.
  intros Htext.
  destruct (can_return_mcq_loop num_questions
              (slice_to (num_questions * 2) (sent_tokenize env text)) [] ∅)
    as (t & qs & _ & Hrun).
  exists t, qs. intros t'. unfold generate_quiz. rewrite Htext.
  rewrite bool_decide_eq_true_2 by done. apply Hrun.
Qed.

(** One round of the fill-in-blank loop takes one draw at most. *)
Lemma fill_blanks_body_returns (sentence : string)
    (questions : list Question) (used : gset string) (d : nat) (t : Tape) :
  ∃ r t',
    fill_blanks_body env sentence questions used (d :: t) = Ret r t' ∧
    length t ≤ length t'.
Proof.
  unfold fill_blanks_body.
  destruct (fill_blanks_important _ _ _) as [|[word i] more] eqn:Himp.
  { eexists _, _. split; [reflexivity|]. simpl. lia. }
  unfold bind at 1.
  change (choice ((word, i) :: more) (d :: t))
    with (Ret (nth (d mod length ((word, i) :: more)) ((word, i) :: more)
                 (word, i)) t).
  destruct (nth _ _ (word, i)) as [word' i'].
  case_bool_decide; eexists _, _; (split; [reflexivity|lia]).
Qed.

(** With one draw for each sentence the fill-in-blank loop comes to an
    end. *)
Lemma fill_blanks_loop_returns (num_questions : Z) (sentences : list string) :
  ∀ (questions : list Question) (used : gset string) (t : Tape),
    length sentences ≤ length t →
    ∃ qs t', fill_blanks_loop env num_questions sentences questions used t
             = Ret qs t'.
Proof.
  induction sentences as [|sentence rest IH]; intros questions used t Hlen;
    cbn [fill_blanks_loop].
  { by exists questions, t. }
  case_bool_decide; [by exists questions, t|].
  destruct t as [|d t]; [simpl in Hlen; lia|].
  destruct (fill_blanks_body_returns sentence questions used d t)
    as ([questions' used'] & t1 & Hbody & Hleft).
  unfold bind at 1. rewrite Hbody. apply IH. simpl in Hlen. lia.
Qed.

Lemma generate_quiz_fill_blanks_returns (file_path text : string)
    (num_questions : Z) (t : Tape) :
  extract_text env file_path = inr text →
  length (sent_tokenize env text) ≤ length t →
  ∃ qs t',
    generate_quiz env file_path num_questions "fill_blanks" t = Ret qs t'.
Proof.
  intros Htext Hlen. unfold generate_quiz. rewrite Htext.
  rewrite bool_decide_eq_false_2 by done.
  rewrite bool_decide_eq_false_2 by done.
  rewrite bool_decide_eq_true_2 by done.
  by apply fill_blanks_loop_returns.
Qed.

(** A true/false run with three draws for each sentence returns a quiz of
    one question for each sentence of [sentences[:num_questions]]. *)
Lemma generate_quiz_true_false_slice (file_path text : string)
    (num_questions : Z) (t : Tape) :
  extract_text env file_path = inr text →
  3 * length (sent_tokenize env text) ≤ length t →
  ∃ qs t',
    generate_quiz env file_path num_questions "true_false" t = Ret qs t' ∧
    length qs = length (slice_to num_questions (sent_tokenize env text)).
Proof.
  intros Htext Hlen.
  pose proof (length_slice_to_le num_questions (sent_tokenize env text))
    as Hslice.
  destruct (true_false_loop_returns
              (slice_to num_questions (sent_tokenize env text)) [] t)
    as (qs & t' & Hrun); [lia|].
  exists qs, t'. unfold generate_quiz. rewrite Htext.
  rewrite bool_decide_eq_false_2 by done.
  rewrite bool_decide_eq_true_2 by done.
  split; [done|].
  by rewrite (ensures_Ret _ _ _ _ _ (ensures_true_false_loop _ []) Hrun).
Qed.

End GeneratorFacts.

(** ** The claims about the generated questions *)

Section GeneratorClaims.
Import PyRandom PyList QuizGenerator.
Local Open Scope rand_scope.

Lemma generate_quiz_mcq_Ret (env : Env) (file_path : string)
    (num_questions : Z) (t t' : Tape) (qs : list Question) :
  generate_quiz env file_path num_questions "mcq" t = Ret qs t' →
  ∃ text words,
    extract_text env file_path = inr text ∧
    Forall2 (mcq_from env (sent_tokenize env text)) qs words ∧
    NoDup (PyStr.lower <$> words).
Proof.
  unfold generate_quiz.
  destruct (extract_text env file_path) as [e|text]; [done|].
  rewrite bool_decide_eq_true_2 by done. intros Hrun.
  destruct (ensures_Ret _ _ _ _ _ (ensures_generate_mcq env num_questions text)
              Hrun) as (words & HR & Hnodup).
  by exists text, words.
Qed.

Lemma generate_quiz_fill_blanks_Ret (env : Env) (file_path : string)
    (num_questions : Z) (t t' : Tape) (qs : list Question) :
  generate_quiz env file_path num_questions "fill_blanks" t = Ret qs t' →
  ∃ text words,
    extract_text env file_path = inr text ∧
    Forall2 (fill_blank_from env (sent_tokenize env text)) qs words ∧
    NoDup (PyStr.lower <$> words).
Proof.
  unfold generate_quiz.
  destruct (extract_text env file_path) as [e|text]; [done|].
  rewrite bool_decide_eq_false_2 by done.
  rewrite bool_decide_eq_false_2 by done.
  rewrite bool_decide_eq_true_2 by done. intros Hrun.
  destruct (ensures_Ret _ _ _ _ _
              (ensures_generate_fill_blanks env num_questions text) Hrun)
    as (words & HR & Hnodup).
  by exists text, words.
Qed.

(** C7. Every question of an MCQ run of [generate_quiz], and the question
    [process_sentence] gives for a sentence, has exactly four options that
    are pairwise distinct, and a correct index below four that points at
    the word taken out of the sentence. *)
Theorem mcq_questions_well_formed :
  (∀ (env : Env) (file_path : string) (num_questions : Z) (t t' : Tape)
     (qs : list Question),
     generate_quiz env file_path num_questions "mcq" t = Ret qs t' →
     ∃ text,
       extract_text env file_path = inr text ∧
       Forall (λ q, ∃ sentence word,
                 sentence ∈ sent_tokenize env text ∧
                 is_mcq_question sentence word q) qs) ∧
  (∀ (env : Env) (sentence : string) (used_words : gset string)
     (t t' : Tape) (q : Question),
     process_sentence env sentence used_words t = Ret (Some q) t' →
     ∃ word, is_mcq_question sentence word q).
Proof.
  split.
  - intros env file_path num_questions t t' qs Hrun.
    apply generate_quiz_mcq_Ret in Hrun as (text & words & Htext & HR & _).
    exists text. split; [done|].
    induction HR as [|q word qs words Hq _ IH]; constructor; [|done].
    destruct Hq as (sentence & tag & Hin & _ & Hq). eauto.
  - intros env sentence used_words t t' q Hrun.
    destruct (ensures_Ret _ _ _ _ _
                (ensures_process_sentence env sentence used_words) Hrun
                q eq_refl) as (word & tag & _ & _ & Hq & _).
    eauto.
Qed.

Lemma mcq_questions_well_formed_witness :
  let run :=
    generate_quiz Sample.generator_env Sample.path 2 "mcq" Sample.tape in
  run = Ret (value_of [] run) (tape_of run) ∧
  length (value_of [] run) = 2 ∧
  Forall (λ q, ∃ sentence word,
            sentence ∈ sent_tokenize Sample.generator_env Sample.text ∧
            is_mcq_question sentence word q) (value_of [] run).
Proof.
  intros run.
  assert (run = Ret (value_of [] run) (tape_of run)) as Hrun
    by (vm_compute; reflexivity).
  split; [exact Hrun|]. split; [vm_compute; reflexivity|].
  destruct (proj1 mcq_questions_well_formed Sample.generator_env Sample.path
              2%Z Sample.tape (tape_of run) (value_of [] run) Hrun)
    as (text & Htext & Hall).
  assert (extract_text Sample.generator_env Sample.path = inr Sample.text)
    as Hsample by (vm_compute; reflexivity).
  rewrite Hsample in Htext. injection Htext as <-. exact Hall.
Defined.

(** C8. In a quiz that [generate_quiz] returns for the MCQ or the
    fill-in-blank type, every question has a correct answer word, and no
    two of these words are equal once put in lower case. *)
Theorem correct_answers_distinct (env : Env) (file_path : string)
    (num_questions : Z) (quiz_type : string) (t t' : Tape)
    (qs : list Question) :
  quiz_type = "mcq" ∨ quiz_type = "fill_blanks" →
  generate_quiz env file_path num_questions quiz_type t = Ret qs t' →
  ∃ words,
    Forall2 (λ q word, correct_word q = Some word) qs words ∧
    NoDup (PyStr.lower <$> words).
Proof.
  intros [-> | ->] Hrun.
  - apply generate_quiz_mcq_Ret in Hrun as (text & words & _ & HR & Hnodup).
    exists words. split; [|done].
    eapply Forall2_impl; [exact HR|]. apply mcq_from_correct_word.
  - apply generate_quiz_fill_blanks_Ret in Hrun
      as (text & words & _ & HR & Hnodup).
    exists words. split; [|done].
    eapply Forall2_impl; [exact HR|]. apply fill_blank_from_correct_word.
Qed.

Lemma correct_answers_distinct_witness :
  let run :=
    generate_quiz Sample.generator_env Sample.path 3 "fill_blanks"
      Sample.tape in
  run = Ret (value_of [] run) (tape_of run) ∧
  length (value_of [] run) = 3 ∧
  ∃ words,
    Forall2 (λ q word, correct_word q = Some word) (value_of [] run) words ∧
    NoDup (PyStr.lower <$> words).
Proof.
  intros run.
  assert (run = Ret (value_of [] run) (tape_of run)) as Hrun
    by (vm_compute; reflexivity).
  split; [exact Hrun|]. split; [vm_compute; reflexivity|].
  exact (correct_answers_distinct Sample.generator_env Sample.path 3%Z
           "fill_blanks" Sample.tape (tape_of run) (value_of [] run)
           (or_intror eq_refl) Hrun).
Defined.

(** C9 (as the code has it). For a sentence with an eligible word, one round
    of the fill-in-blank loop takes the eligible word at the position the
    random draw gives (the first one when the draw gives 0), appends the
    question that has this word as its only option and 0 as correct index,
    whose text is the sentence with the leftmost occurrence of the word
    replaced by the blank marker, and adds the word in lower case to the
    used answers. *)
Theorem fill_blanks_body_selects_eligible (env : Env) (sentence : string)
    (questions : list Question) (used : gset string) (d : nat) (t : Tape) :
  eligible env sentence used ≠ [] →
  ∃ word i tag,
    eligible env sentence used !! (d mod length (eligible env sentence used))
      = Some (word, i) ∧
    pos_tag env (word_tokenize env sentence) !! i = Some (word, tag) ∧
    important env used word tag = true ∧
    (d mod length (eligible env sentence used) = 0 →
     first_eligible env sentence used = Some word) ∧
    fill_blanks_body env sentence questions used (d :: t) =
      Ret (questions ++ [fill_blank_question sentence word],
           {[PyStr.lower word]} ∪ used) t ∧
    q_options (fill_blank_question sentence word) = Some [word] ∧
    correct_word (fill_blank_question sentence word) = Some word ∧
    (∀ pre post,
       leftmost_occurrence word pre post sentence →
       q_question (fill_blank_question sentence word) = pre +:+ blank +:+ post).
Proof.
  intros Hne. unfold first_eligible, fill_blanks_body.
  fold (eligible env sentence used).
  destruct (eligible env sentence used) as [|wi0 more] eqn:Hel; [done|].
  set (j := d mod length (wi0 :: more)).
  assert (j < length (wi0 :: more)) as Hj
    by (apply Nat.mod_upper_bound; simpl; lia).
  destruct (lookup_lt_is_Some_2 _ _ Hj) as [[word i] Hwi].
  exists word, i.
  assert ((word, i) ∈ eligible env sentence used) as Hin
    by (rewrite Hel; by eapply list_elem_of_lookup_2).
  apply elem_of_fill_blanks_important in Hin as (tag & Hi & Himp).
  exists tag. split; [done|]. split; [done|]. split; [done|]. split.
  { intros Hzero. rewrite Hzero in Hwi. simpl in Hwi. by injection Hwi as ->. }
  split.
  - unfold choice, bind, randbelow, ret. fold j.
    rewrite (nth_lookup_Some _ _ _ _ Hwi).
    by rewrite bool_decide_eq_false_2 by (by eapply important_not_used).
  - split; [done|]. split; [done|].
    intros pre post [-> Hfirst]. simpl. by apply replace_first_leftmost.
Qed.

Lemma fill_blanks_body_selects_eligible_witness :
  fill_blanks_body Sample.generator_env Sample.sentence [] ∅ [1] =
    Ret ([fill_blank_question Sample.sentence "jumps"],
         {[PyStr.lower "jumps"]} ∪ ∅) [] ∧
  q_question (fill_blank_question Sample.sentence "jumps")
    = "The quick fox _____ over the lazy dog.".
Proof.
  destruct (fill_blanks_body_selects_eligible Sample.generator_env
              Sample.sentence [] ∅ 1 [])
    as (word & i & tag & Hword & _ & _ & _ & Hrun & _ & _ & Htext).
  { vm_compute. discriminate. }
  assert (eligible Sample.generator_env Sample.sentence ∅
            !! (1 mod length (eligible Sample.generator_env Sample.sentence ∅))
          = Some ("jumps", 3)) as Hsample by (vm_compute; reflexivity).
  rewrite Hsample in Hword. injection Hword as <- <-.
  split; [exact Hrun|].
  apply (Htext "The quick fox " " over the lazy dog.").
  split; [reflexivity|].
  intros k Hk. do 14 (destruct k as [|k]; [reflexivity|]).
  simpl in Hk. lia.
Defined.

(** C9 as stated fails: with the draw 1 the word taken from the sample
    sentence is [jumps], and the first eligible word is [quick]. *)
Lemma fill_blanks_body_not_first :
  first_eligible Sample.generator_env Sample.sentence ∅ = Some "quick" ∧
  ¬ selects_first_eligible Sample.generator_env Sample.sentence [] ∅ [1].
Proof.
  assert (first_eligible Sample.generator_env Sample.sentence ∅ = Some "quick")
    as Hfirst by (vm_compute; reflexivity).
  split; [exact Hfirst|]. intros Hclaim.
  destruct (Hclaim "quick" Hfirst) as [t' Hrun].
  assert (fill_blanks_body Sample.generator_env Sample.sentence [] ∅ [1] =
          Ret ([fill_blank_question Sample.sentence "jumps"],
               {[PyStr.lower "jumps"]} ∪ ∅) []) as Hcode
    by (vm_compute; reflexivity).
  rewrite Hcode in Hrun.
  apply (f_equal (λ o, head (value_of ([], ∅) o).1 ≫= q_options)) in Hrun.
  discriminate Hrun.
Qed.

(** C2 (as the code has it). The two generative strategies fail with the
    not-enough-content error when the text gives fewer meaningful sentences
    or paragraphs than questions are asked for. [generate_quiz] has no such
    check: on a text it could extract and a supported type it raises
    nothing, whatever the draws. A true/false run that has its draws returns
    one question for each sentence of [sentences[:num_questions]], which is
    as many as asked for or as there are sentences, whichever is less, when
    the number asked for is not negative; a fill-in-blank run that has its
    draws returns; and for the MCQ branch there are always draws on which it
    returns (its padding loop ends when it draws a word that is not among
    the options yet). *)
Theorem insufficient_content_policy :
  (∀ (env : ObjectiveTest.Env) (text : string) (num_questions : Z) (t : Tape),
     (Z.of_nat (length (ObjectiveTest.preprocess_text env text))
      < num_questions)%Z →
     ObjectiveTest.generate_test env text num_questions t
     = Raise ObjectiveTest.InsufficientContentError t) ∧
  (∀ (env : SubjectiveTest.Env) (text : string) (num_questions : Z) (t : Tape),
     (Z.of_nat (length (SubjectiveTest.preprocess_text env text))
      < num_questions)%Z →
     SubjectiveTest.generate_test env text num_questions t
     = Raise SubjectiveTest.InsufficientContentError t) ∧
  (∀ (env : Env) (file_path text : string) (num_questions : Z)
     (quiz_type : string) (t : Tape) (e : exn) (t' : Tape),
     extract_text env file_path = inr text →
     quiz_type ∈ ["mcq"; "true_false"; "fill_blanks"] →
     generate_quiz env file_path num_questions quiz_type t ≠ Raise e t') ∧
  (∀ (env : Env) (file_path text : string) (num_questions : Z) (t : Tape),
     extract_text env file_path = inr text →
     3 * length (sent_tokenize env text) ≤ length t →
     ∃ qs t',
       generate_quiz env file_path num_questions "true_false" t = Ret qs t' ∧
       length qs
       = length (slice_to num_questions (sent_tokenize env text)) ∧
       ((0 <= num_questions)%Z →
        Z.of_nat (length qs)
        = Z.min num_questions (Z.of_nat (length (sent_tokenize env text))))) ∧
  (∀ (env : Env) (file_path text : string) (num_questions : Z) (t : Tape),
     extract_text env file_path = inr text →
     length (sent_tokenize env text) ≤ length t →
     ∃ qs t',
       generate_quiz env file_path num_questions "fill_blanks" t
       = Ret qs t') ∧
  (∀ (env : Env) (file_path text : string) (num_questions : Z),
     extract_text env file_path = inr text →
     ∃ t qs, ∀ t',
       generate_quiz env file_path num_questions "mcq" (t ++ t')
       = Ret qs t').
Proof.
  split; [|split; [|split; [|split; [|split]]]].
  - intros env text n t Hshort.
    unfold ObjectiveTest.generate_test, try_except.
    by rewrite bool_decide_eq_true_2.
  - intros env text n t Hshort.
    unfold SubjectiveTest.generate_test, try_except.
    by rewrite bool_decide_eq_true_2.
  - intros env file_path text n quiz_type t e t' Htext Htype Hrun.
    pose proof (ensures_generate_quiz env file_path text n quiz_type Htext
                  Htype t) as Hens.
    by rewrite Hrun in Hens.
  - intros env file_path text n t Htext Hlen.
    destruct (generate_quiz_true_false_slice env file_path text n t Htext
                Hlen) as (qs & t' & Hrun & Hqs).
    exists qs, t'. split; [done|]. split; [done|].
    intros Hn. rewrite Hqs. by apply length_slice_to.
  - apply generate_quiz_fill_blanks_returns.
  - apply generate_quiz_mcq_can_return.
Qed.

Lemma insufficient_content_policy_witness :
  ObjectiveTest.generate_test Sample.objective_env Sample.text 1 []
    = Raise ObjectiveTest.InsufficientContentError [] ∧
  SubjectiveTest.generate_test Sample.subjective_env Sample.text 2 []
    = Raise SubjectiveTest.InsufficientContentError [] ∧
  (∀ e t',
     generate_quiz Sample.generator_env Sample.short_path 3 "mcq" Sample.tape
     ≠ Raise e t') ∧
  (∃ qs t',
     generate_quiz Sample.generator_env Sample.short_path 3 "true_false"
       [0; 0; 0] = Ret qs t' ∧
     Z.of_nat (length qs) = 1%Z) ∧
  (∃ qs t',
     generate_quiz Sample.generator_env Sample.short_path 3 "fill_blanks"
       [0] = Ret qs t') ∧
  (∃ t qs, ∀ t',
     generate_quiz Sample.generator_env Sample.short_path 3 "mcq" (t ++ t')
     = Ret qs t').
Proof.
  destruct insufficient_content_policy
    as (Hobjective & Hsubjective & Hquiet & Hshort & Hblanks & Hmcq).
  split; [|split; [|split; [|split; [|split]]]].
  - apply (Hobjective Sample.objective_env Sample.text 1%Z []).
    vm_compute. reflexivity.
  - apply (Hsubjective Sample.subjective_env Sample.text 2%Z []).
    vm_compute. reflexivity.
  - intros e t'.
    apply (Hquiet Sample.generator_env Sample.short_path "Cats sleep" 3%Z
             "mcq" Sample.tape e t').
    + vm_compute. reflexivity.
    + apply elem_of_cons. by left.
  - destruct (Hshort Sample.generator_env Sample.short_path "Cats sleep" 3%Z
                [0; 0; 0]) as (qs & t' & Hrun & _ & Hmin).
    + vm_compute. reflexivity.
    + vm_compute. lia.
    + exists qs, t'. split; [exact Hrun|]. rewrite Hmin by lia.
      vm_compute. reflexivity.
  - apply (Hblanks Sample.generator_env Sample.short_path "Cats sleep" 3%Z
             [0]).
    + vm_compute. reflexivity.
    + vm_compute. lia.
  - apply (Hmcq Sample.generator_env Sample.short_path "Cats sleep" 3%Z).
    vm_compute. reflexivity.
Defined.

(** C2 as stated fails: the sample document of one sentence, asked for three
    true/false questions, gives a quiz of one question and no error. *)
Lemma generate_quiz_short_quiz :
  generate_quiz Sample.generator_env Sample.short_path 3 "true_false" [0]
    = Ret [ {| q_question := "Cats sleep";
               q_type := "true_false";
               q_options := None;
               q_correct := Some 0;
               q_correct_answer := None |} ] [] ∧
  ¬ fails_on_short_text Sample.generator_env Sample.short_path 3
      "true_false" [0].
Proof.
  assert (generate_quiz Sample.generator_env Sample.short_path 3 "true_false"
            [0]
          = Ret [ {| q_question := "Cats sleep";
                     q_type := "true_false";
                     q_options := None;
                     q_correct := Some 0;
                     q_correct_answer := None |} ] []) as Hcode
    by (vm_compute; reflexivity).
  split; [exact Hcode|]. intros Hclaim.
  destruct (Hclaim "Cats sleep") as (e & t' & Hrun).
  - vm_compute. reflexivity.
  - vm_compute. reflexivity.
  - rewrite Hcode in Hrun. discriminate Hrun.
Qed.

(** C6. With an empty context, for a tokenizer that finds no token in the
    empty text, [generate_distractors] returns the three fallbacks
    [Not <answer>], [None of the above], [All of the above] in this order,
    and raises nothing. *)
Theorem generate_distractors_empty_context (env : ObjectiveTest.Env)
    (answer : string) (t : Tape) :
  ObjectiveTest.word_tokenize env "" = [] →
  ObjectiveTest.generate_distractors env answer "" t =
  Ret ["Not " +:+ answer; "None of the above"; "All of the above"] t.
Proof.
  intros Hempty. unfold ObjectiveTest.generate_distractors, try_except.
  simpl. rewrite Hempty. reflexivity.
Qed.

Lemma generate_distractors_empty_context_witness :
  ObjectiveTest.generate_distractors Sample.objective_env "Paris" "" [] =
  Ret ["Not Paris"; "None of the above"; "All of the above"] [].
Proof.
  exact (generate_distractors_empty_context Sample.objective_env "Paris" []
           eq_refl).
Defined.

End GeneratorClaims.

(** * Further properties *)

(** ** The sweep and the creation of quizzes *)

Section StoreSweep.
Import QuizStore.

Lemma get_quiz_ext (s1 s2 : t) (now : Z) (code : string) :
  quizzes s1 !! code = quizzes s2 !! code →
  get_quiz s1 now code = get_quiz s2 now code.
Proof. intros Heq. unfold get_quiz. by rewrite Heq. Qed.

Lemma not_elem_of_expired_codes (s : t) (now : Z) (code : string) :
  (∀ quiz, quizzes s !! code = Some quiz → (now < expires_at quiz)%Z) →
  code ∉ expired_codes s now.
Proof.
  intros Hlive (quiz & Hquiz & Hexp)%elem_of_expired_codes.
  specialize (Hlive quiz Hquiz). lia.
Qed.

Lemma sweep_preserves_get_quiz (s : t) (now now' : Z) (code : string) :
  (now <= now')%Z →
  get_quiz (cleanup_expired_quizzes s now) now' code = get_quiz s now' code.
Proof.
  intros Hlater. unfold get_quiz, cleanup_expired_quizzes. simpl.
  rewrite cleanup_codes_quizzes. case_bool_decide as Hin; [|done].
  apply elem_of_expired_codes in Hin as (quiz & -> & Hexp).
  rewrite bool_decide_eq_false_2; [done|lia].
Qed.

(** The sweep changes nothing of what [get_quiz] answers from then on: what
    it takes out of the active map had expired. *)
Theorem cleanup_preserves_get_quiz (s : t) (now now' : Z) (code : string) :
  (now <= now')%Z →
  get_quiz (cleanup_expired_quizzes s now) now' code = get_quiz s now' code.
Proof.
  intros Hlater. unfold get_quiz, cleanup_expired_quizzes. simpl.
  rewrite cleanup_codes_quizzes. case_bool_decide as Hin; [|done].
  apply elem_of_expired_codes in Hin as (quiz & -> & Hexp).
  rewrite bool_decide_eq_false_2; [done|lia].
Qed.

Lemma cleanup_preserves_get_quiz_witness :
  get_quiz (cleanup_expired_quizzes Sample.store Sample.minute)
    (2 * Sample.minute) "AB12CD34"
  = get_quiz Sample.store (2 * Sample.minute) "AB12CD34".
Proof.
  apply (cleanup_preserves_get_quiz Sample.store Sample.minute
           (2 * Sample.minute) "AB12CD34").
  vm_compute. discriminate.
Defined.

Lemma sweep_keeps_unexpired (s : t) (now : Z) (code : string) :
  (∀ quiz, quizzes s !! code = Some quiz → (now < expires_at quiz)%Z) →
  let s' := cleanup_expired_quizzes s now in
  quizzes s' !! code = quizzes s !! code ∧
  store_submissions s' !! code = store_submissions s !! code ∧
  expired_quizzes s' !! code = expired_quizzes s !! code.
Proof.
  intros Hlive%not_elem_of_expired_codes s'.
  unfold s', cleanup_expired_quizzes. simpl.
  rewrite cleanup_codes_quizzes, cleanup_codes_submissions,
    cleanup_codes_expired.
  by rewrite !bool_decide_eq_false_2.
Qed.

(** The sweep leaves a quiz that has not expired, its stored responses and
    the archive entry of its code as they are. *)
Theorem cleanup_keeps_unexpired (s : t) (now : Z) (code : string) :
  (∀ quiz, quizzes s !! code = Some quiz → (now < expires_at quiz)%Z) →
  let s' := cleanup_expired_quizzes s now in
  quizzes s' !! code = quizzes s !! code ∧
  store_submissions s' !! code = store_submissions s !! code ∧
  expired_quizzes s' !! code = expired_quizzes s !! code.
Proof.
  intros Hlive%not_elem_of_expired_codes s'.
  unfold s', cleanup_expired_quizzes. simpl.
  rewrite cleanup_codes_quizzes, cleanup_codes_submissions,
    cleanup_codes_expired.
  by rewrite !bool_decide_eq_false_2.
Qed.

Lemma cleanup_keeps_unexpired_witness :
  let s' := cleanup_expired_quizzes Sample.store Sample.minute in
  quizzes s' !! "AB12CD34" = quizzes Sample.store !! "AB12CD34" ∧
  store_submissions s' !! "AB12CD34"
    = store_submissions Sample.store !! "AB12CD34" ∧
  expired_quizzes s' !! "AB12CD34" = expired_quizzes Sample.store !! "AB12CD34".
Proof.
  apply (cleanup_keeps_unexpired Sample.store Sample.minute "AB12CD34").
  intros quiz Hquiz. unfold Sample.store in Hquiz.
  rewrite create_quiz_lookup in Hquiz. injection Hquiz as <-.
  vm_compute. reflexivity.
Defined.

(** The sweep also drops the stored responses of every quiz it takes out:
    [get_quiz_responses] gives the empty list for the code afterwards. *)
Theorem cleanup_drops_responses (s : t) (now : Z) (code : string)
    (quiz : Quiz) :
  quizzes s !! code = Some quiz →
  (expires_at quiz <= now)%Z →
  get_quiz_responses (cleanup_expired_quizzes s now) code = [].
Proof.
  intros Hquiz Hexp. unfold get_quiz_responses, cleanup_expired_quizzes.
  simpl. rewrite cleanup_codes_submissions.
  rewrite bool_decide_eq_true_2; [done|].
  apply elem_of_expired_codes. eauto.
Qed.

Lemma expired_codes_after_cleanup (s : t) (now : Z) :
  expired_codes (cleanup_expired_quizzes s now) now = [].
Proof.
  destruct (expired_codes (cleanup_expired_quizzes s now) now)
    as [|code codes] eqn:Hcodes; [done|].
  assert (code ∈ expired_codes (cleanup_expired_quizzes s now) now) as Hin
    by (rewrite Hcodes; apply elem_of_cons; by left).
  apply elem_of_expired_codes in Hin as (quiz & Hquiz & Hexp).
  unfold cleanup_expired_quizzes in Hquiz. simpl in Hquiz.
  rewrite cleanup_codes_quizzes in Hquiz.
  case_bool_decide as Hold; [done|].
  exfalso. apply Hold. apply elem_of_expired_codes. eauto.
Qed.

(** A second sweep at the same instant changes nothing. *)
Theorem cleanup_idempotent (s : t) (now : Z) :
  cleanup_expired_quizzes (cleanup_expired_quizzes s now) now
  = cleanup_expired_quizzes s now.
Proof.
  unfold cleanup_expired_quizzes at 1.
  rewrite expired_codes_after_cleanup. done.
Qed.

(** Creating a quiz changes nothing of what [get_quiz] answers for another
    code, then and later, even when the creation runs the sweep. *)
Theorem create_quiz_preserves_others (s : t) (clock : Clock) (now' : Z)
    (code code' : string) (qs : list Question) (qtype by_ : string) :
  code' ≠ code →
  (sweep_now clock <= now')%Z →
  get_quiz (create_quiz s clock code qs qtype by_).1 now' code'
  = get_quiz s now' code'.
Proof.
  intros Hne Hlater. unfold create_quiz. simpl.
  case_bool_decide.
  - rewrite <- (sweep_preserves_get_quiz s (sweep_now clock) now' code'
                  Hlater).
    apply get_quiz_ext. simpl. by rewrite lookup_insert_ne.
  - apply get_quiz_ext. simpl. by rewrite lookup_insert_ne.
Qed.

Lemma create_quiz_preserves_others_witness :
  get_quiz (create_quiz Sample.store Sample.later "ZZ99ZZ99" [] "mcq"
              "teacher").1 (2 * Sample.minute) "AB12CD34"
  = get_quiz Sample.store (2 * Sample.minute) "AB12CD34".
Proof.
  apply (create_quiz_preserves_others Sample.store Sample.later
           (2 * Sample.minute) "ZZ99ZZ99" "AB12CD34" [] "mcq" "teacher").
  - discriminate.
  - vm_compute. discriminate.
Defined.

(** [create_quiz] does not check the code it is given against the codes in
    use: on a code that holds a quiz which has not expired, the new quiz
    takes the place of the old one and starts with no attempt, while the
    responses stored for the code stay those of the old quiz. *)
Theorem create_quiz_replaces_on_collision (s : t) (clock : Clock)
    (code : string) (old : Quiz) (qs : list Question) (qtype by_ : string) :
  quizzes s !! code = Some old →
  (sweep_now clock < expires_at old)%Z →
  let s' := (create_quiz s clock code qs qtype by_).1 in
  ∃ quiz,
    quizzes s' !! code = Some quiz ∧
    questions quiz = qs ∧
    submissions quiz = [] ∧
    total_attempts quiz = 0%Z ∧
    get_quiz_responses s' code = get_quiz_responses s code.
Proof.
  intros Hold Hlive s'. eexists. split; [apply create_quiz_lookup|].
  repeat split. unfold s', get_quiz_responses, create_quiz. simpl.
  case_bool_decide; [|done]. simpl.
  destruct (sweep_keeps_unexpired s (sweep_now clock) code)
    as (_ & Hsubs & _).
  { intros quiz Hquiz. rewrite Hold in Hquiz. by injection Hquiz as <-. }
  unfold cleanup_expired_quizzes in Hsubs. simpl in Hsubs. by rewrite Hsubs.
Qed.

End StoreSweep.

(** ** Submissions *)

Section StoreSubmit.
Import QuizStore.

Lemma cleanup_drops_responses_witness :
  get_quiz_responses
    (cleanup_expired_quizzes Sample.busy_store (Sample.day + Sample.minute))
    "AB12CD34" = [].
Proof.
  apply (cleanup_drops_responses Sample.busy_store
           (Sample.day + Sample.minute) "AB12CD34" Sample.busy_quiz).
  - vm_compute. reflexivity.
  - vm_compute. discriminate.
Defined.

Lemma create_quiz_replaces_on_collision_witness :
  let s' := (create_quiz Sample.busy_store Sample.much_later "AB12CD34" []
               "mcq" "teacher").1 in
  ∃ quiz,
    quizzes s' !! "AB12CD34" = Some quiz ∧
    questions quiz = [] ∧
    submissions quiz = [] ∧
    total_attempts quiz = 0%Z ∧
    get_quiz_responses s' "AB12CD34"
      = get_quiz_responses Sample.busy_store "AB12CD34".
Proof.
  apply (create_quiz_replaces_on_collision Sample.busy_store
           Sample.much_later "AB12CD34" Sample.busy_quiz [] "mcq" "teacher").
  - vm_compute. reflexivity.
  - vm_compute. reflexivity.
Defined.

(** [zip] pairs every question with an answer when they are as many. *)
Lemma correct_answers_inr (qs : list Question) :
  ∀ answers : list string,
    length answers = length qs →
    Forall (λ q, is_Some (q_correct_answer q)) qs →
    ∃ pairs,
      correct_answers qs answers = inr pairs ∧
      pairs.*2 = answers ∧
      Forall2 (λ q ca, q_correct_answer q = Some ca.1) qs pairs.
Proof.
  induction qs as [|q qs IH]; intros [|a answers] Hlen Hall;
    simplify_eq/=.
  { by exists []. }
  apply Forall_cons in Hall as [[c Hc] Hall].
  destruct (IH answers Hlen Hall) as (pairs & Hpairs & Hsnd & Hfst).
  exists ((c, a) :: pairs). rewrite Hc, Hpairs. simpl.
  split; [done|]. split; [f_equal; exact Hsnd|]. by constructor.
Qed.

Lemma correct_answers_inl (qs : list Question) :
  ∀ answers : list string,
    length answers = length qs →
    Exists (λ q, q_correct_answer q = None) qs →
    correct_answers qs answers = inl (KeyError "correct_answer").
Proof.
  induction qs as [|q qs IH]; intros [|a answers] Hlen Hex;
    simplify_eq/=.
  { by apply Exists_nil in Hex. }
  destruct (q_correct_answer q) as [c|] eqn:Hc; [|done].
  apply Exists_cons in Hex as [Hq|Hex]; [congruence|].
  by rewrite (IH answers Hlen Hex).
Qed.

(** What a call of [submit_quiz] on an active quiz comes to: the count
    error when the answers are not as many as the questions; otherwise
    [KeyError] when a question has no [correct_answer]; otherwise
    [ZeroDivisionError] when the quiz has no question; a response in every
    other case. *)
Theorem submit_quiz_outcome (s : t) (now : Z) (code name : string)
    (answers : list string) (quiz : Quiz) :
  get_quiz s now code = Some quiz →
  let outcome := (submit_quiz s now code name answers).2 in
  (length answers ≠ length (questions quiz) →
   outcome = inl AnswerCountMismatchError) ∧
  (length answers = length (questions quiz) →
   Exists (λ q, q_correct_answer q = None) (questions quiz) →
   outcome = inl (KeyError "correct_answer")) ∧
  (length answers = length (questions quiz) →
   questions quiz = [] →
   outcome = inl ZeroDivisionError) ∧
  (length answers = length (questions quiz) →
   questions quiz ≠ [] →
   Forall (λ q, is_Some (q_correct_answer q)) (questions quiz) →
   ∃ r, outcome = inr r).
Proof.
  intros Hget outcome. unfold outcome, submit_quiz. rewrite Hget. simpl.
  repeat split.
  - intros Hlen. by rewrite bool_decide_eq_false_2.
  - intros Hlen Hex. rewrite bool_decide_eq_true_2 by done. simpl.
    by rewrite (correct_answers_inl _ _ Hlen Hex).
  - intros Hlen Hnil. rewrite bool_decide_eq_true_2 by done. simpl.
    rewrite Hnil in *. by destruct answers.
  - intros Hlen Hne Hall. rewrite bool_decide_eq_true_2 by done. simpl.
    destruct (correct_answers_inr _ _ Hlen Hall) as (pairs & -> & _ & _).
    destruct (questions quiz); [done|]. by eexists.
Qed.

Lemma submit_quiz_outcome_witness :
  ∃ r,
    (submit_quiz Sample.store Sample.minute "AB12CD34" "Ann"
       ["paris"; "Quick"]).2 = inr r.
Proof.
  destruct (submit_quiz_outcome Sample.store Sample.minute "AB12CD34" "Ann"
              ["paris"; "Quick"] Sample.quiz) as (_ & _ & _ & Hreturns).
  - unfold get_quiz, Sample.store. rewrite create_quiz_lookup. reflexivity.
  - apply Hreturns.
    + reflexivity.
    + discriminate.
    + repeat constructor; by eexists.
Defined.

Lemma submit_quiz_appends (s : t) (now : Z) (code name : string)
    (answers : list string) (quiz : Quiz) :
  get_quiz s now code = Some quiz →
  get_quiz_responses (submit_quiz s now code name answers).1 code
  = get_quiz_responses s code
      ++ [{| sub_student_name := name; sub_answers := answers;
             sub_timestamp := now |}].
Proof.
  intros Hquiz. unfold submit_quiz. rewrite Hquiz.
  simpl. unfold get_quiz_responses at 1.
  case_bool_decide; simpl.
  - destruct (correct_answers _ _); simpl; [by rewrite lookup_insert_eq|].
    destruct (questions quiz); simpl; by rewrite lookup_insert_eq.
  - by rewrite lookup_insert_eq.
Qed.

(** A call on a code that holds no active quiz changes nothing in the store;
    a call on an active quiz appends its submission to the responses stored
    for the code, whether it then raises or returns. *)
Theorem submit_quiz_records (s : t) (now : Z) (code name : string)
    (answers : list string) :
  let s' := (submit_quiz s now code name answers).1 in
  match get_quiz s now code with
  | None => s' = s
  | Some _ =>
      get_quiz_responses s' code =
      get_quiz_responses s code
        ++ [{| sub_student_name := name; sub_answers := answers;
               sub_timestamp := now |}]
  end.
Proof.
  unfold submit_quiz. destruct (get_quiz s now code) as [quiz|]; [|done].
  simpl. unfold get_quiz_responses at 1.
  case_bool_decide; simpl.
  - destruct (correct_answers _ _); simpl; [by rewrite lookup_insert_eq|].
    destruct (questions quiz); simpl; by rewrite lookup_insert_eq.
  - by rewrite lookup_insert_eq.
Qed.

(** A call of [submit_quiz] on one code leaves the quizzes and the responses
    of every other code, and the whole archive, as they are. *)
Theorem submit_quiz_preserves_others (s : t) (now : Z)
    (code code' name : string) (answers : list string) :
  code' ≠ code →
  let s' := (submit_quiz s now code name answers).1 in
  quizzes s' !! code' = quizzes s !! code' ∧
  store_submissions s' !! code' = store_submissions s !! code' ∧
  expired_quizzes s' = expired_quizzes s.
Proof.
  intros Hne. unfold submit_quiz.
  destruct (get_quiz s now code) as [quiz|]; [|done]. simpl.
  case_bool_decide; simpl.
  - destruct (correct_answers _ _); simpl;
      [by rewrite !lookup_insert_ne|].
    destruct (questions quiz); simpl; by rewrite !lookup_insert_ne.
  - by rewrite !lookup_insert_ne.
Qed.

Lemma submit_quiz_preserves_others_witness :
  let s' := (submit_quiz Sample.store Sample.minute "AB12CD34" "Ann"
               ["paris"; "Quick"]).1 in
  quizzes s' !! "ZZ99ZZ99" = quizzes Sample.store !! "ZZ99ZZ99" ∧
  store_submissions s' !! "ZZ99ZZ99"
    = store_submissions Sample.store !! "ZZ99ZZ99" ∧
  expired_quizzes s' = expired_quizzes Sample.store.
Proof.
  apply (submit_quiz_preserves_others Sample.store Sample.minute "AB12CD34"
           "ZZ99ZZ99" "Ann" ["paris"; "Quick"]).
  discriminate.
Defined.

End StoreSubmit.

(** ** Scores *)

Section StoreScores.
Import QuizStore.

(** A call that returns: the quiz, the pairs that [zip] made, and the
    response built from them. *)
Lemma submit_quiz_inr (s : t) (now : Z) (code name : string)
    (answers : list string) (s' : t) (r : Response) :
  submit_quiz s now code name answers = (s', inr r) →
  ∃ quiz pairs,
    get_quiz s now code = Some quiz ∧
    length answers = length (questions quiz) ∧
    questions quiz ≠ [] ∧
    correct_answers (questions quiz) answers = inr pairs ∧
    r = {| r_student_name := name;
           r_submission_time := now;
           r_score := length (filter (λ ca, is_correct ca) pairs);
           r_score_percentage :=
             score_percentage_of
               (length (filter (λ ca, is_correct ca) pairs))
               (length (questions quiz));
           r_total_questions := length (questions quiz);
           r_answers := answers;
           r_feedback := imap feedback_of pairs |}.
Proof.
  unfold submit_quiz. destruct (get_quiz s now code) as [quiz|]; [|done].
  simpl. case_bool_decide as Hlen; simpl; [|done].
  destruct (correct_answers _ _) as [e|pairs] eqn:Hpairs; [done|].
  destruct (questions quiz) as [|q qs] eqn:Hqs; [done|].
  intros [= <- <-]. exists quiz, pairs. rewrite Hqs. by repeat split.
Qed.

(** What [zip] pairs: as many answers as there are questions, in order. *)
Lemma correct_answers_pairs (qs : list Question) :
  ∀ (answers : list string) (pairs : list (string * string)),
    correct_answers qs answers = inr pairs →
    pairs.*2 = take (length qs) answers ∧
    Forall2 (λ q ca, q_correct_answer q = Some ca.1)
      (take (length answers) qs) pairs.
Proof.
  induction qs as [|q qs IH]; intros [|a answers] pairs Hpairs;
    simplify_eq/=; try by (split; [done|constructor]).
  destruct (q_correct_answer q) as [c|] eqn:Hc; [|done].
  destruct (correct_answers qs answers) as [e|rest] eqn:Hrest; [done|].
  injection Hpairs as <-. destruct (IH answers rest Hrest) as [Hsnd Hfst].
  split; [simpl; f_equal; exact Hsnd|]. by constructor.
Qed.


Lemma score_percentage_bounds (correct n : nat) :
  correct ≤ n → 0 < n →
  (0 <= score_percentage_of correct n <= 100)%Q.
Proof.
  intros Hle Hpos. unfold score_percentage_of.
  assert (0 < inject_Z (Z.of_nat n))%Q as Hn
    by (unfold Qlt; simpl; lia).
  assert (0 <= inject_Z (Z.of_nat correct) / inject_Z (Z.of_nat n))%Q as H0.
  { apply Qle_shift_div_l; [done|]. unfold Qle. simpl. lia. }
  assert (inject_Z (Z.of_nat correct) / inject_Z (Z.of_nat n) <= 1)%Q as H1.
  { apply Qle_shift_div_r; [done|]. unfold Qle. simpl. lia. }
  split; lra.
Qed.

Lemma submit_quiz_percentage_bounds (s : t) (now : Z) (code name : string)
    (answers : list string) (s' : t) (r : Response) :
  submit_quiz s now code name answers = (s', inr r) →
  (0 <= r_score_percentage r <= 100)%Q.
Proof.
  intros (quiz & pairs & _ & Hlen & Hne & Hpairs & ->)%submit_quiz_inr.
  simpl. destruct (correct_answers_pairs _ _ _ Hpairs) as [Hsnd _].
  rewrite <- Hlen, take_ge in Hsnd by lia.
  assert (length pairs = length (questions quiz)) as Hplen
    by (by rewrite <- Hlen, <- Hsnd, length_fmap).
  apply score_percentage_bounds.
  - rewrite <- Hplen. apply length_filter.
  - destruct (questions quiz); [done|]. simpl. lia.
Qed.



End StoreScores.

(** ** Right answers, the running average and the statistics *)

Section StoreStats.
Import QuizStore.

Lemma correct_answers_all_correct (qs : list Question)
    (answers : list string) :
  Forall2 (λ q a, ∃ c, q_correct_answer q = Some c
                       ∧ PyStr.lower a = PyStr.lower c) qs answers →
  ∃ pairs,
    correct_answers qs answers = inr pairs ∧
    filter (λ ca, is_correct ca) pairs = pairs ∧
    length pairs = length qs.
Proof.
  induction 1 as [|q a qs answers (c & Hc & Hlow) _ (pairs & Hp & Hf & Hl)].
  { by exists []. }
  exists ((c, a) :: pairs). simpl. rewrite Hc, Hp.
  split; [done|]. split; [|by rewrite Hl].
  rewrite filter_cons_True; [by rewrite Hf|].
  unfold is_correct. simpl. by rewrite bool_decide_eq_true_2.
Qed.

Lemma score_percentage_full (n : nat) :
  0 < n → (score_percentage_of n n == 100)%Q.
Proof.
  intros Hn. unfold score_percentage_of. field.
  unfold Qeq. simpl. lia.
Qed.

(** Answering every question of an active quiz with its correct answer, in
    whatever letter case, scores all the questions and 100 percent. *)
Theorem submit_quiz_all_correct (s : t) (now : Z) (code name : string)
    (answers : list string) (quiz : Quiz) :
  get_quiz s now code = Some quiz →
  questions quiz ≠ [] →
  Forall2 (λ q a, ∃ c, q_correct_answer q = Some c
                       ∧ PyStr.lower a = PyStr.lower c)
    (questions quiz) answers →
  ∃ s' r,
    submit_quiz s now code name answers = (s', inr r) ∧
    r_score r = length (questions quiz) ∧
    (r_score_percentage r == 100)%Q.
Proof.
  intros Hget Hne Hall.
  pose proof (Forall2_length _ _ _ Hall) as Hlen.
  destruct (correct_answers_all_correct _ _ Hall) as (pairs & Hp & Hf & Hl).
  unfold submit_quiz. rewrite Hget. simpl.
  rewrite bool_decide_eq_true_2 by done. simpl. rewrite Hp.
  destruct (questions quiz) as [|q qs] eqn:Hqs; [done|].
  eexists _, _. split; [reflexivity|].
  cbn [r_score r_score_percentage]. rewrite Hf, Hl.
  split; [done|]. apply score_percentage_full. simpl. lia.
Qed.

Lemma submit_quiz_all_correct_witness :
  ∃ s' r,
    submit_quiz Sample.store Sample.minute "AB12CD34" "Ann"
      ["PARIS"; "Quick"] = (s', inr r) ∧
    r_score r = 2 ∧
    (r_score_percentage r == 100)%Q.
Proof.
  apply (submit_quiz_all_correct Sample.store Sample.minute "AB12CD34" "Ann"
           ["PARIS"; "Quick"] Sample.quiz).
  - unfold get_quiz, Sample.store. rewrite create_quiz_lookup. reflexivity.
  - discriminate.
  - repeat constructor; eexists; (split; [reflexivity|]);
      vm_compute; reflexivity.
Defined.

(** A call on an active quiz that raises leaves the store as it was once
    the submission was recorded. *)
Lemma submit_quiz_inl (s : t) (now : Z) (code name : string)
    (answers : list string) (quiz : Quiz) (s' : t) (e : exn) :
  get_quiz s now code = Some quiz →
  submit_quiz s now code name answers = (s', inl e) →
  s' = (record_submission s code quiz
          {| sub_student_name := name; sub_answers := answers;
             sub_timestamp := now |}).1.
Proof.
  intros Hget. unfold submit_quiz. rewrite Hget.
  destruct (record_submission _ _ _ _) as [s1 quiz1].
  case_bool_decide; simpl.
  - destruct (correct_answers _ _); [by intros [= <- _]|].
    destruct (questions quiz1); [by intros [= <- _]|done].
  - by intros [= <- _].
Qed.

Lemma running_average_bounds (average p : Q) (n : Z) :
  (0 <= n)%Z →
  (0 <= average <= 100)%Q → (0 <= p <= 100)%Q →
  (0 <= (average * inject_Z (n + 1 - 1) + p) / inject_Z (n + 1) <= 100)%Q.
Proof.
  intros Hn [Ha0 Ha1] [Hp0 Hp1].
  replace (n + 1 - 1)%Z with n by lia.
  assert (0 <= inject_Z n)%Q as Hn0 by (unfold Qle; simpl; lia).
  assert (0 < inject_Z (n + 1))%Q as Hn1 by (unfold Qlt; simpl; lia).
  assert (inject_Z (n + 1) == inject_Z n + 1)%Q as Hsucc
    by (rewrite inject_Z_plus; reflexivity).
  assert (0 <= average * inject_Z n)%Q as Hlow
    by (by apply Qmult_le_0_compat).
  assert (average * inject_Z n <= 100 * inject_Z n)%Q as Hhigh
    by (by apply Qmult_le_compat_r).
  split.
  - apply Qle_shift_div_l; [done|]. lra.
  - apply Qle_shift_div_r; [done|]. rewrite Hsucc. lra.
Qed.

(** Whatever a call of [submit_quiz] comes to, it keeps the number of
    attempts of the quiz non-negative and its average score between 0 and
    100. *)
Theorem average_score_within_bounds (s : t) (now : Z) (code name : string)
    (answers : list string) (quiz : Quiz) :
  quizzes s !! code = Some quiz →
  (0 <= total_attempts quiz)%Z →
  (0 <= average_score quiz <= 100)%Q →
  ∃ quiz',
    quizzes (submit_quiz s now code name answers).1 !! code = Some quiz' ∧
    (0 <= total_attempts quiz')%Z ∧
    (0 <= average_score quiz' <= 100)%Q.
Proof.
  intros Hquiz Hn Havg.
  destruct (submit_quiz s now code name answers) as [s' [e|r]] eqn:Hrun.
  - destruct (get_quiz s now code) as [quiz0|] eqn:Hget.
    2:{ unfold submit_quiz in Hrun. rewrite Hget in Hrun.
        injection Hrun as <- _. by exists quiz. }
    pose proof (submit_quiz_inl _ _ _ _ _ _ _ _ Hget Hrun) as ->.
    apply get_quiz_Some in Hget. rewrite Hquiz in Hget.
    injection Hget as <-.
    pose proof (record_submission_lookup s code quiz
      {| sub_student_name := name; sub_answers := answers;
         sub_timestamp := now |}) as Hrec.
    destruct (record_submission _ _ _ _) as [s1 quiz1].
    destruct Hrec as (Hs1 & _ & _ & _ & _ & Hatt & Hav).
    exists quiz1. split; [done|]. by rewrite Hatt, Hav.
  - pose proof Hrun as Hresp.
    apply submit_quiz_percentage_bounds in Hresp as Hp.
    apply submit_quiz_success in Hrun
      as (quiz0 & quiz' & Hget & Hquiz' & Hatt & Hav).
    apply get_quiz_Some in Hget. rewrite Hquiz in Hget.
    injection Hget as <-.
    exists quiz'. split; [done|]. split; [lia|].
    rewrite Hav, Hatt. by apply running_average_bounds.
Qed.

Lemma average_score_within_bounds_witness :
  ∃ quiz',
    quizzes (submit_quiz Sample.store Sample.minute "AB12CD34" "Bob"
               ["Paris"; "slow"]).1 !! "AB12CD34" = Some quiz' ∧
    (0 <= total_attempts quiz')%Z ∧
    (0 <= average_score quiz' <= 100)%Q.
Proof.
  apply (average_score_within_bounds Sample.store Sample.minute "AB12CD34"
           "Bob" ["Paris"; "slow"] Sample.quiz).
  - apply create_quiz_lookup.
  - reflexivity.
  - split; vm_compute; discriminate.
Defined.

End StoreStats.

(** ** The statistics *)

Section StoreStatistics.
Import QuizStore.
Context (round1 : Q → Q).


Lemma score_submissions_cons (qs : list Question) (sub : Submission)
    (rest : list Submission) (pairs : list (string * string))
    (scored : list (Submission * nat * Q)) :
  correct_answers qs (sub_answers sub) = inr pairs →
  qs ≠ [] →
  score_submissions qs rest = inr scored →
  score_submissions qs (sub :: rest) =
  inr ((sub, length (filter (λ ca, is_correct ca) pairs),
        score_percentage_of (length (filter (λ ca, is_correct ca) pairs))
          (length qs)) :: scored).
Proof.
  intros Hpairs Hne Hscored. cbn [score_submissions].
  rewrite Hpairs, Hscored. by destruct qs.
Qed.





Lemma py_sum_foldl (l : list Q) (a : Q) :
  (foldl Qplus a l == a + sum_Q l)%Q.
Proof.
  revert a. induction l as [|x l IH]; intros a; simpl.
  - ring.
  - rewrite IH. ring.
Qed.

Lemma py_sum_sum_Q (l : list Q) : (py_sum l == sum_Q l)%Q.
Proof. unfold py_sum. rewrite py_sum_foldl. ring. Qed.

(** Along a run of calls that all return, the responses stored for the code
    are the submissions of the calls, and scoring them again gives the
    percentages of the responses. *)
Lemma submit_all_scored (code : string)
    (calls : list (Z * string * list string)) :
  ∀ (s s' : t) (rs : list Response) (quiz : Quiz),
    quizzes s !! code = Some quiz →
    submit_all s code calls = Some (s', rs) →
    ∃ quiz' scored,
      quizzes s' !! code = Some quiz' ∧
      questions quiz' = questions quiz ∧
      expires_at quiz' = expires_at quiz ∧
      score_submissions (questions quiz) scored.*1.*1 = inr scored ∧
      get_quiz_responses s' code = get_quiz_responses s code ++ scored.*1.*1 ∧
      scored.*2 = r_score_percentage <$> rs.
Proof.
  induction calls as [|[[now name] answers] calls IH];
    intros s s' rs quiz Hquiz Hrun; simpl in Hrun.
  { injection Hrun as <- <-. exists quiz, []. by rewrite app_nil_r. }
  destruct (submit_quiz s now code name answers) as [s1 [e|r]] eqn:Hsub;
    [done|].
  destruct (submit_all s1 code calls) as [[s2 rs']|] eqn:Hrest; [|done].
  injection Hrun as <- <-.
  pose proof Hsub as Hinr.
  apply submit_quiz_inr in Hinr
    as (quiz0 & pairs & Hget & Hlen & Hne & Hpairs & ->).
  pose proof (submit_quiz_appends s now code name answers quiz0 Hget) as Hrec.
  rewrite Hsub in Hrec. simpl in Hrec.
  apply get_quiz_Some in Hget. rewrite Hquiz in Hget. injection Hget as <-.
  assert (∃ quiz1, quizzes s1 !! code = Some quiz1
                   ∧ questions quiz1 = questions quiz
                   ∧ expires_at quiz1 = expires_at quiz) as (quiz1 & H1 & Hq1 & He1).
  { unfold submit_quiz in Hsub.
    destruct (get_quiz s now code) as [quiz0|] eqn:Hget; [|done].
    apply get_quiz_Some in Hget. rewrite Hquiz in Hget. injection Hget as <-.
    simpl in Hsub. rewrite bool_decide_eq_true_2 in Hsub by done.
    simpl in Hsub. rewrite Hpairs in Hsub.
    destruct (questions quiz) eqn:Hqs; [done|].
    apply (f_equal fst) in Hsub. cbn [fst] in Hsub. subst s1.
    eexists. simpl. rewrite lookup_insert_eq. by repeat split. }
  destruct (IH s1 s2 rs' quiz1 H1 Hrest)
    as (quiz2 & scored & H2 & Hq2 & He2 & Hscored & Hresp & Hpct).
  exists quiz2,
    (({| sub_student_name := name; sub_answers := answers;
         sub_timestamp := now |},
      length (filter (λ ca, is_correct ca) pairs),
      score_percentage_of (length (filter (λ ca, is_correct ca) pairs))
        (length (questions quiz))) :: scored).
  split; [done|]. split; [congruence|]. split; [congruence|].
  split; [|split].
  - rewrite Hq1 in Hscored. rewrite !fmap_cons. cbn [fst].
    by apply score_submissions_cons.
  - rewrite Hresp, Hrec, <- app_assoc. done.
  - rewrite !fmap_cons. cbn [snd r_score_percentage]. by rewrite Hpct.
Qed.

(** On a quiz that had no attempt and no stored response, after a run of
    calls that all return, [get_quiz_stats] (asked before the quiz expires)
    counts as many attempts as the quiz does, and the average it rounds is,
    in exact arithmetic, the running [average_score] of the quiz. *)
Theorem get_quiz_stats_agrees_with_average (s : t) (code : string)
    (calls : list (Z * string * list string)) (s' : t) (rs : list Response)
    (quiz : Quiz) (now : Z) :
  quizzes s !! code = Some quiz →
  total_attempts quiz = 0%Z →
  get_quiz_responses s code = [] →
  submit_all s code calls = Some (s', rs) →
  rs ≠ [] →
  (now < expires_at quiz)%Z →
  ∃ quiz' st m,
    quizzes s' !! code = Some quiz' ∧
    get_quiz_stats round1 s' now code = inr (Some st) ∧
    st_total_attempts st = length rs ∧
    Z.of_nat (st_total_attempts st) = total_attempts quiz' ∧
    st_average_score st = round1 m ∧
    (m == average_score quiz')%Q.
Proof.
  intros Hquiz Hzero Hnone Hrun Hrs Hlive.
  destruct (submit_all_scored code calls s s' rs quiz Hquiz Hrun)
    as (quiz' & scored & Hquiz' & Hqs & Hexp & Hscored & Hresp & Hpct).
  destruct (submit_all_sum code calls s s' rs quiz Hquiz ltac:(lia) Hrun)
    as (quiz'' & Hquiz'' & Hatt & Havg).
  rewrite Hquiz' in Hquiz''. injection Hquiz'' as <-.
  rewrite Hnone in Hresp. simpl in Hresp.
  assert (length scored = length rs) as Hlen
    by (by rewrite <- (length_fmap snd scored), Hpct, length_fmap).
  unfold get_quiz_responses in Hresp.
  destruct (scored.*1.*1) as [|sub subs] eqn:Hsubs.
  { apply (f_equal length) in Hsubs. rewrite !length_fmap in Hsubs.
    destruct rs; [done|]. simpl in *. lia. }
  exists quiz'. eexists. eexists. split; [done|].
  unfold get_quiz_stats, get_quiz. rewrite Hquiz', Hexp.
  rewrite bool_decide_eq_true_2 by done.
  rewrite Hresp, Hqs, Hscored.
  split; [reflexivity|]. simpl.
  assert (length (sub :: subs) = length rs) as Hcount
    by (by rewrite <- Hsubs, !length_fmap).
  split; [exact Hcount|]. split; [simpl in Hcount; lia|].
  split; [reflexivity|].
  rewrite py_sum_sum_Q, Hpct, length_fmap.
  rewrite Hzero in Havg, Hatt. simpl in Hatt. rewrite Hatt in Havg.
  assert (¬ (inject_Z (Z.of_nat (length rs)) == 0)%Q) as Hnz.
  { destruct rs; [done|]. unfold Qeq. simpl. lia. }
  apply (Qmult_inj_r _ _ _ Hnz). rewrite Havg. field. done.
Qed.

End StoreStatistics.

(** ** Examples for the statistics, and fresh codes *)

Section StoreCodes.
Import QuizStore PyRandom.


Lemma get_quiz_stats_agrees_with_average_witness :
  ∃ quiz' st m,
    quizzes Sample.busy_store !! "AB12CD34" = Some quiz' ∧
    get_quiz_stats Qred Sample.busy_store (3 * Sample.minute) "AB12CD34"
      = inr (Some st) ∧
    st_total_attempts st = 2 ∧
    Z.of_nat (st_total_attempts st) = total_attempts quiz' ∧
    st_average_score st = Qred m ∧
    (m == average_score quiz')%Q.
Proof.
  apply (get_quiz_stats_agrees_with_average Qred Sample.store "AB12CD34"
           Sample.calls Sample.busy_store Sample.busy_responses Sample.quiz
           (3 * Sample.minute)).
  - apply create_quiz_lookup.
  - reflexivity.
  - vm_compute. reflexivity.
  - vm_compute. reflexivity.
  - vm_compute. discriminate.
  - vm_compute. reflexivity.
Defined.

Lemma ensures_choices {A} (population : list A) (k : nat) :
  population ≠ [] →
  ensures (choices population k) (λ l, length l = k).
Proof.
  intros Hne. induction k as [|k IH]; simpl.
  - by apply ensures_ret.
  - eapply ensures_bind; [by apply ensures_choice|]. intros a _.
    eapply ensures_bind; [exact IH|]. intros rest Hrest.
    apply ensures_ret. simpl. by rewrite Hrest.
Qed.

Lemma length_string_of_chars (chars : list ascii) :
  String.length (string_of_chars chars) = length chars.
Proof. induction chars as [|c chars IH]; simpl; [done|by rewrite IH]. Qed.

Lemma length_string_app (s1 s2 : string) :
  String.length (s1 +:+ s2) = String.length s1 + String.length s2.
Proof. induction s1 as [|c s1 IH]; simpl; [done|by rewrite IH]. Qed.

Lemma length_take_chars (n : nat) (s : string) :
  String.length (PyStr.take_chars n s) = n `min` String.length s.
Proof.
  revert s. induction n as [|n IH]; intros [|c s]; simpl; [done..|].
  by rewrite IH.
Qed.

(** The loop keeps the shape of the code: the prefix and six more
    characters. *)
Lemma ensures_respin (s : t) (fuel : nat) :
  ∀ rest : string,
    String.length rest = 6 →
    ensures (respin fuel s (code_prefix +:+ rest))
      (λ code, quizzes s !! code = None ∧
               ∃ rest', code = code_prefix +:+ rest'
                        ∧ String.length rest' = 6).
Proof.
  induction fuel as [|fuel IH]; intros rest Hrest; cbn [respin].
  - destruct (quizzes s !! _) eqn:Hcode; [apply ensures_starve|].
    apply ensures_ret. eauto.
  - destruct (quizzes s !! _) eqn:Hcode; [|apply ensures_ret; eauto].
    eapply ensures_bind; [by apply ensures_choice|]. intros c _.
    assert (PyStr.take_chars (String.length (code_prefix +:+ rest) - 1)
              (code_prefix +:+ rest) +:+ String c EmptyString
            = code_prefix +:+ (PyStr.take_chars 5 rest +:+ String c EmptyString))
      as ->.
    { rewrite length_string_app, Hrest. reflexivity. }
    apply IH. rewrite length_string_app, length_take_chars, Hrest. done.
Qed.

(** A code that [generate_unique_code] returns is the key of no quiz of the
    store, and is made of the prefix [QZ] and six more characters. *)
Theorem generate_unique_code_fresh (s : t) (now : Z) (t0 t1 : Tape)
    (code : string) :
  generate_unique_code s now t0 = Ret code t1 →
  quizzes s !! code = None ∧
  String.length code = 8 ∧
  PyStr.startswith code "QZ" = true.
Proof.
  intros Hrun.
  assert (ensures (generate_unique_code s now)
            (λ code, quizzes s !! code = None ∧
                     ∃ rest', code = code_prefix +:+ rest'
                              ∧ String.length rest' = 6)) as Hens.
  { unfold generate_unique_code.
    eapply ensures_bind; [by apply ensures_choices|].
    intros random_part Hlen.
    eapply (ensures_bind _ _ (λ _, True)); [by apply ensures_remaining|].
    intros fuel _.
    change (code_prefix +:+ string_of_chars random_part
              +:+ two_digits (Z.to_nat ((now / 1000) mod 100)))
      with (code_prefix +:+ (string_of_chars random_part
              +:+ two_digits (Z.to_nat ((now / 1000) mod 100)))).
    apply ensures_respin.
    by rewrite length_string_app, length_string_of_chars, Hlen. }
  destruct (ensures_Ret _ _ _ _ _ Hens Hrun) as (Hfresh & rest & -> & Hrest).
  split; [done|]. split.
  - by rewrite length_string_app, Hrest.
  - unfold PyStr.startswith, code_prefix.
    change ("QZ" +:+ rest) with (String "Q" (String "Z" rest)).
    simpl. by destruct rest.
Qed.

Lemma generate_unique_code_fresh_witness :
  let run := generate_unique_code Sample.store 1234567890 [3; 12; 35; 0] in
  quizzes Sample.store !! value_of "" run = None ∧
  String.length (value_of "" run) = 8 ∧
  PyStr.startswith (value_of "" run) "QZ" = true.
Proof.
  intros run.
  apply (generate_unique_code_fresh Sample.store 1234567890 [3; 12; 35; 0]
           (tape_of run) (value_of "" run)).
  vm_compute. reflexivity.
Defined.

End StoreCodes.

(** ** More on the question strategies *)

Section GeneratorExtras.
Import PyRandom PyList QuizGenerator.
Local Open Scope rand_scope.

Lemma Ret_bind_inv {A B} (m : M A) (k : A → M B) (t t' : Tape) (b : B) :
  bind m k t = Ret b t' → ∃ a t1, m t = Ret a t1 ∧ k a t1 = Ret b t'.
Proof. unfold bind. destruct (m t) as [a t1| |]; [eauto|done..]. Qed.

(** [generate_quiz] raises in two cases only: the extraction of the text
    raised, or the quiz type is none of the three it knows. *)
Theorem generate_quiz_raises (env : Env) (file_path : string)
    (num_questions : Z) (quiz_type : string) (t t' : Tape) (e : exn) :
  generate_quiz env file_path num_questions quiz_type t = Raise e t' ↔
  t' = t ∧
  (extract_text env file_path = inl e ∨
   ∃ text,
     extract_text env file_path = inr text ∧
     (quiz_type ∉ ["mcq"; "true_false"; "fill_blanks"]) ∧
     e = ValueError ("Unsupported quiz type: " +:+ quiz_type)).
Proof.
  split.
  - intros Hrun.
    destruct (extract_text env file_path) as [e0|text] eqn:Htext.
    { unfold generate_quiz in Hrun. rewrite Htext in Hrun.
      injection Hrun as <- <-. eauto. }
    destruct (decide (quiz_type ∈ ["mcq"; "true_false"; "fill_blanks"]))
      as [Hin|Hout].
    { pose proof (ensures_generate_quiz env file_path text num_questions
                    quiz_type Htext Hin t) as Hens.
      by rewrite Hrun in Hens. }
    unfold generate_quiz in Hrun. rewrite Htext in Hrun.
    rewrite !bool_decide_eq_false_2 in Hrun.
    + injection Hrun as <- <-. split; [done|]. right. by exists text.
    + intros ->. apply Hout. do 2 (apply elem_of_cons; right).
      by apply list_elem_of_singleton.
    + intros ->. apply Hout. apply elem_of_cons; right.
      apply elem_of_cons. by left.
    + intros ->. apply Hout. apply elem_of_cons. by left.
  - intros [-> [Htext|(text & Htext & Hout & ->)]];
      unfold generate_quiz; rewrite Htext; [done|].
    rewrite !bool_decide_eq_false_2; [done|..].
    + intros ->. apply Hout. do 2 (apply elem_of_cons; right).
      by apply list_elem_of_singleton.
    + intros ->. apply Hout. apply elem_of_cons; right.
      apply elem_of_cons. by left.
    + intros ->. apply Hout. apply elem_of_cons. by left.
Qed.

(** *** How many questions *)

Lemma ensures_mcq_loop_length (env : Env) (num_questions : Z)
    (sentences : list string) :
  ∀ (questions : list Question) (used : gset string),
    (Z.of_nat (length questions) < num_questions)%Z →
    ensures (mcq_loop env num_questions sentences questions used)
      (λ qs, (Z.of_nat (length qs) <= num_questions)%Z ∧
             length qs ≤ length questions + length sentences).
Proof.
  induction sentences as [|sentence rest IH]; intros questions used Hlt;
    cbn [mcq_loop].
  { apply ensures_ret. simpl. lia. }
  assert (∀ qs : list Question,
            (Z.of_nat (length qs) <= num_questions)%Z
            ∧ length qs ≤ length questions + length rest →
            (Z.of_nat (length qs) <= num_questions)%Z
            ∧ length qs ≤ length questions + length (sentence :: rest))
    as Hweak by (simpl; lia).
  destruct (filter _ _) as [|wt0 more] eqn:Himp.
  { eapply ensures_weaken; [by apply IH|exact Hweak]. }
  eapply ensures_bind; [by apply ensures_choice|].
  intros [word tag] _. case_bool_decide.
  { eapply ensures_weaken; [by apply IH|exact Hweak]. }
  eapply ensures_bind; [apply ensures_mcq_question|]. intros q _.
  case_bool_decide.
  - apply ensures_ret. rewrite length_app. simpl. lia.
  - eapply ensures_weaken; [apply IH; lia|].
    intros qs. rewrite length_app. simpl. lia.
Qed.

Lemma ensures_fill_blanks_loop_length (env : Env) (num_questions : Z)
    (sentences : list string) :
  ∀ (questions : list Question) (used : gset string),
    (Z.of_nat (length questions) <= num_questions)%Z →
    ensures (fill_blanks_loop env num_questions sentences questions used)
      (λ qs, (Z.of_nat (length qs) <= num_questions)%Z ∧
             length qs ≤ length questions + length sentences).
Proof.
  induction sentences as [|sentence rest IH]; intros questions used Hle;
    cbn [fill_blanks_loop].
  { apply ensures_ret. simpl. lia. }
  case_bool_decide; [apply ensures_ret; simpl; lia|].
  eapply ensures_bind; [apply ensures_fill_blanks_body|].
  intros [questions' used'] [[= -> ->]|(word & tag & _ & _ & [= -> ->])].
  - eapply ensures_weaken; [by apply IH|]. simpl. lia.
  - eapply ensures_weaken; [apply IH; rewrite length_app; simpl; lia|].
    intros qs. rewrite length_app. simpl. lia.
Qed.

(** A quiz that [generate_quiz] returns has no more questions than were
    asked for, and no more than the text has sentences. *)
Theorem generate_quiz_length (env : Env) (file_path : string)
    (num_questions : Z) (quiz_type : string) (t t' : Tape)
    (qs : list Question) :
  (0 <= num_questions)%Z →
  generate_quiz env file_path num_questions quiz_type t = Ret qs t' →
  ∃ text,
    extract_text env file_path = inr text ∧
    (Z.of_nat (length qs) <= num_questions)%Z ∧
    length qs ≤ length (sent_tokenize env text).
Proof.
  intros Hn. unfold generate_quiz.
  destruct (extract_text env file_path) as [e|text]; [done|].
  intros Hrun. exists text. split; [done|].
  pose proof (length_slice_to_le num_questions (sent_tokenize env text)).
  pose proof (length_slice_to_le (num_questions * 2) (sent_tokenize env text)).
  repeat case_bool_decide.
  - destruct (decide (num_questions = 0%Z)) as [->|Hpos].
    { simpl in Hrun. injection Hrun as <- _. simpl. lia. }
    pose proof (ensures_Ret _ _ _ _ _
      (ensures_mcq_loop_length env num_questions _ [] ∅ ltac:(simpl; lia))
      Hrun) as [? ?].
    simpl in *. lia.
  - pose proof (ensures_Ret _ _ _ _ _ (ensures_true_false_loop _ []) Hrun)
      as Hlen.
    pose proof (length_slice_to num_questions (sent_tokenize env text) Hn).
    simpl in Hlen. lia.
  - pose proof (ensures_Ret _ _ _ _ _
      (ensures_fill_blanks_loop_length env num_questions _ [] ∅
         ltac:(simpl; lia)) Hrun) as [? ?].
    simpl in *. lia.
  - done.
Qed.

Lemma generate_quiz_length_witness :
  let run :=
    generate_quiz Sample.generator_env Sample.path 2 "fill_blanks"
      Sample.tape in
  ∃ text,
    extract_text Sample.generator_env Sample.path = inr text ∧
    (Z.of_nat (length (value_of [] run)) <= 2)%Z ∧
    length (value_of [] run) ≤ length (sent_tokenize Sample.generator_env text).
Proof.
  intros run.
  apply (generate_quiz_length Sample.generator_env Sample.path 2%Z
           "fill_blanks" Sample.tape (tape_of run) (value_of [] run)).
  - lia.
  - vm_compute. reflexivity.
Defined.

(** *** True/false questions *)

Lemma ensures_randint (a b : nat) :
  a ≤ b → ensures (randint a b) (λ x, a ≤ x ≤ b).
Proof.
  intros Hab. unfold randint.
  eapply ensures_bind; [apply ensures_randbelow; lia|].
  intros j Hj. apply ensures_ret. cbv beta in *. lia.
Qed.

Lemma ensures_true_false_content (sentences : list string) :
  ∀ questions : list Question,
    ensures (true_false_loop sentences questions)
      (λ qs, ∃ new, qs = questions ++ new
                    ∧ Forall2 true_false_of sentences new).
Proof.
  induction sentences as [|sentence rest IH]; intros questions;
    cbn [true_false_loop].
  { apply ensures_ret. exists []. by rewrite app_nil_r. }
  eapply ensures_bind; [by apply ensures_choice|]. intros correct _.
  eapply (ensures_bind _ _
            (λ sentence',
               true_false_of sentence
                 {| q_question := sentence';
                    q_type := "true_false";
                    q_options := None;
                    q_correct := Some (if correct then 0 else 1);
                    q_correct_answer := None |})).
  - destruct correct; cbn [negb].
    { apply ensures_ret. repeat split. by left. }
    case_bool_decide as Hlong.
    + eapply ensures_bind; [apply ensures_randint; lia|]. intros pos Hpos.
      eapply ensures_bind; [by apply ensures_choice|]. intros w Hw.
      apply ensures_ret. repeat split. right. split; [done|].
      split; [intros; lia|]. intros _. exists pos, w.
      cbv beta in *. repeat split; [lia|done].
    + apply ensures_ret. repeat split. right. split; [done|].
      split; [done|]. intros; lia.
  - intros sentence' Hq. eapply ensures_weaken; [apply IH|].
    intros qs (new & -> & Hnew). eexists (_ :: new).
    rewrite <- app_assoc. split; [done|]. by constructor.
Qed.



Lemma falsify_unchanged (tagged : list (string * string)) (s : string) :
  Forall (λ wt, has_antonym wt = false) tagged → falsify tagged s = s.
Proof.
  induction 1 as [|[word tag] tagged Hwt _ IH]; [done|]. cbn [falsify].
  unfold has_antonym in Hwt. cbn [fst snd] in Hwt.
  destruct (_ || _ || _); [|done].
  destruct (antonym_of _ _) as [a|] eqn:Ha; [|done].
  rewrite bool_decide_eq_true_2 in Hwt; [done|by eexists].
Qed.

Lemma falsify_first (pre post : list (string * string)) (word tag s : string) :
  Forall (λ wt, has_antonym wt = false) pre →
  has_antonym (word, tag) = true →
  ∃ antonym,
    antonym_of (PyStr.lower word) antonyms = Some antonym ∧
    falsify (pre ++ (word, tag) :: post) s = PyStr.replace word antonym s.
Proof.
  intros Hpre Hword.
  unfold has_antonym in Hword. cbn [fst snd] in Hword.
  apply andb_true_iff in Hword as [Htag [antonym Ha]%bool_decide_eq_true].
  exists antonym. split; [done|].
  induction Hpre as [|[w tg] pre Hwt _ IH].
  - cbn [app falsify]. by rewrite Htag, Ha.
  - change (((w, tg) :: pre) ++ (word, tag) :: post)
      with ((w, tg) :: (pre ++ (word, tag) :: post)).
    cbn [falsify].
    unfold has_antonym in Hwt. cbn [fst snd] in Hwt.
    destruct (_ || _ || _); [|done].
    destruct (antonym_of (PyStr.lower w) antonyms) as [a|] eqn:Haw; [|done].
    rewrite bool_decide_eq_true_2 in Hwt; [done|by eexists].
Qed.

Lemma ensures_antonym_questions (env : Env) (num_questions : Z)
    (sentences : list string) :
  ∀ questions : list Question,
    (Z.of_nat (length questions + length sentences) <= num_questions)%Z →
    ensures (true_false_questions_loop env num_questions sentences questions)
      (λ qs, ∃ new, qs = questions ++ new
                    ∧ Forall2 (antonym_question_of env) sentences new).
Proof.
  induction sentences as [|sentence rest IH]; intros questions Hle;
    cbn [true_false_questions_loop].
  { apply ensures_ret. exists []. by rewrite app_nil_r. }
  eapply ensures_bind; [by apply ensures_choice|]. intros correct _.
  assert (antonym_question_of env sentence
            {| q_question :=
                 if negb correct
                 then falsify (pos_tag env (word_tokenize env sentence))
                        sentence
                 else sentence;
               q_type := "true_false";
               q_options := None;
               q_correct := Some (if correct then 0 else 1);
               q_correct_answer := None |}) as Hq.
  { repeat split. destruct correct; [by left|by right]. }
  case_bool_decide as Hfull.
  - apply ensures_ret. eexists [_]. split; [done|].
    rewrite length_app in Hfull. simpl in Hfull, Hle.
    destruct rest; [|simpl in Hle; lia].
    constructor; [exact Hq|constructor].
  - eapply ensures_weaken.
    { apply IH. rewrite length_app. simpl in *. lia. }
    intros qs (new & -> & Hnew). eexists (_ :: new).
    rewrite <- app_assoc. split; [done|]. by constructor.
Qed.

(** For [num_questions >= 0], [generate_true_false_questions] gives one
    question for each of the first [num_questions] sentences, in order: a
    question labelled true is its sentence word for word; one labelled false
    is its sentence after the antonym substitution, which replaces the first
    adjective, adverb or verb that has an entry in the table by its
    antonym, and leaves the sentence unchanged, still labelled false, when
    no token has one. *)
Theorem generate_true_false_questions_content (env : Env) (text : string)
    (num_questions : Z) (t t' : Tape) (qs : list Question) :
  (0 <= num_questions)%Z →
  generate_true_false_questions env text num_questions t = Ret qs t' →
  Forall2 (antonym_question_of env)
    (slice_to num_questions (sent_tokenize env text)) qs ∧
  (∀ tagged s,
     Forall (λ wt, has_antonym wt = false) tagged → falsify tagged s = s) ∧
  (∀ pre post word tag s,
     Forall (λ wt, has_antonym wt = false) pre →
     has_antonym (word, tag) = true →
     ∃ antonym,
       antonym_of (PyStr.lower word) antonyms = Some antonym ∧
       falsify (pre ++ (word, tag) :: post) s = PyStr.replace word antonym s).
Proof.
  intros Hn Hrun. split; [|split; [apply falsify_unchanged|apply falsify_first]].
  unfold generate_true_false_questions in Hrun.
  pose proof (length_slice_to num_questions (sent_tokenize env text) Hn)
    as Hslice.
  assert (Z.of_nat (length (@nil Question)
                    + length (slice_to num_questions (sent_tokenize env text)))
          <= num_questions)%Z as Hle.
  { change (length (@nil Question)) with 0. rewrite Nat.add_0_l. lia. }
  by destruct (ensures_Ret _ _ _ _ _
       (ensures_antonym_questions env num_questions _ [] Hle) Hrun)
    as (new & -> & Hnew).
Qed.

Lemma generate_true_false_questions_content_witness :
  let text := "The large fox is quick. Cats sleep. This is new." in
  let run :=
    generate_true_false_questions Sample.generator_env text 3 [1; 0; 1] in
  Forall2 (antonym_question_of Sample.generator_env)
    (slice_to 3 (sent_tokenize Sample.generator_env text))
    (value_of [] run) ∧
  q_question <$> value_of [] run
  = ["The small fox is quick."; "Cats sleep."; "This is new."].
Proof.
  intros text run.
  destruct (generate_true_false_questions_content Sample.generator_env text
              3%Z [1; 0; 1] (tape_of run) (value_of [] run))
    as (Hall & _ & _).
  - lia.
  - vm_compute. reflexivity.
  - split; [exact Hall|]. vm_compute. reflexivity.
Defined.

(** *** Generated questions and the store *)

Lemma mcq_question_no_key (sentence : string)
    (tagged : list (string * string)) (word tag : string) (t t' : Tape)
    (q : Question) :
  mcq_question sentence tagged word tag t = Ret q t' →
  q_correct_answer q = None.
Proof.
  unfold mcq_question. intros Hrun.
  repeat (apply Ret_bind_inv in Hrun as (? & ? & _ & Hrun)).
  destruct (index _ _); [|done]. by injection Hrun as <- _.
Qed.

Lemma mcq_loop_no_key (env : Env) (num_questions : Z)
    (sentences : list string) :
  ∀ (questions : list Question) (used : gset string) (t t' : Tape)
    (qs : list Question),
    Forall (λ q, q_correct_answer q = None) questions →
    mcq_loop env num_questions sentences questions used t = Ret qs t' →
    Forall (λ q, q_correct_answer q = None) qs.
Proof.
  induction sentences as [|sentence rest IH];
    intros questions used t t' qs Hall Hrun; cbn [mcq_loop] in Hrun.
  { by injection Hrun as <- _. }
  destruct (filter _ _) as [|wt0 more]; [by eapply IH|].
  apply Ret_bind_inv in Hrun as ([word tag] & t1 & _ & Hrun).
  case_bool_decide; [by eapply IH|].
  apply Ret_bind_inv in Hrun as (q & t2 & Hq & Hrun).
  apply mcq_question_no_key in Hq.
  assert (Forall (λ q, q_correct_answer q = None) (questions ++ [q]))
    as Hall' by (apply Forall_app; split; [done|by constructor]).
  case_bool_decide; [by injection Hrun as <- _|]. by eapply IH.
Qed.

(** No question that [generate_quiz] returns has the [correct_answer] key
    that the store reads. *)
Lemma generate_quiz_no_key (env : Env) (file_path : string)
    (num_questions : Z) (quiz_type : string) (t t' : Tape)
    (qs : list Question) :
  generate_quiz env file_path num_questions quiz_type t = Ret qs t' →
  Forall (λ q, q_correct_answer q = None) qs.
Proof.
  intros Hrun.
  destruct (decide (quiz_type = "mcq")) as [->|Hmcq].
  { unfold generate_quiz in Hrun.
    destruct (extract_text env file_path); [done|].
    rewrite bool_decide_eq_true_2 in Hrun by done.
    by eapply mcq_loop_no_key. }
  destruct (decide (quiz_type = "true_false")) as [->|Htf].
  { unfold generate_quiz in Hrun.
    destruct (extract_text env file_path); [done|].
    rewrite bool_decide_eq_false_2 in Hrun by done.
    rewrite bool_decide_eq_true_2 in Hrun by done.
    destruct (ensures_Ret _ _ _ _ _ (ensures_true_false_content _ []) Hrun)
      as (new & -> & Hnew).
    simpl. clear Hrun.
    induction Hnew as [|sent q sents new (_ & _ & Hq & _) _ IH];
      by constructor. }
  destruct (decide (quiz_type = "fill_blanks")) as [->|Hfb].
  { apply generate_quiz_fill_blanks_Ret in Hrun as (text & words & _ & HR & _).
    induction HR as [|q w new ws (sent & tg & _ & _ & ->) _ IH];
      by constructor. }
  unfold generate_quiz in Hrun.
  destruct (extract_text env file_path); [done|].
  by rewrite !bool_decide_eq_false_2 in Hrun by done.
Qed.

(** The questions of [generate_quiz] cannot be answered through the store:
    once such a quiz is handed to [create_quiz], every [submit_quiz] call
    made before it expires with as many answers as it has questions raises
    [KeyError] on [correct_answer]; the generator writes the key [correct]
    and never [correct_answer]. *)
Theorem generated_quiz_rejects_submissions (env : Env) (file_path : string)
    (num_questions : Z) (quiz_type : string) (t t' : Tape)
    (qs : list Question) (s : QuizStore.t) (clock : QuizStore.Clock)
    (now' : Z) (code by_ name : string) (answers : list string) :
  generate_quiz env file_path num_questions quiz_type t = Ret qs t' →
  qs ≠ [] →
  length answers = length qs →
  (now' < QuizStore.expires_now clock + QuizStore.expiry_time s)%Z →
  (QuizStore.submit_quiz
     (QuizStore.create_quiz s clock code qs quiz_type by_).1
     now' code name answers).2
  = inl (KeyError "correct_answer").
Proof.
  intros Hrun Hne Hlen Hlive.
  apply generate_quiz_no_key in Hrun.
  unfold QuizStore.submit_quiz, QuizStore.get_quiz.
  rewrite create_quiz_lookup. cbn [QuizStore.expires_at].
  rewrite bool_decide_eq_true_2 by done. simpl.
  rewrite bool_decide_eq_true_2 by done. simpl.
  rewrite correct_answers_inl; [done|done|].
  destruct Hrun as [|q qs' Hq _]; [done|]. by apply Exists_cons_hd.
Qed.

Lemma generated_quiz_rejects_submissions_witness :
  (QuizStore.submit_quiz Sample.generated_store Sample.minute "GE00NE11"
     "Ann" ["quick"; "bear"]).2
  = inl (KeyError "correct_answer").
Proof.
  apply (generated_quiz_rejects_submissions Sample.generator_env Sample.path
           2%Z "mcq" Sample.tape
           (tape_of (generate_quiz Sample.generator_env Sample.path 2 "mcq"
                       Sample.tape))
           Sample.generated_questions (QuizStore.init 0)
           (QuizStore.instant 0) Sample.minute
           "GE00NE11" "teacher" "Ann" ["quick"; "bear"]).
  - vm_compute. reflexivity.
  - vm_compute. discriminate.
  - vm_compute. reflexivity.
  - vm_compute. reflexivity.
Defined.

(** *** [process_sentence] *)

Lemma filter_nil_Forall {A} (p : A → bool) (l : list A) :
  filter (λ x, p x) l = [] ↔ Forall (λ x, p x = false) l.
Proof.
  induction l as [|x l IH]; [by split; [constructor|]|].
  rewrite filter_cons. destruct (p x) eqn:Hp; simpl.
  - split; [done|]. intros [Hx _]%Forall_cons. congruence.
  - rewrite IH. split; [by constructor|]. by intros [_ ?]%Forall_cons.
Qed.

(** [process_sentence] gives up on a sentence exactly when none of its
    tagged words is eligible; otherwise its question asks for an eligible
    word of the sentence (a noun, verb or adjective of more than three
    letters that is no stop word and whose lower-case form is not in
    [used_words]) and records it as [correct_answer]. *)
Theorem process_sentence_result (env : Env) (sentence : string)
    (used_words : gset string) (t t' : Tape) (r : option Question) :
  process_sentence env sentence used_words t = Ret r t' →
  let tagged := pos_tag env (word_tokenize env sentence) in
  (r = None ↔
   Forall (λ wt, important env used_words wt.1 wt.2 = false) tagged) ∧
  (∀ q, r = Some q →
     ∃ word tag,
       (word, tag) ∈ tagged ∧
       important env used_words word tag = true ∧
       q_correct_answer q = Some word ∧
       correct_word q = Some word).
Proof.
  intros Hrun tagged.
  pose proof (ensures_Ret _ _ _ _ _
                (ensures_process_sentence env sentence used_words) Hrun)
    as Hpost.
  unfold process_sentence in Hrun. fold tagged in Hrun.
  rewrite <- (filter_nil_Forall (λ wt, important env used_words wt.1 wt.2)).
  destruct (filter _ tagged) as [|wt0 more] eqn:Himp.
  { injection Hrun as <- _. by split. }
  apply Ret_bind_inv in Hrun as ([word tag] & t1 & Hchoice & Hrun).
  pose proof (ensures_Ret _ _ _ _ _
                (ensures_choice (wt0 :: more) ltac:(done)) Hchoice) as Hin.
  rewrite <- Himp in Hin. apply list_elem_of_filter in Hin as [Hok Hin].
  repeat (apply Ret_bind_inv in Hrun as (? & ? & _ & Hrun)).
  destruct (index _ _) as [i|]; [|done]. injection Hrun as <- _.
  split; [done|]. intros q [= <-]. exists word, tag.
  split; [done|]. split; [by apply Is_true_true|]. split; [done|].
  destruct (Hpost _ eq_refl) as (w & tg & _ & _ & Hq & Hans).
  simpl in Hans. injection Hans as <-.
  destruct Hq as (_ & _ & options & c & Ho & Hc & _ & _ & _ & Hw).
  unfold correct_word. by rewrite Ho, Hc.
Qed.

Lemma process_sentence_result_witness :
  let run := process_sentence Sample.generator_env Sample.sentence ∅
               Sample.tape in
  let tagged := pos_tag Sample.generator_env
                  (word_tokenize Sample.generator_env Sample.sentence) in
  (value_of None run = None ↔
   Forall (λ wt, important Sample.generator_env ∅ wt.1 wt.2 = false) tagged) ∧
  (∀ q, value_of None run = Some q →
     ∃ word tag,
       (word, tag) ∈ tagged ∧
       important Sample.generator_env ∅ word tag = true ∧
       q_correct_answer q = Some word ∧
       correct_word q = Some word).
Proof.
  intros run.
  apply (process_sentence_result Sample.generator_env Sample.sentence ∅
           Sample.tape (tape_of run) (value_of None run)).
  vm_compute. reflexivity.
Defined.

End GeneratorExtras.

(** ** [clean_text] *)

Section CleanText.
Import QuizGenerator.

Lemma all_chars_rev_app (p : ascii → bool) (s1 s2 : string) :
  PyStr.all_chars p (String.rev_app s1 s2)
  = PyStr.all_chars p s1 && PyStr.all_chars p s2.
Proof.
  revert s2. induction s1 as [|c s1 IH]; intros s2; simpl; [done|].
  rewrite IH. simpl. by destruct (p c), (PyStr.all_chars p s1).
Qed.

Lemma all_chars_rev (p : ascii → bool) (s : string) :
  PyStr.all_chars p (String.rev s) = PyStr.all_chars p s.
Proof. unfold String.rev. rewrite all_chars_rev_app. simpl. apply andb_true_r. Qed.

Lemma all_chars_app (p : ascii → bool) (s1 s2 : string) :
  PyStr.all_chars p (s1 +:+ s2)
  = PyStr.all_chars p s1 && PyStr.all_chars p s2.
Proof.
  induction s1 as [|c s1 IH]; [done|].
  change (String c s1 +:+ s2) with (String c (s1 +:+ s2)). simpl.
  rewrite IH. apply andb_assoc.
Qed.

(** The words of [str.split()] hold no white space. *)
Lemma split_go_words (s : string) :
  ∀ cur,
    PyStr.all_chars (λ c, negb (Ascii.is_space c)) cur = true →
    Forall (λ w, PyStr.all_chars (λ c, negb (Ascii.is_space c)) w = true)
      (PyStr.split_go cur s).
Proof.
  induction s as [|c s IH]; intros cur Hcur; simpl.
  - destruct cur; [constructor|]. constructor; [|constructor].
    by rewrite all_chars_rev.
  - destruct (Ascii.is_space c) eqn:Hc.
    + destruct cur; [by apply IH|]. constructor; [|by apply IH].
      by rewrite all_chars_rev.
    + apply IH. simpl. by rewrite Hc.
Qed.

Lemma all_chars_join (p : ascii → bool) (sep : string) (l : list string) :
  PyStr.all_chars p sep = true →
  Forall (λ w, PyStr.all_chars p w = true) l →
  PyStr.all_chars p (PyStr.join sep l) = true.
Proof.
  intros Hsep. induction 1 as [|w l Hw Hl IH]; [done|].
  cbn [PyStr.join]. destruct l as [|w' l]; [done|].
  by rewrite !all_chars_app, Hw, Hsep, IH.
Qed.

Lemma all_chars_impl (p q : ascii → bool) (s : string) :
  (∀ c, p c = true → q c = true) →
  PyStr.all_chars p s = true → PyStr.all_chars q s = true.
Proof.
  intros Hpq. induction s as [|c s IH]; [done|]. simpl.
  intros [Hc Hs]%andb_true_iff. by rewrite (Hpq c Hc), IH.
Qed.

Lemma all_chars_filter_chars (p q : ascii → bool) (s : string) :
  PyStr.all_chars q s = true →
  PyStr.all_chars (λ c, p c && q c) (filter_chars p s) = true.
Proof.
  induction s as [|c s IH]; [done|]. simpl.
  intros [Hc Hs]%andb_true_iff. destruct (p c) eqn:Hp; [|by apply IH].
  simpl. by rewrite Hp, Hc, IH.
Qed.

(** For a text of printable ASCII characters and white space (where the
    character classes of the model are those of Python), every character
    of the text that [clean_text] returns is a letter, a digit, a blank or
    one of [.] [,] [!] [?]: no tab, line break or other character is
    left. *)
Theorem clean_text_chars (text : string) :
  PyStr.all_chars plain_char text = true →
  PyStr.all_chars clean_char (clean_text text) = true.
Proof.
  intros _. unfold clean_text.
  eapply all_chars_impl;
    [|apply (all_chars_filter_chars kept_char
               (λ c, negb (Ascii.is_space c) || bool_decide (c = " "%char)))].
  - intros c [Hkept Hblank]%andb_true_iff. unfold kept_char in Hkept.
    unfold clean_char.
    destruct (PyStr.is_upper c), (PyStr.is_lower c), (PyStr.is_digit c);
      try done.
    destruct (bool_decide (c ∈ ["."%char; ","%char; "!"%char; "?"%char]));
      [by rewrite !orb_true_r|].
    simpl in *. rewrite orb_false_r in Hkept. rewrite Hkept in Hblank.
    simpl in Hblank. by rewrite Hblank.
  - apply all_chars_join; [done|].
    eapply Forall_impl; [apply (split_go_words text EmptyString eq_refl)|].
    intros w Hw. eapply all_chars_impl; [|exact Hw].
    intros c Hc. by rewrite Hc.
Qed.

Lemma clean_text_chars_witness :
  PyStr.all_chars clean_char
    (clean_text ("  Cats  (it is said) sleep" +:+ String "009"%char
                   ("16 hours;" +:+ String "010"%char " do they?")))
  = true.
Proof. apply clean_text_chars. vm_compute. reflexivity. Defined.

End CleanText.

(** ** The generative strategies *)

Section GenerativeExtras.
Import PyRandom PyList.
Local Open Scope rand_scope.

Lemma ensures_try_except {A} (m : M A) (handler : exn → M A)
    (P : A → Prop) :
  ensures m P → ensures (try_except m handler) P.
Proof.
  intros Hm t. unfold try_except. specialize (Hm t). by destruct (m t).
Qed.

Lemma generate_distractors_core (env : ObjectiveTest.Env)
    (answer context : string) :
  ensures (ObjectiveTest.generate_distractors env answer context)
    (λ distractors, length distractors = 3).
Proof.
  unfold ObjectiveTest.generate_distractors. apply ensures_try_except.
  case_bool_decide as Hlen.
  - eapply ensures_weaken; [apply (ensures_sample _ 3 Hlen)|].
    by intros l [? _].
  - by apply ensures_ret.
Qed.




Lemma option_letter_letters (i : nat) :
  i < 4 → ObjectiveTest.option_letter i ∈ ObjectiveTest.option_letters.
Proof.
  intros Hi. unfold ObjectiveTest.option_letters.
  destruct i as [|[|[|[|i]]]]; [| | | |lia];
    vm_compute ObjectiveTest.option_letter;
    repeat first [apply list_elem_of_here | apply list_elem_of_further].
Qed.

Lemma ensures_question_for (env : ObjectiveTest.Env) (context : string) :
  ensures (ObjectiveTest.question_for env context)
    (λ qa, qa.2 ∈ ObjectiveTest.option_letters).
Proof.
  unfold ObjectiveTest.question_for.
  eapply ensures_bind.
  { intros t. apply (generate_distractors_core env _ context t). }
  cbv beta. intros distractors Hlen.
  eapply ensures_bind; [apply ensures_shuffle|].
  cbv beta. intros options Hperm.
  set (answer := ObjectiveTest.qa_pipeline env _ context) in *.
  assert (answer ∈ options) as Hin.
  { rewrite Hperm. apply list_elem_of_here. }
  destruct (index_elem_of _ _ Hin) as [i Hi]. rewrite Hi.
  apply ensures_ret. cbn [snd]. apply option_letter_letters.
  apply index_Some, lookup_lt_Some in Hi.
  apply Permutation_length in Hperm. simpl in Hperm. lia.
Qed.

Lemma ensures_objective_questions_for (env : ObjectiveTest.Env)
    (contexts : list string) :
  ensures (ObjectiveTest.questions_for env contexts)
    (λ r, length r.1 = length contexts ∧ length r.2 = length contexts
          ∧ Forall (λ a, a ∈ ObjectiveTest.option_letters) r.2).
Proof.
  induction contexts as [|context rest IH]; cbn [ObjectiveTest.questions_for].
  - apply ensures_ret. by repeat split.
  - eapply ensures_bind; [apply ensures_question_for|].
    cbv beta. intros qa Hqa.
    eapply ensures_bind; [apply IH|].
    cbv beta. intros qas (Hq & Ha & Hall).
    apply ensures_ret. cbn [fst snd length].
    split; [by rewrite Hq|]. split; [by rewrite Ha|]. by constructor.
Qed.

(** What [ObjectiveTest.generate_test] does for every text and every
    requested number: with fewer meaningful sentences than requested it
    raises the wrapped not-enough-content error, for a negative number
    the wrapped error of [random.sample], both before any random draw;
    otherwise it returns exactly the requested number of questions and as
    many answers, each answer one of the letters A to D. *)
Theorem objective_generate_test_outcome (env : ObjectiveTest.Env)
    (text : string) (num_questions : Z) (t : Tape) :
  let available :=
    Z.of_nat (length (ObjectiveTest.preprocess_text env text)) in
  match ObjectiveTest.generate_test env text num_questions t with
  | Ret (questions, answers) _ =>
      (0 ≤ num_questions ≤ available)%Z ∧
      Z.of_nat (length questions) = num_questions ∧
      Z.of_nat (length answers) = num_questions ∧
      Forall (λ a, a ∈ ObjectiveTest.option_letters) answers
  | Raise e t' =>
      t' = t ∧
      ((available < num_questions)%Z
         ∧ e = ObjectiveTest.InsufficientContentError
       ∨ (num_questions < 0)%Z ∧ e = ObjectiveTest.NegativeSampleError)
  | Starved => (0 ≤ num_questions ≤ available)%Z
  end.
Proof.
  intros available. unfold ObjectiveTest.generate_test, try_except.
  fold available. case_bool_decide as Hshort.
  { split; [done|]. left. by split. }
  unfold sample. case_bool_decide as Hrange.
  2:{ cbn [raise]. split; [done|]. right. split; [|done].
      unfold available in *. lia. }
  fold available in Hrange.
  assert (ensures
    (let* selected_sentences :=
       sample_go (Z.to_nat num_questions)
         (ObjectiveTest.preprocess_text env text) in
     ObjectiveTest.questions_for env selected_sentences)
    (λ r, length r.1 = Z.to_nat num_questions
          ∧ length r.2 = Z.to_nat num_questions
          ∧ Forall (λ a, a ∈ ObjectiveTest.option_letters) r.2)) as Hbody.
  { eapply ensures_bind.
    - apply ensures_sample_go. unfold available in Hrange. lia.
    - cbv beta. intros selected [Hlen _].
      eapply ensures_weaken; [apply ensures_objective_questions_for|].
      cbv beta. intros r (Hq & Ha & Hall). by rewrite Hq, Ha, Hlen. }
  specialize (Hbody t). cbv zeta in Hbody.
  destruct (bind _ _ t) as [[questions answers] t'| |]; [|done..].
  cbn [fst snd] in Hbody. destruct Hbody as (Hq & Ha & Hall).
  repeat split; [lia..|done].
Qed.

(** ** subjective.py *)



Lemma ensures_subjective_questions_for (env : SubjectiveTest.Env)
    (paragraphs : list string) (num_questions : Z) (contexts : list string) :
  ∀ questions answers,
    Forall2 (SubjectiveTest.question_about env paragraphs) questions answers →
    contexts ⊆ paragraphs →
    (Z.of_nat (length questions + length contexts) ≤ num_questions)%Z →
    ensures
      (SubjectiveTest.questions_for env num_questions contexts questions
         answers)
      (λ r, Forall2 (SubjectiveTest.question_about env paragraphs) r.1 r.2
            ∧ length r.1 = length questions + length contexts).
Proof.
  induction contexts as [|context rest IH];
    intros questions answers Hall Hsub Hlen;
    cbn [SubjectiveTest.questions_for].
  - apply ensures_ret. cbn [fst snd length]. split; [done|lia].
  - eapply ensures_bind; [by apply ensures_choice|].
    cbv beta. intros question_type Hty.
    assert (Forall2 (SubjectiveTest.question_about env paragraphs)
              (questions ++
                 [question_type +:+ " " +:+
                    PyStr.lower
                      (SubjectiveTest.generator env
                         ("Generate a thought-provoking question about this text: "
                            +:+ context))])
              (answers ++ ["Sample Answer: " +:+ context])) as Hall'.
    { apply Forall2_app; [done|]. constructor; [|constructor].
      exists question_type, context. repeat split; [done| |done..].
      apply Hsub, list_elem_of_here. }
    cbn [length] in Hlen.
    case_bool_decide as Hdone.
    + apply ensures_ret. cbn [fst snd]. split; [done|].
      rewrite length_app in Hdone. rewrite length_app. cbn [length] in *. lia.
    + eapply ensures_weaken.
      * apply IH; [done| |].
        -- intros x Hx. apply Hsub. by apply list_elem_of_further.
        -- rewrite length_app. cbn [length]. lia.
      * cbv beta. intros r [Hr Hlen']. split; [done|].
        rewrite Hlen', length_app. cbn [length]. lia.
Qed.

(** What [SubjectiveTest.generate_test] does for every text and every
    requested number: with fewer paragraphs than requested it raises the
    wrapped not-enough-content error, for a negative number the wrapped
    error of [random.sample], both before any random draw; otherwise it
    returns exactly the requested number of questions, each a question
    starter followed by the generated question in lower case, paired with
    the paragraph it was generated from as its sample answer. *)
Theorem subjective_generate_test_outcome (env : SubjectiveTest.Env)
    (text : string) (num_questions : Z) (t : Tape) :
  let paragraphs := SubjectiveTest.preprocess_text env text in
  match SubjectiveTest.generate_test env text num_questions t with
  | Ret (questions, answers) _ =>
      (0 ≤ num_questions ≤ Z.of_nat (length paragraphs))%Z ∧
      Z.of_nat (length questions) = num_questions ∧
      Forall2 (SubjectiveTest.question_about env paragraphs) questions answers
  | Raise e t' =>
      t' = t ∧
      ((Z.of_nat (length paragraphs) < num_questions)%Z
         ∧ e = SubjectiveTest.InsufficientContentError
       ∨ (num_questions < 0)%Z ∧ e = SubjectiveTest.NegativeSampleError)
  | Starved => (0 ≤ num_questions ≤ Z.of_nat (length paragraphs))%Z
  end.
Proof.
  intros paragraphs. unfold SubjectiveTest.generate_test, try_except.
  fold paragraphs. case_bool_decide as Hshort.
  { split; [done|]. left. by split. }
  unfold sample. case_bool_decide as Hrange.
  2:{ cbn [raise]. split; [done|]. right. split; [lia|done]. }
  assert (ensures
    (let* selected_paragraphs :=
       sample_go (Z.to_nat num_questions) paragraphs in
     SubjectiveTest.questions_for env num_questions selected_paragraphs [] [])
    (λ r, Forall2 (SubjectiveTest.question_about env paragraphs) r.1 r.2
          ∧ length r.1 = Z.to_nat num_questions)) as Hbody.
  { eapply ensures_bind.
    - apply ensures_sample_go. lia.
    - cbv beta. intros selected [Hlen Hsub].
      eapply ensures_weaken.
      + apply (ensures_subjective_questions_for env paragraphs);
          [constructor|done|]. cbn [length]. lia.
      + cbv beta. intros r [Hr Hlen']. split; [done|].
        rewrite Hlen'. cbn [length]. lia. }
  specialize (Hbody t). cbv zeta in Hbody.
  destruct (bind _ _ t) as [[questions answers] t'| |]; [|done..].
  cbn [fst snd] in Hbody. destruct Hbody as [Hall Hq].
  repeat split; [lia..|done].
Qed.

End GenerativeExtras.
